(** * temper: a USB session with a TEMPer thermometer

    A shallow embedding of [temper.cpp] and of its two earlier revisions
    (the tr1 revision with the same structure, and the first revision with
    [claim_interface], [send_data] and [recv_data]).

    The program talks to libusb.  Every libusb call, and every line written
    to [std::cerr] or [std::cout], is an [event]; a run of the program is the
    list of events it emits.  What libusb answers is not decided by the
    program: a [host] gives the return value of every call as a function of
    the events emitted so far, the bytes an inbound transfer leaves in the
    buffer, and the descriptors of the enumerated devices.

    C++ control flow is written out: a computation ends normally, by a
    thrown exception, by a call of [std::terminate], or in undefined
    behaviour.  Objects with automatic storage are destroyed in reverse
    order of construction on every way out of their scope. *)

From Stdlib Require Import ZArith List String Bool Lia.
From Stdlib Require Import QArith SpecFloat DecimalString.
Import ListNotations.
Open Scope Z_scope.

(** ** Exceptions, events and hosts *)

(** The two exception classes of the program, both derived from
    [std::exception]: [usb_error] carries the libusb error code,
    [std::runtime_error] its message. *)
Inductive exn : Type :=
| usb_error (e : Z)
| runtime_error (what : string).

(** [libusb_device_handle*]: the position, in the enumeration, of the device
    that was opened. *)
Definition handle : Type := nat.
Bind Scope nat_scope with handle.

Definition msg32 : Type := list Z.
Definition msg256 : Type := list Z.

Inductive event : Type :=
| libusb_init
| libusb_exit
| libusb_get_device_list
| libusb_free_device_list
| libusb_get_device_descriptor (dev : nat)
| libusb_open (dev : nat)
| libusb_close (dh : handle)
| libusb_kernel_driver_active (dh : handle) (interface : Z)
| libusb_detach_kernel_driver (dh : handle) (interface : Z)
| libusb_attach_kernel_driver (dh : handle) (interface : Z)
| libusb_claim_interface (dh : handle) (interface : Z)
| libusb_release_interface (dh : handle) (interface : Z)
| libusb_set_configuration (dh : handle) (configuration : Z)
| libusb_control_transfer (dh : handle) (bmRequestType bRequest wValue wIndex : Z)
                          (data : list Z) (wLength : Z) (timeout : Z)
| cerr_destructor (func : string) (e : exn)
| cerr_exception (e : exn)
| cout_float (value : spec_float).

Record libusb_device_descriptor : Type :=
  { idVendor : Z; idProduct : Z }.

Record host : Type :=
  { (** the value a libusb call returns, given the events before it *)
    respond : list event -> event -> Z;
    (** the content of the buffer after an inbound control transfer *)
    inbuf : list event -> msg256;
    (** the descriptor of the i-th enumerated device *)
    descriptors : nat -> libusb_device_descriptor }.

(** ** Computations *)

Inductive outcome (A : Type) : Type :=
| Normal (a : A)
| Throw (e : exn)
| Terminate
| Undefined.
Arguments Normal {A} a.
Arguments Throw {A} e.
Arguments Terminate {A}.
Arguments Undefined {A}.

(** A computation reads the host and the events emitted before it started,
    and yields its outcome and the events it emitted itself. *)
Definition M (A : Type) : Type := host -> list event -> outcome A * list event.

Definition ret {A} (a : A) : M A := fun _ _ => (Normal a, []).
Definition throw {A} (e : exn) : M A := fun _ _ => (Throw e, []).
Definition undefined {A} : M A := fun _ _ => (Undefined, []).

Definition bind {A B} (m : M A) (f : A -> M B) : M B :=
  fun w hist =>
    match m w hist with
    | (Normal a, e1) =>
        match f a w (hist ++ e1) with
        | (o, e2) => (o, e1 ++ e2)
        end
    | (Throw e, e1) => (Throw e, e1)
    | (Terminate, e1) => (Terminate, e1)
    | (Undefined, e1) => (Undefined, e1)
    end.

Declare Scope cxx_scope.
Delimit Scope cxx_scope with cxx.
Notation "x <- c1 ;; c2" := (bind c1 (fun x => c2))
  (at level 100, c1 at next level, right associativity) : cxx_scope.
Notation "c1 ;; c2" := (bind c1 (fun _ => c2))
  (at level 100, right associativity) : cxx_scope.
Open Scope cxx_scope.

(** A libusb call: one event, answered by the host. *)
Definition call (ev : event) : M Z :=
  fun w hist => (Normal (respond w hist ev), [ev]).

(** Output on a stream, and calls whose result is not looked at. *)
Definition emit (ev : event) : M unit :=
  fun _ _ => (Normal tt, [ev]).

Definition outcome_of {A} (m : M A) (w : host) (hist : list event) : outcome A :=
  fst (m w hist).
Definition events_of {A} (m : M A) (w : host) (hist : list event) : list event :=
  snd (m w hist).

(** [for (int i = 0; i < n; ++i) body] *)
Fixpoint for_loop (n : nat) (body : M unit) : M unit :=
  match n with
  | O => ret tt
  | S n' => body;; for_loop n' body
  end.

(** *** Language rules for destructors and scopes *)

Inductive dialect : Type := cxx03 | cxx11.

(** A function-try-block of a destructor.  When control reaches the end of
    the handler, the exception being handled is thrown again (ISO C++
    [except.handle]: "The currently handled exception is rethrown if control
    reaches the end of a handler of the function-try-block of a constructor
    or destructor"); only a [return] in the handler would leave the
    destructor normally, and none of the handlers here has one. *)
Definition destructor_try_block (body : M unit) (catches : exn -> bool)
    (handler : exn -> M unit) : M unit :=
  fun w hist =>
    match body w hist with
    | (Throw e, e1) =>
        if catches e then
          match handler e w (hist ++ e1) with
          | (Normal _, e2) => (Throw e, e1 ++ e2)
          | (o, e2) => (o, e1 ++ e2)
          end
        else (Throw e, e1)
    | r => r
    end.

(** An exception that leaves a function with a non-throwing exception
    specification calls [std::terminate]. *)
Definition noexcept {A} (m : M A) : M A :=
  fun w hist =>
    match m w hist with
    | (Throw _, e1) => (Terminate, e1)
    | r => r
    end.

(** Since C++11 a destructor without an exception specification of its own
    is [noexcept(true)]; before, it may throw. *)
Definition destructor (d : dialect) (m : M unit) : M unit :=
  match d with
  | cxx11 => noexcept m
  | cxx03 => m
  end.

(** An object with automatic storage and the rest of its scope.  The
    destructor runs only when the constructor has completed.  It runs when
    the scope is left normally, and during stack unwinding when the scope is
    left by an exception; an exception leaving a destructor during unwinding
    calls [std::terminate]. *)
Definition with_local {G A} (ctor : M G) (dtor : G -> M unit) (body : G -> M A)
    : M A :=
  fun w hist =>
    match ctor w hist with
    | (Normal g, e1) =>
        match body g w (hist ++ e1) with
        | (Normal a, e2) =>
            match dtor g w (hist ++ e1 ++ e2) with
            | (Normal _, e3) => (Normal a, e1 ++ e2 ++ e3)
            | (Throw e, e3) => (Throw e, e1 ++ e2 ++ e3)
            | (Terminate, e3) => (Terminate, e1 ++ e2 ++ e3)
            | (Undefined, e3) => (Undefined, e1 ++ e2 ++ e3)
            end
        | (Throw e, e2) =>
            match dtor g w (hist ++ e1 ++ e2) with
            | (Normal _, e3) => (Throw e, e1 ++ e2 ++ e3)
            | (Throw _, e3) => (Terminate, e1 ++ e2 ++ e3)
            | (Terminate, e3) => (Terminate, e1 ++ e2 ++ e3)
            | (Undefined, e3) => (Undefined, e1 ++ e2 ++ e3)
            end
        | (Terminate, e2) => (Terminate, e1 ++ e2)
        | (Undefined, e2) => (Undefined, e1 ++ e2)
        end
    | (Throw e, e1) => (Throw e, e1)
    | (Terminate, e1) => (Terminate, e1)
    | (Undefined, e1) => (Undefined, e1)
    end.

(** ** [usb_error::check] *)

Definition check (e : Z) : M Z :=
  if e <? 0 then throw (usb_error e) else ret e.

(** ** The interface guards of temper.cpp *)

Definition catches_usb_error (e : exn) : bool :=
  match e with
  | usb_error _ => true
  | runtime_error _ => false
  end.

Module usb_attach_interface.
Record t : Type := mk { h : handle; interface : Z; was_attached : bool }.

Definition ctor (h0 : handle) (interface0 : Z) : M t :=
  r <- call (libusb_kernel_driver_active h0 interface0);;
  r <- check r;;
  let was := negb (r =? 0) in
  (if was
   then (r <- call (libusb_detach_kernel_driver h0 interface0);;
         check r;; ret tt)
   else ret tt);;
  ret (mk h0 interface0 was).

Definition dtor (d : dialect) (g : t) : M unit :=
  destructor d
    (destructor_try_block
       (if was_attached g
        then (r <- call (libusb_attach_kernel_driver (h g) (interface g));;
              check r;; ret tt)
        else ret tt)
       catches_usb_error
       (fun e => emit (cerr_destructor "~usb_attach_interface" e))).
End usb_attach_interface.

Module usb_claim_interface.
Record t : Type := mk { h : handle; interface : Z }.

Definition ctor (h0 : handle) (interface0 : Z) : M t :=
  r <- call (libusb_claim_interface h0 interface0);;
  check r;;
  ret (mk h0 interface0).

Definition dtor (d : dialect) (g : t) : M unit :=
  destructor d
    (destructor_try_block
       (r <- call (libusb_release_interface (h g) (interface g));;
        check r;; ret tt)
       catches_usb_error
       (fun e => emit (cerr_destructor "~usb_claim_interface" e))).
End usb_claim_interface.

(** ** Transport *)

(** Constants of libusb.h; the first revision writes the two request types
    as the literals 0x21 and 0xa1. *)
Definition LIBUSB_ENDPOINT_IN : Z := 0x80.
Definition LIBUSB_ENDPOINT_OUT : Z := 0x00.
Definition LIBUSB_REQUEST_TYPE_CLASS : Z := 0x20.
Definition LIBUSB_RECIPIENT_INTERFACE : Z := 0x01.

(** [enum hid_req] *)
Definition get_report : Z := 0x01.
Definition set_report : Z := 0x09.

(** [ss << r] for an [int] *)
Definition decimal (r : Z) : string := NilZero.string_of_int (Z.to_int r).

Definition msg32_size : Z := 32.
Definition msg256_size : Z := 256.

Definition usb_send (dh : handle) (data : msg32) : M unit :=
  r <- call (libusb_control_transfer dh
               (Z.lor (Z.lor LIBUSB_ENDPOINT_OUT LIBUSB_REQUEST_TYPE_CLASS)
                      LIBUSB_RECIPIENT_INTERFACE)
               set_report 0x0200 0x0001 data msg32_size 1000);;
  check r;;
  if negb (r =? msg32_size)
  then throw (runtime_error ("wrong number of bytes written: " ++ decimal r))
  else ret tt.

(** The buffer [result] is not initialised before the call; what it holds on
    entry is not observed, and the event carries no data. *)
Definition usb_recv (dh : handle) : M msg256 :=
  fun w hist =>
    (r <- call (libusb_control_transfer dh
                  (Z.lor (Z.lor LIBUSB_ENDPOINT_IN LIBUSB_REQUEST_TYPE_CLASS)
                         LIBUSB_RECIPIENT_INTERFACE)
                  get_report 0x0300 0x0001 [] msg256_size 1000);;
     check r;;
     if r <? msg256_size
     then throw (runtime_error ("wrong number of bytes read: " ++ decimal r))
     else ret (inbuf w hist)) w hist.

(** ** Device locator *)

(** [usb_open]: the context is released by [libusb_exit] when its owner is
    destroyed. *)
Definition usb_open : M unit :=
  r <- call libusb_init;;
  check r;;
  ret tt.

(** [usb_device_list]: the number of devices found.  The value returned by
    [libusb_get_device_list] is not checked: when it is negative the list
    pointer was never set, and both the loop bound and the deleter read
    it. *)
Definition usb_device_list : M Z :=
  n <- call libusb_get_device_list;;
  if n <? 0 then undefined else ret n.

Definition matches (w : host) (vendor product : Z) (dev : nat) : bool :=
  (idVendor (descriptors w dev) =? vendor)
  && (idProduct (descriptors w dev) =? product).

(** The loop of [usb_device_get], from device [dev] on, with [remaining]
    devices left before [list.first.get () + list.second]. *)
Fixpoint usb_device_get_loop (vendor product : Z) (remaining : nat) (dev : nat)
    : M handle :=
  match remaining with
  | O => throw (runtime_error "could not find device")
  | S remaining' =>
      r <- call (libusb_get_device_descriptor dev);;
      check r;;
      fun w hist =>
        (if matches w vendor product dev
         then (r <- call (libusb_open dev);;
               check r;;
               ret dev)
         else usb_device_get_loop vendor product remaining' (S dev)) w hist
  end.

Definition usb_device_get (vendor product : Z) : M handle :=
  with_local usb_device_list (fun _ => emit libusb_free_device_list)
    (fun n => usb_device_get_loop vendor product (Z.to_nat n) 0).

(** ** Command protocol *)

(** [msg32 b = {{ ... }}]: the elements without an initialiser are zero. *)
Definition msg32_init (l : list Z) : msg32 :=
  firstn 32 l ++ repeat 0 (32 - List.length l).

(** [b[i] = v] *)
Fixpoint array_set (b : list Z) (i : nat) (v : Z) : list Z :=
  match b, i with
  | [], _ => []
  | _ :: t, O => v :: t
  | x :: t, S i' => x :: array_set t i' v
  end.

Definition send_cmd (dh : handle) (cmd : Z) : M unit :=
  (* hey, here comes a command! *)
  usb_send dh (msg32_init [0x0a; 0x0b; 0x0c; 0x0d; 0x00; 0x00; 0x02; 0x00]);;
  (* issue the command *)
  usb_send dh (array_set (msg32_init [0]) 0 cmd);;
  (* i2c bus padding *)
  for_loop 7 (usb_send dh (msg32_init [0])).

Definition read_data (dh : handle) (cmd : Z) : M msg256 :=
  send_cmd dh cmd;;
  (* hey, give me the data! *)
  usb_send dh (msg32_init [10; 11; 12; 13; 0; 0; 1; 0]);;
  usb_recv dh.

(** [enum cmds] *)
Definition cmd_getdata_ntc : Z := 0x41.
Definition cmd_reset0 : Z := 0x43.
Definition cmd_reset1 : Z := 0x44.
Definition cmd_getdata : Z := 0x48.
Definition cmd_devtype : Z := 0x52.
Definition cmd_getdata_outer : Z := 0x53.
Definition cmd_getdata_inner : Z := 0x54.

(** [enum dev_types] *)
Definition dev_type_temperhum : Z := 0x5a53.
Definition dev_type_temperhum2 : Z := 0x5a57.
Definition dev_type_temper1 : Z := 0x5857.
Definition dev_type_temper2 : Z := 0x5957.
Definition dev_type_temperntc : Z := 0x5b57.

(** ** Decoder *)

(** [float], IEEE 754 binary32, and [double], binary64. *)
Definition float_prec : Z := 24.
Definition float_emax : Z := 128.
Definition double_prec : Z := 53.
Definition double_emax : Z := 1024.

(** Conversion of an integer to a floating-point type. *)
Definition of_int (prec emax : Z) (z : Z) : spec_float :=
  binary_normalize prec emax z 0 false.

(** [d[i]], for an index within the array; a list that is too short for
    the index stands for no array of the program, and reads as 0. *)
Definition at_index (d : list Z) (i : nat) : Z := nth i d 0.

(** [float (d[0]) + float (d[1])/256], temper.cpp and the tr1 revision. *)
Definition decode_float (d : msg256) : spec_float :=
  SFadd float_prec float_emax
    (of_int float_prec float_emax (at_index d 0))
    (SFdiv float_prec float_emax
       (of_int float_prec float_emax (at_index d 1))
       (of_int float_prec float_emax 256)).

(** [double (d[0]) + double (d[1])/256], the first revision. *)
Definition decode_double (d : msg256) : spec_float :=
  SFadd double_prec double_emax
    (of_int double_prec double_emax (at_index d 0))
    (SFdiv double_prec double_emax
       (of_int double_prec double_emax (at_index d 1))
       (of_int double_prec double_emax 256)).

(** The rational number a finite floating-point value stands for, and the
    same in lowest terms. *)
Definition SF2Q_exact (f : spec_float) : option Q :=
  match f with
  | S754_zero _ => Some 0%Q
  | S754_finite s m e =>
      let q := (inject_Z (Zpos m) * Qpower 2 e)%Q in
      Some (if s then Qopp q else q)
  | S754_infinity _ => None
  | S754_nan => None
  end.
Definition SF2Q (f : spec_float) : option Q := option_map Qred (SF2Q_exact f).

(** ** The session: [main] *)

(** [struct dev_info], local to [main]. *)
Module dev_info.
Record t : Type :=
  mk { dev_type : Z; cal : list (list Z); footer : Z }.

(** [uint16_t] (2 bytes), [uint8_t[2][2]] (4 bytes), [uint8_t] (1 byte),
    and one byte of padding to the alignment of [uint16_t]. *)
Definition sizeof : nat := 8.

(** The value of the struct whose bytes are [b], on a little-endian
    machine. *)
Definition of_bytes (b : list Z) : t :=
  mk (Z.lor (at_index b 0) (Z.shiftl (at_index b 1) 8))
     [[at_index b 2; at_index b 3]; [at_index b 4; at_index b 5]]
     (at_index b 6).
End dev_info.

(** [std::copy (first, first + count, dst)] into an object of [size] bytes:
    the bytes of the object afterwards.  Writing past the end of the object
    is undefined behaviour. *)
Definition std_copy (src : list Z) (count : nat) (size : nat) : M (list Z) :=
  if (count <=? size)%nat then ret (firstn count src) else undefined.

Definition EXIT_SUCCESS : Z := 0.
Definition EXIT_FAILURE : Z := 1.

(** The block [// init] of [main].  The two revisions with this block differ
    in the number of bytes they copy into [dinfo]: temper.cpp copies from
    [std::begin (dinfo_raw)] to [std::end (dinfo_raw)], the tr1 revision
    from [dinfo_raw.begin ()] to [dinfo_raw.begin () + sizeof (dev_info)]. *)
Definition main_init (copy_count : nat) (dh : handle) : M unit :=
  dinfo_raw <- read_data dh cmd_devtype;;
  dinfo_bytes <- std_copy dinfo_raw copy_count dev_info.sizeof;;
  let dinfo := dev_info.of_bytes dinfo_bytes in
  if dev_info.dev_type dinfo =? dev_type_temper1
  then send_cmd dh cmd_reset0
  else throw (runtime_error "unknwon device type").

(** The block [// read] of [main]. *)
Definition main_read (dh : handle) : M unit :=
  d <- read_data dh cmd_getdata_inner;;
  emit (cout_float (decode_float d)).

(** The declarations of [main]'s try block from [a1] on: the four guards
    and the call of [libusb_set_configuration] between them; [body] stands
    for the statements that follow the declaration of [i2]. *)
Definition main_guards {A} (d : dialect) (dh : handle) (body : handle -> M A)
    : M A :=
  with_local (usb_attach_interface.ctor dh 0) (usb_attach_interface.dtor d)
    (fun a1 =>
  with_local (usb_attach_interface.ctor dh 1) (usb_attach_interface.dtor d)
    (fun a2 =>
  (r <- call (libusb_set_configuration dh 1);; check r);;
  with_local (usb_claim_interface.ctor dh 0) (usb_claim_interface.dtor d)
    (fun i1 =>
  with_local (usb_claim_interface.ctor dh 1) (usb_claim_interface.dtor d)
    (fun i2 =>
  body dh)))).

(** All the declarations of [main]'s try block.  The device is closed when
    the last [shared_ptr] to it goes, which is [dh], declared before the
    guards that hold copies of it. *)
Definition main_scope {A} (d : dialect) (body : handle -> M A) : M A :=
  with_local usb_open (fun _ => emit libusb_exit) (fun _ =>
  with_local (usb_device_get 0x1130 0x660c) (fun dh => emit (libusb_close dh))
    (fun dh => main_guards d dh body)).

(** The handler of [main]'s function-try-block: every exception of the
    program is a [std::exception]. *)
Definition main_try_block (body : M Z) : M Z :=
  fun w hist =>
    match body w hist with
    | (Throw e, e1) => (Normal EXIT_FAILURE, e1 ++ [cerr_exception e])
    | r => r
    end.

(** The statements of [main] after the declaration of [i2]. *)
Definition main_body (copy_count : nat) (dh : handle) : M Z :=
  main_init copy_count dh;;
  main_read dh;;
  ret EXIT_SUCCESS.

Definition main_with (d : dialect) (copy_count : nat) : M Z :=
  main_try_block (main_scope d (main_body copy_count)).

(** temper.cpp: C++11, the whole of [dinfo_raw] is copied. *)
Definition main : M Z := main_with cxx11 (Z.to_nat msg256_size).

(** The tr1 revision, in either dialect. *)
Definition main_tr1 (d : dialect) : M Z := main_with d dev_info.sizeof.

(** ** The first revision: [send_data] and [recv_data] *)

Module first_revision.
(** [typedef std::tr1::array<unsigned int, 8> msg] *)
Definition msg : Type := list Z.

(** Conversion of an [unsigned int] to [unsigned char]. *)
Definition to_uchar (x : Z) : Z := x mod 256.

(** [std::copy] of the eight elements to the start of [buf], then
    [std::fill] of the rest of [buf] with zero. *)
Definition fill_buf (data : msg) : msg32 :=
  map to_uchar (firstn 8 data) ++ repeat 0 (32 - 8).

Definition send_data (dh : handle) (data : msg) : M unit :=
  r <- call (libusb_control_transfer dh 0x21 0x09 0x0200 0x0001
               (fill_buf data) 32 1000);;
  check r;;
  if negb (r =? 32)
  then throw (runtime_error ("wrong number of bytes written: " ++ decimal r))
  else ret tt.

Definition recv_data (dh : handle) : M msg256 :=
  fun w hist =>
    (r <- call (libusb_control_transfer dh 0xa1 0x01 0x0300 0x0001
                  [] 256 1000);;
     check r;;
     if r <? 2
     then throw (runtime_error ("wrong number of bytes read: " ++ decimal r))
     else ret (inbuf w hist)) w hist.

Definition select_device : msg := [10; 11; 12; 13; 0; 0; 2; 0].
Definition increase_precision : msg := [0x43; 0; 0; 0; 0; 0; 0; 0].
Definition padding : msg := [0; 0; 0; 0; 0; 0; 0; 0].
Definition get_temperature : msg := [0x54; 0; 0; 0; 0; 0; 0; 0].
Definition close_device : msg := [10; 11; 12; 13; 0; 0; 1; 0].

(** The statements of [main] between the declaration of [i2] and the
    output. *)
Definition main_protocol (dh : handle) : M msg256 :=
  send_data dh select_device;;
  send_data dh increase_precision;;
  for_loop 7 (send_data dh padding);;
  send_data dh get_temperature;;
  for_loop 7 (send_data dh padding);;
  send_data dh close_device;;
  recv_data dh.

(** [struct claim_interface], the single guard of the first revision: it
    detaches the kernel driver and claims the interface, and on destruction
    releases the interface and then reattaches the driver. *)
Record claim_interface : Type :=
  mk_claim_interface { try_attach : bool; h : handle; interface : Z }.

Definition claim_interface_ctor (h0 : handle) (interface0 : Z)
    : M claim_interface :=
  r <- call (libusb_kernel_driver_active h0 interface0);;
  check r;;
  let try_attach0 := negb (r =? 0) in
  (if try_attach0
   then (r <- call (libusb_detach_kernel_driver h0 interface0);;
         check r;; ret tt)
   else ret tt);;
  r <- call (libusb_claim_interface h0 interface0);;
  check r;;
  ret (mk_claim_interface try_attach0 h0 interface0).

Definition claim_interface_dtor (d : dialect) (g : claim_interface) : M unit :=
  destructor d
    (destructor_try_block
       (r <- call (libusb_release_interface (h g) (interface g));;
        check r;;
        if try_attach g
        then (r <- call (libusb_attach_kernel_driver (h g) (interface g));;
              check r;; ret tt)
        else ret tt)
       catches_usb_error
       (fun e => emit (cerr_destructor "~claim_interface" e))).

Definition main (d : dialect) : M Z :=
  main_try_block
    (with_local usb_open (fun _ => emit libusb_exit) (fun _ =>
     with_local (usb_device_get 0x1130 0x660c)
       (fun dh => emit (libusb_close dh)) (fun dh =>
     (r <- call (libusb_set_configuration dh 1);; check r);;
     with_local (claim_interface_ctor dh 0) (claim_interface_dtor d) (fun i1 =>
     with_local (claim_interface_ctor dh 1) (claim_interface_dtor d) (fun i2 =>
     d <- main_protocol dh;;
     emit (cout_float (decode_double d));;
     ret EXIT_SUCCESS))))).
End first_revision.

(** ** Vocabulary of the statements *)

(** The outbound transfer of one 32-byte report, and the inbound transfer of
    one 256-byte report, as [usb_send] and [usb_recv] issue them. *)
Definition out_transfer (dh : handle) (data : msg32) : event :=
  libusb_control_transfer dh 0x21 0x09 0x0200 0x0001 data 32 1000.
Definition in_transfer (dh : handle) : event :=
  libusb_control_transfer dh 0xa1 0x01 0x0300 0x0001 [] 256 1000.

Definition select_message : msg32 := [10; 11; 12; 13; 0; 0; 2; 0] ++ repeat 0 24.
Definition command_message (op : Z) : msg32 := op :: repeat 0 31.
Definition padding_message : msg32 := repeat 0 32.
Definition read_request_message : msg32 :=
  [10; 11; 12; 13; 0; 0; 1; 0] ++ repeat 0 24.

(** What [send_cmd] and [read_data] emit when no transfer fails. *)
Definition send_cmd_trace (dh : handle) (op : Z) : list event :=
  [out_transfer dh select_message; out_transfer dh (command_message op)]
  ++ repeat (out_transfer dh padding_message) 7.
Definition read_data_trace (dh : handle) (op : Z) : list event :=
  send_cmd_trace dh op
  ++ [out_transfer dh read_request_message; in_transfer dh].

(** The data of an outbound control transfer (bit 7 of the request type is
    clear). *)
Definition outbound (ev : event) : option (list Z) :=
  match ev with
  | libusb_control_transfer _ rt _ _ _ data _ _ =>
      if Z.testbit rt 7 then None else Some data
  | _ => None
  end.

Definition is_in_transfer (ev : event) : bool :=
  match ev with
  | libusb_control_transfer _ rt _ _ _ _ _ _ => Z.testbit rt 7
  | _ => false
  end.

(** A 32-byte message whose bytes from position [prefix] on are zero. *)
Definition zero_padded (prefix : nat) (data : list Z) : Prop :=
  List.length data = 32%nat /\ skipn prefix data = repeat 0 (32 - prefix).

(** An outbound message of the protocol: a framing message (8 significant
    bytes), the command message for [op] (1 significant byte), or a padding
    message (none). *)
Definition protocol_message (op : Z) (data : list Z) : Prop :=
  (firstn 8 data = [10; 11; 12; 13; 0; 0; 2; 0] /\ zero_padded 8 data)
  \/ (firstn 8 data = [10; 11; 12; 13; 0; 0; 1; 0] /\ zero_padded 8 data)
  \/ (firstn 1 data = [op] /\ zero_padded 1 data)
  \/ zero_padded 0 data.

Definition outbound_ok (P : list Z -> Prop) (ev : event) : Prop :=
  match outbound ev with
  | Some data => P data
  | None => True
  end.

(** Every event a computation emits satisfies [P], whatever the host
    answers. *)
Definition emits {A} (P : event -> Prop) (m : M A) : Prop :=
  forall w hist, Forall P (events_of m w hist).

Definition is_guard_event (ev : event) : bool :=
  match ev with
  | libusb_kernel_driver_active _ _ => true
  | libusb_detach_kernel_driver _ _ => true
  | libusb_attach_kernel_driver _ _ => true
  | libusb_claim_interface _ _ => true
  | libusb_release_interface _ _ => true
  | _ => false
  end.

Definition is_release_of (interface : Z) (ev : event) : bool :=
  match ev with
  | libusb_release_interface _ i => i =? interface
  | _ => false
  end.

Definition is_attach_of (interface : Z) (ev : event) : bool :=
  match ev with
  | libusb_attach_kernel_driver _ i => i =? interface
  | _ => false
  end.

(** A sequence of [usb_send] calls, one per message. *)
Fixpoint send_each (dh : handle) (msgs : list msg32) : M unit :=
  match msgs with
  | [] => ret tt
  | m :: msgs' => usb_send dh m;; send_each dh msgs'
  end.

(** A byte, and a well-formed 256-byte report. *)
Definition is_byte (b : Z) : bool := (0 <=? b) && (b <? 256).
Definition well_formed_report (r : msg256) : Prop :=
  List.length r = 256%nat /\ forallb is_byte r = true.

(** [r[0] + r[1]/256] as a rational number. *)
Definition exact_temperature (r0 r1 : Z) : Q :=
  (inject_Z r0 + inject_Z r1 / 256)%Q.

(** The floating-point value [f] stands for the rational number [q]. *)
Definition has_value (f : spec_float) (q : Q) : bool :=
  match SF2Q_exact f with
  | Some v => Qeq_bool v q
  | None => false
  end.

Definition all_bytes : list Z := map Z.of_nat (seq 0 256).

(** Every byte [b] with the quotient [b / 256] in a floating-point format. *)
Definition quotients (prec emax : Z) : list (Z * spec_float) :=
  map (fun b => (b, SFdiv prec emax (of_int prec emax b) (of_int prec emax 256)))
    all_bytes.

(** In the format given, the sum of each byte and each quotient is exact. *)
Definition sums_exact (prec emax : Z) : bool :=
  let qs := quotients prec emax in
  forallb
    (fun a =>
       let fa := of_int prec emax a in
       forallb
         (fun bq => has_value (SFadd prec emax fa (snd bq))
                      (exact_temperature a (fst bq)))
         qs)
    all_bytes.

(** What the guards of [main] emit while they are constructed and while
    they are destroyed, when no call fails; [was0] and [was1] tell whether
    the kernel driver was bound to interface 0 and to interface 1. *)
Definition acquisition_trace (dh : handle) (was0 was1 : bool) : list event :=
  [libusb_kernel_driver_active dh 0]
  ++ (if was0 then [libusb_detach_kernel_driver dh 0] else [])
  ++ [libusb_kernel_driver_active dh 1]
  ++ (if was1 then [libusb_detach_kernel_driver dh 1] else [])
  ++ [libusb_set_configuration dh 1;
      libusb_claim_interface dh 0; libusb_claim_interface dh 1].
Definition teardown_trace (dh : handle) (was0 was1 : bool) : list event :=
  [libusb_release_interface dh 1; libusb_release_interface dh 0]
  ++ (if was1 then [libusb_attach_kernel_driver dh 1] else [])
  ++ (if was0 then [libusb_attach_kernel_driver dh 0] else []).

(** The host lets the guards of [main] be constructed. *)
Definition acquires (w : host) (dh : handle) (was0 was1 : bool) : Prop :=
  (forall tr, respond w tr (libusb_kernel_driver_active dh 0)
              = if was0 then 1 else 0)
  /\ (forall tr, respond w tr (libusb_kernel_driver_active dh 1)
                 = if was1 then 1 else 0)
  /\ (forall tr i, 0 <= respond w tr (libusb_detach_kernel_driver dh i))
  /\ (forall tr, 0 <= respond w tr (libusb_set_configuration dh 1))
  /\ (forall tr i, 0 <= respond w tr (libusb_claim_interface dh i)).

(** The body of a scope ends by returning or by throwing. *)
Definition leaves_scope {A} (o : outcome A) : bool :=
  match o with
  | Normal _ | Throw _ => true
  | Terminate | Undefined => false
  end.

(** The device type in the first two bytes of a report, low byte first. *)
Definition reported_type (raw : msg256) : Z :=
  Z.lor (at_index raw 0) (Z.shiftl (at_index raw 1) 8).

(** The events before the inbound transfer of [read_data]. *)
Definition request_trace (dh : handle) (op : Z) : list event :=
  send_cmd_trace dh op ++ [out_transfer dh read_request_message].

(** The host accepts every outbound message and completes every inbound
    transfer. *)
Definition transfers_complete (w : host) (dh : handle) : Prop :=
  (forall tr data, respond w tr (out_transfer dh data) = 32)
  /\ (forall tr, 256 <= respond w tr (in_transfer dh)).

(** Every release and reattachment succeeds. *)
Definition releases (w : host) (dh : handle) : Prop :=
  (forall tr i, 0 <= respond w tr (libusb_release_interface dh i))
  /\ (forall tr i, 0 <= respond w tr (libusb_attach_kernel_driver dh i)).

(** Two outcomes of the same kind, with results related by [R]. *)
Definition related_outcome {A} (R : A -> A -> Prop) (o1 o2 : outcome A) : Prop :=
  match o1, o2 with
  | Normal a1, Normal a2 => R a1 a2
  | Throw x1, Throw x2 => x1 = x2
  | Terminate, Terminate => True
  | Undefined, Undefined => True
  | _, _ => False
  end.

(** Two computations that, on the hosts [w1] and [w2], emit the same events
    and end in related outcomes, from every history. *)
Definition related {A} (w1 w2 : host) (R : A -> A -> Prop) (m1 m2 : M A) : Prop :=
  forall hist,
    snd (m1 w1 hist) = snd (m2 w2 hist)
    /\ related_outcome R (fst (m1 w1 hist)) (fst (m2 w2 hist)).

(** Two hosts that answer every call alike and enumerate the same devices. *)
Definition same_answers (w1 w2 : host) : Prop :=
  (forall tr ev, respond w1 tr ev = respond w2 tr ev)
  /\ (forall i, descriptors w1 i = descriptors w2 i).

(** Two reports with the same first two bytes. *)
Definition same_prefix (r1 r2 : msg256) : Prop :=
  at_index r1 0 = at_index r2 0 /\ at_index r1 1 = at_index r2 1.

(** ** Hosts used as concrete inputs *)

Definition pad_to (n : nat) (l : list Z) : list Z :=
  l ++ repeat 0 (n - List.length l).

(** Two devices are attached, the second is the thermometer; the kernel
    driver is bound to both interfaces; every call succeeds and every
    transfer is complete.  The first inbound report starts with [type0],
    [type1], the later ones with 0x14, 0x80. *)
Definition plugged_host (type0 type1 : Z) : host :=
  {| respond := fun hist ev =>
       match ev with
       | libusb_get_device_list => 2
       | libusb_kernel_driver_active _ _ => 1
       | libusb_control_transfer _ _ _ _ _ _ wLength _ => wLength
       | _ => 0
       end;
     inbuf := fun hist =>
       if existsb is_in_transfer hist
       then pad_to 256 [0x14; 0x80]
       else pad_to 256 [type0; type1; 1; 2; 3; 4; 0x53];
     descriptors := fun i =>
       match i with
       | 1%nat => {| idVendor := 0x1130; idProduct := 0x660c |}
       | _ => {| idVendor := 0x1d6b; idProduct := 0x0002 |}
       end |}.

(** LIBUSB_ERROR_NO_DEVICE *)
Definition LIBUSB_ERROR_NO_DEVICE : Z := -4.

(** As [plugged_host 0x57 0x58], but the thermometer is pulled out once both
    interfaces are claimed: from then on every control transfer and every
    release or reattachment fails with LIBUSB_ERROR_NO_DEVICE. *)
Definition unplugged_host : host :=
  {| respond := fun hist ev =>
       match ev with
       | libusb_get_device_list => 2
       | libusb_kernel_driver_active _ _ => 1
       | libusb_control_transfer _ _ _ _ _ _ _ _ => LIBUSB_ERROR_NO_DEVICE
       | libusb_release_interface _ _ => LIBUSB_ERROR_NO_DEVICE
       | libusb_attach_kernel_driver _ _ => LIBUSB_ERROR_NO_DEVICE
       | _ => 0
       end;
     inbuf := fun _ => pad_to 256 [];
     descriptors := descriptors (plugged_host 0x57 0x58) |}.

(** As [plugged_host], but only the release of interface 1 fails. *)
Definition busy_release_host (type0 type1 : Z) : host :=
  {| respond := fun hist ev =>
       match ev with
       | libusb_release_interface _ 1 => LIBUSB_ERROR_NO_DEVICE
       | _ => respond (plugged_host type0 type1) hist ev
       end;
     inbuf := inbuf (plugged_host type0 type1);
     descriptors := descriptors (plugged_host type0 type1) |}.

(** As [plugged_host], but inbound transfers leave [n] bytes only. *)
Definition short_read_host (n : Z) : host :=
  {| respond := fun hist ev =>
       if is_in_transfer ev then n
       else respond (plugged_host 0x57 0x58) hist ev;
     inbuf := inbuf (plugged_host 0x57 0x58);
     descriptors := descriptors (plugged_host 0x57 0x58) |}.

(** What [main] emits on [plugged_host] before the guards: the context is
    opened and the second of the two devices is. *)
Definition locate_trace : list event :=
  [libusb_init; libusb_get_device_list; libusb_get_device_descriptor 0;
   libusb_get_device_descriptor 1; libusb_open 1; libusb_free_device_list].

(** As [plugged_host], but both devices are thermometers and the first one
    cannot be opened: [libusb_open] answers LIBUSB_ERROR_ACCESS. *)
Definition LIBUSB_ERROR_ACCESS : Z := -3.
Definition locked_host : host :=
  {| respond := fun hist ev =>
       match ev with
       | libusb_open O => LIBUSB_ERROR_ACCESS
       | _ => respond (plugged_host 0x57 0x58) hist ev
       end;
     inbuf := inbuf (plugged_host 0x57 0x58);
     descriptors := fun _ => {| idVendor := 0x1130; idProduct := 0x660c |} |}.

(** As [plugged_host], but the descriptor of the first device cannot be
    read, and the enumeration itself fails when [listing] is negative. *)
Definition LIBUSB_ERROR_IO : Z := -1.
Definition LIBUSB_ERROR_NO_MEM : Z := -11.
Definition unreadable_host (listing : Z) : host :=
  {| respond := fun hist ev =>
       match ev with
       | libusb_get_device_list => listing
       | libusb_get_device_descriptor O => LIBUSB_ERROR_IO
       | _ => respond (plugged_host 0x57 0x58) hist ev
       end;
     inbuf := inbuf (plugged_host 0x57 0x58);
     descriptors := descriptors (plugged_host 0x57 0x58) |}.

(** As [plugged_host], but interface 1 is claimed by another program:
    [libusb_claim_interface] answers LIBUSB_ERROR_BUSY for it. *)
Definition LIBUSB_ERROR_BUSY : Z := -6.
Definition claimed_host : host :=
  {| respond := fun hist ev =>
       match ev with
       | libusb_claim_interface _ 1 => LIBUSB_ERROR_BUSY
       | _ => respond (plugged_host 0x57 0x58) hist ev
       end;
     inbuf := inbuf (plugged_host 0x57 0x58);
     descriptors := descriptors (plugged_host 0x57 0x58) |}.

(** As [plugged_host 0x57 0x58], with other bytes behind the first two of
    each report. *)
Definition noisy_host : host :=
  {| respond := respond (plugged_host 0x57 0x58);
     inbuf := fun hist =>
       if existsb is_in_transfer hist
       then pad_to 256 [0x14; 0x80; 0xff; 0xee; 0xdd]
       else pad_to 256 [0x57; 0x58; 9; 8; 7; 6; 0x00; 5; 4];
     descriptors := descriptors (plugged_host 0x57 0x58) |}.

(** ** Vocabulary of the further properties *)

(** The exception [usb_send] throws when the transfer answers [r]. *)
Definition send_failure (r : Z) (e : exn) : Prop :=
  (r < 0 /\ e = usb_error r)
  \/ (0 <= r /\ r <> 32
      /\ e = runtime_error ("wrong number of bytes written: " ++ decimal r)).

(** The exception [usb_recv] throws when the transfer answers [r], for a
    buffer of which at least [least] bytes must be filled. *)
Definition recv_failure (least r : Z) (e : exn) : Prop :=
  (r < 0 /\ e = usb_error r)
  \/ (0 <= r < least
      /\ e = runtime_error ("wrong number of bytes read: " ++ decimal r)).

(** The host accepts each of the messages [msgs], sent one after the other
    from the history [hist] on. *)
Fixpoint accepts_each (w : host) (dh : handle) (hist : list event)
    (msgs : list msg32) : Prop :=
  match msgs with
  | [] => True
  | m :: msgs' =>
      respond w hist (out_transfer dh m) = 32
      /\ accepts_each w dh (hist ++ [out_transfer dh m]) msgs'
  end.

(** The outbound messages of [read_data], and of the first revision's
    [main]. *)
Definition read_data_messages (op : Z) : list msg32 :=
  [select_message; command_message op] ++ repeat padding_message 7
  ++ [read_request_message].
Definition main_protocol_messages : list msg32 :=
  [select_message; command_message 0x43] ++ repeat padding_message 7
  ++ [command_message 0x54] ++ repeat padding_message 7
  ++ [read_request_message].
Definition main_protocol_trace (dh : handle) : list event :=
  map (out_transfer dh) main_protocol_messages ++ [in_transfer dh].

(** The messages [msgs] sent one after the other, and then [k]. *)
Fixpoint send_then {A} (dh : handle) (msgs : list msg32) (k : M A) : M A :=
  match msgs with
  | [] => k
  | m :: msgs' => usb_send dh m;; send_then dh msgs' k
  end.

(** The output of [main]: a temperature on [std::cout], and the diagnostic
    of its handler on [std::cerr]. *)
Definition is_cout (ev : event) : bool :=
  match ev with
  | cout_float _ => true
  | _ => false
  end.
Definition is_cerr_exception (ev : event) : bool :=
  match ev with
  | cerr_exception _ => true
  | _ => false
  end.
Definition quiet (ev : event) : Prop :=
  is_cout ev || is_cerr_exception ev = false.

(** The number of temperatures written. *)
Definition readings (evs : list event) : nat :=
  List.length (filter is_cout evs).

(** What the statements of a session have written when they end with the
    outcome [o]: a temperature when they return, which they do with
    EXIT_SUCCESS only; at most one otherwise, and none when they throw in
    C++11. *)
Definition scope_verdict (d : dialect) (r : outcome Z * list event) : Prop :=
  Forall (fun ev => is_cerr_exception ev = false) (snd r)
  /\ match fst r with
     | Normal s => s = EXIT_SUCCESS /\ readings (snd r) = 1%nat
     | Throw _ =>
         (readings (snd r) <= 1)%nat
         /\ (d = cxx11 -> readings (snd r) = 0%nat)
     | _ => (readings (snd r) <= 1)%nat
     end.

(** The same for [main] as a whole, whose handler turns every exception
    into EXIT_FAILURE after one diagnostic. *)
Definition session_verdict (d : dialect) (r : outcome Z * list event) : Prop :=
  match r with
  | (Normal s, evs) =>
      (s = EXIT_SUCCESS
       /\ readings evs = 1%nat
       /\ Forall (fun ev => is_cerr_exception ev = false) evs)
      \/ (s = EXIT_FAILURE
          /\ exists e evs',
               evs = evs' ++ [cerr_exception e]
               /\ Forall (fun ev => is_cerr_exception ev = false) evs'
               /\ (readings evs <= 1)%nat
               /\ (d = cxx11 -> readings evs = 0%nat))
  | (Throw _, _) => False
  | (_, evs) =>
      Forall (fun ev => is_cerr_exception ev = false) evs
      /\ (readings evs <= 1)%nat
  end.

(** A destructor that lets an exception out does so in C++03 only. *)
Definition throws_in_cxx03_only {G} (d : dialect) (dtor : G -> M unit) : Prop :=
  forall g w hist e, fst (dtor g w hist) = Throw e -> d = cxx03.

(** The calls on the opened device, by what they do: a control transfer;
    a claim or a release of an interface; a query, a detachment or a
    reattachment of the kernel driver; and the rest, with the diagnostics of
    the guards. *)
Definition is_transfer (ev : event) : bool :=
  match ev with
  | libusb_control_transfer _ _ _ _ _ _ _ _ => true
  | _ => false
  end.
Definition is_claiming (ev : event) : bool :=
  match ev with
  | libusb_claim_interface _ _ => true
  | libusb_release_interface _ _ => true
  | _ => false
  end.
Definition is_driver_call (ev : event) : bool :=
  match ev with
  | libusb_kernel_driver_active _ _ => true
  | libusb_detach_kernel_driver _ _ => true
  | libusb_attach_kernel_driver _ _ => true
  | _ => false
  end.
Definition is_housekeeping (ev : event) : bool :=
  match ev with
  | libusb_set_configuration _ _ => true
  | cerr_destructor _ _ => true
  | _ => false
  end.
Definition is_device_event (ev : event) : bool :=
  is_transfer ev || is_claiming ev || is_driver_call ev || is_housekeeping ev.

(** What the guarded statements of [main] emit: events on the device, and
    the temperature. *)
Definition is_session_event (ev : event) : bool :=
  is_device_event ev || is_cout ev.

(** The two calls that give up what [main] holds. *)
Definition is_shutdown (ev : event) : bool :=
  match ev with
  | libusb_exit | libusb_close _ => true
  | _ => false
  end.

(** The shape of a session that started at [hist] and ended as [r]: the
    context is created first; the locator runs next; the statements on the
    device it returned are followed by [libusb_close] for that device; and
    [libusb_exit] comes last, before the diagnostic of [main]'s handler if
    there is one. *)
Definition scope_bracket (w : host) (hist : list event)
    (r : outcome Z * list event) : Prop :=
  let i := respond w hist libusb_init in
  let located := usb_device_get 0x1130 0x660c w (hist ++ [libusb_init]) in
  match r with
  | (Normal s, evs) =>
      if i <? 0
      then s = EXIT_FAILURE
           /\ evs = [libusb_init; cerr_exception (usb_error i)]
      else
        exists held diag,
          evs = libusb_init :: snd located ++ held ++ libusb_exit :: diag
          /\ (diag = []
              \/ (s = EXIT_FAILURE /\ exists e, diag = [cerr_exception e]))
          /\ match fst located with
             | Normal dh =>
                 exists used,
                   held = used ++ [libusb_close dh]
                   /\ Forall (fun ev => is_session_event ev = true) used
             | _ => held = []
             end
  | (Throw _, _) => False
  | (_, evs) => 0 <= i /\ Forall (fun ev => is_shutdown ev = false) evs
  end.

(** ** [usb_error::what] of the first and of the tr1 revision *)

(** [enum libusb_error], the enumerators not yet named above. *)
Definition LIBUSB_SUCCESS : Z := 0.
Definition LIBUSB_ERROR_INVALID_PARAM : Z := -2.
Definition LIBUSB_ERROR_NOT_FOUND : Z := -5.
Definition LIBUSB_ERROR_TIMEOUT : Z := -7.
Definition LIBUSB_ERROR_OVERFLOW : Z := -8.
Definition LIBUSB_ERROR_PIPE : Z := -9.
Definition LIBUSB_ERROR_INTERRUPTED : Z := -10.
Definition LIBUSB_ERROR_NOT_SUPPORTED : Z := -12.
Definition LIBUSB_ERROR_OTHER : Z := -99.

(** The value of a [const char*]: a string literal, or a pointer into the
    buffer of a [std::string] that has been destroyed, which held [was]. *)
Inductive c_str : Type :=
| literal (s : string)
| dangling (was : string).

(** The [switch] over the enumerators, and after it the characters of the
    temporary [ss.str ()], which is destroyed when the [return] statement
    has been evaluated. *)
Definition what (e : Z) : c_str :=
  if e =? LIBUSB_SUCCESS then literal "Success (no error)"
  else if e =? LIBUSB_ERROR_IO then literal "Input/output error"
  else if e =? LIBUSB_ERROR_INVALID_PARAM then literal "Invalid parameter"
  else if e =? LIBUSB_ERROR_ACCESS then literal "Access denied"
  else if e =? LIBUSB_ERROR_NO_DEVICE then literal "No such device"
  else if e =? LIBUSB_ERROR_NOT_FOUND then literal "Entity not found"
  else if e =? LIBUSB_ERROR_BUSY then literal "Resource busy"
  else if e =? LIBUSB_ERROR_TIMEOUT then literal "Operation timed out"
  else if e =? LIBUSB_ERROR_PIPE then literal "Pipe error"
  else if e =? LIBUSB_ERROR_INTERRUPTED then literal "System call interrupted"
  else if e =? LIBUSB_ERROR_NO_MEM then literal "Insufficient memory"
  else if e =? LIBUSB_ERROR_NOT_SUPPORTED then literal "Operation not supported"
  else if e =? LIBUSB_ERROR_OTHER then literal "Other error"
  else if e =? LIBUSB_ERROR_OVERFLOW then literal "Overflow"
  else dangling (decimal e).
(** ** Typestates of a session *)

(** The outcomes after which every object of a scope has been destroyed
    without a failure: a normal return; and, where [T] holds, an
    exception.  In C++11 an exception from a destructor ends in
    [std::terminate], so that an exception that leaves a scope tells that
    no destructor failed; in C++03 it does not. *)
Definition clean {A} (T : Prop) (o : outcome A) : Prop :=
  match o with
  | Normal _ => True
  | Throw _ => T
  | _ => False
  end.

(** A monitor: a state, and what one event, answered with [r], does to
    it; [None] when the event is not allowed in the state. *)
Section Monitor.
Variable S : Type.
Variable step : Z -> event -> S -> option S.

(** The events [evs], emitted after [hist], from the state [s] on. *)
Fixpoint run (w : host) (hist evs : list event) (s : S) : option S :=
  match evs with
  | [] => Some s
  | ev :: evs' =>
      match step (respond w hist ev) ev s with
      | Some s' => run w (hist ++ [ev]) evs' s'
      | None => None
      end
  end.

(** The event is allowed in the state and leaves it as it is. *)
Definition stable (s : S) (ev : event) : Prop :=
  forall r, step r ev s = Some s.

(** From the state [pre] the events of [m] are allowed one after the
    other; they end in a state that satisfies [Inv], and [Q] when the
    outcome is clean. *)
Definition scoped {A} (T : Prop) (pre : S) (Inv Q : S -> Prop) (m : M A)
    : Prop :=
  forall w hist,
  exists st,
    run w hist (snd (m w hist)) pre = Some st
    /\ Inv st
    /\ (clean T (fst (m w hist)) -> Q st).

(** A whole session of [main]: its events are allowed from [pre] on, and
    they end in a state that satisfies [Q] when [main] returns
    EXIT_SUCCESS, or returns at all where [T] holds. *)
Definition session (T : Prop) (pre : S) (Q : S -> Prop) (w : host)
    (hist : list event) (r : outcome Z * list event) : Prop :=
  exists st,
    run w hist (snd r) pre = Some st
    /\ forall s, fst r = Normal s -> T \/ s = EXIT_SUCCESS -> Q st.
End Monitor.
Arguments run {S} step w hist evs s.
Arguments stable {S} step s ev.
Arguments scoped {S} step {A} T pre Inv Q m.
Arguments session {S} step T pre Q w hist r.

(** *** The interfaces a session holds *)

(** Which of the interfaces 0 and 1 are claimed. *)
Definition claims : Type := (bool * bool)%type.

(** A control transfer needs both interfaces; an interface is claimed only
    when it is not held, and is held from then on when the call succeeds;
    it is released only when it is held, and is no longer held when the
    call succeeds; no other interface is claimed or released. *)
Definition step_claims (r : Z) (ev : event) (s : claims) : option claims :=
  match ev with
  | libusb_control_transfer _ _ _ _ _ _ _ _ =>
      if fst s && snd s then Some s else None
  | libusb_claim_interface _ i =>
      if i =? 0
      then if fst s then None
           else Some (if r <? 0 then s else (true, snd s))
      else if i =? 1
      then if snd s then None
           else Some (if r <? 0 then s else (fst s, true))
      else None
  | libusb_release_interface _ i =>
      if i =? 0
      then if fst s then Some (if r <? 0 then s else (false, snd s))
           else None
      else if i =? 1
      then if snd s then Some (if r <? 0 then s else (fst s, false))
           else None
      else None
  | _ => Some s
  end.

(** *** The kernel drivers of the two interfaces *)

(** What a session knows of the kernel driver of an interface: nothing
    yet; that none is bound; that one is bound; that the one that was
    bound has been detached. *)
Inductive driver : Type := idle | absent | bound | detached.
Definition drivers : Type := (driver * driver)%type.

Definition out_of_the_way (x : driver) : bool :=
  match x with
  | absent | detached => true
  | idle | bound => false
  end.

Definition is_detached (x : driver) : bool :=
  match x with
  | detached => true
  | _ => false
  end.

Definition of_interface (i : Z) (s : drivers) : option driver :=
  if i =? 0 then Some (fst s)
  else if i =? 1 then Some (snd s)
  else None.

Definition set_interface (i : Z) (x : driver) (s : drivers) : drivers :=
  if i =? 0 then (x, snd s) else (fst s, x).

(** The driver of an interface is asked for once; it is detached only
    when it is known to be bound, and reattached only when it has been
    detached; an interface is claimed, and a control transfer issued, only
    when no driver is in the way. *)
Definition step_drivers (r : Z) (ev : event) (s : drivers) : option drivers :=
  match ev with
  | libusb_kernel_driver_active _ i =>
      match of_interface i s with
      | Some idle =>
          Some (if r <? 0 then s
                else if r =? 0 then set_interface i absent s
                else set_interface i bound s)
      | _ => None
      end
  | libusb_detach_kernel_driver _ i =>
      match of_interface i s with
      | Some bound => Some (if r <? 0 then s else set_interface i detached s)
      | _ => None
      end
  | libusb_attach_kernel_driver _ i =>
      match of_interface i s with
      | Some detached => Some (if r <? 0 then s else set_interface i bound s)
      | _ => None
      end
  | libusb_claim_interface _ i =>
      match of_interface i s with
      | Some x => if out_of_the_way x then Some s else None
      | None => None
      end
  | libusb_control_transfer _ _ _ _ _ _ _ _ =>
      if out_of_the_way (fst s) && out_of_the_way (snd s)
      then Some s else None
  | _ => Some s
  end.

(** A driver that the session detached is still detached. *)
Definition left_detached (s : drivers) : bool :=
  is_detached (fst s) || is_detached (snd s).

(** What a guard knows of the driver once it is constructed. *)
Definition known (was_attached : bool) : driver :=
  if was_attached then detached else absent.

(** * Properties *)

(** ** Transport *)

Lemma usb_send_run (dh : handle) (data : msg32) (w : host) (hist : list event) :
  usb_send dh data w hist =
  (let r := respond w hist (out_transfer dh data) in
   if r <? 0 then Throw (usb_error r)
   else if r =? 32 then Normal tt
   else Throw (runtime_error ("wrong number of bytes written: " ++ decimal r)),
   [out_transfer dh data]).
Proof.
  unfold usb_send, bind, call, check, throw, ret, out_transfer; cbn.
  destruct (respond w hist _ <? 0); cbn; [reflexivity|].
  unfold msg32_size.
  destruct (respond w hist _ =? 32); reflexivity.
Qed.

Lemma usb_recv_run (dh : handle) (w : host) (hist : list event) :
  usb_recv dh w hist =
  (let r := respond w hist (in_transfer dh) in
   if r <? 0 then Throw (usb_error r)
   else if r <? 256
   then Throw (runtime_error ("wrong number of bytes read: " ++ decimal r))
   else Normal (inbuf w hist),
   [in_transfer dh]).
Proof.
  unfold usb_recv, bind, call, check, throw, ret, in_transfer; cbn.
  destruct (respond w hist _ <? 0); cbn; [reflexivity|].
  unfold msg256_size.
  destruct (respond w hist _ <? 256); reflexivity.
Qed.

Lemma send_data_run (dh : handle) (data : first_revision.msg) (w : host)
    (hist : list event) :
  first_revision.send_data dh data w hist =
  usb_send dh (first_revision.fill_buf data) w hist.
Proof.
  rewrite usb_send_run.
  unfold first_revision.send_data, bind, call, check, throw, ret, out_transfer; cbn.
  destruct (respond w hist _ <? 0); cbn; [reflexivity|].
  destruct (respond w hist _ =? 32); reflexivity.
Qed.

Lemma recv_data_run (dh : handle) (w : host) (hist : list event) :
  first_revision.recv_data dh w hist =
  (let r := respond w hist (in_transfer dh) in
   if r <? 0 then Throw (usb_error r)
   else if r <? 2
   then Throw (runtime_error ("wrong number of bytes read: " ++ decimal r))
   else Normal (inbuf w hist),
   [in_transfer dh]).
Proof.
  unfold first_revision.recv_data, bind, call, check, throw, ret, in_transfer; cbn.
  destruct (respond w hist _ <? 0); cbn; [reflexivity|].
  destruct (respond w hist _ <? 2); reflexivity.
Qed.

(** C8. [usb_send] (and [send_data] of the first revision) issues exactly one
    control transfer and never a second one; it returns normally exactly
    when 32 bytes were transferred, throws [usb_error] exactly when the
    transfer reports an error, and throws the "wrong number of bytes
    written" [runtime_error] exactly when the transfer succeeded with a
    count other than 32. *)
Theorem usb_send_fails_exactly_on_error_or_short_write :
  forall (dh : handle) (data : msg32) (w : host) (hist : list event),
    let r := respond w hist (out_transfer dh data) in
    let short_write :=
      runtime_error ("wrong number of bytes written: " ++ decimal r) in
    events_of (usb_send dh data) w hist = [out_transfer dh data]
    /\ (outcome_of (usb_send dh data) w hist = Normal tt <-> r = 32)
    /\ (outcome_of (usb_send dh data) w hist = Throw (usb_error r) <-> r < 0)
    /\ (outcome_of (usb_send dh data) w hist = Throw short_write
        <-> 0 <= r /\ r <> 32)
    /\ first_revision.send_data dh data w hist
       = usb_send dh (first_revision.fill_buf data) w hist.
Proof.
  intros dh data w hist r short_write.
  unfold outcome_of, events_of. rewrite usb_send_run. fold r. cbn [fst snd].
  split; [reflexivity|].
  destruct (Z.ltb_spec r 0) as [Hneg|Hpos];
    [|destruct (Z.eqb_spec r 32) as [H32|H32]].
  all: repeat split; intros; try discriminate; try lia; try reflexivity;
    try apply send_data_run.
Qed.

(** ** Command protocol *)

Lemma send_cmd_is_send_each (dh : handle) (op : Z) :
  send_cmd dh op
  = send_each dh ([select_message; command_message op] ++ repeat padding_message 7).
Proof. reflexivity. Qed.

Lemma send_each_events (dh : handle) (msgs : list msg32) (w : host) :
  forall hist,
  exists k,
    events_of (send_each dh msgs) w hist = map (out_transfer dh) (firstn k msgs)
    /\ (outcome_of (send_each dh msgs) w hist = Normal tt ->
        events_of (send_each dh msgs) w hist = map (out_transfer dh) msgs).
Proof.
  induction msgs as [|m msgs IH]; intros hist.
  - exists 0%nat. split; reflexivity.
  - unfold outcome_of, events_of in *. cbn [send_each]. unfold bind.
    rewrite usb_send_run. cbv zeta.
    destruct (respond w hist (out_transfer dh m) <? 0).
    { exists 1%nat. split; [reflexivity | discriminate]. }
    destruct (respond w hist (out_transfer dh m) =? 32).
    2:{ exists 1%nat. split; [reflexivity | discriminate]. }
    destruct (IH (hist ++ [out_transfer dh m])) as [k [Hk Hfull]].
    destruct (send_each dh msgs w (hist ++ [out_transfer dh m])) as [o e2].
    cbn [fst snd] in *. exists (S k). split.
    + cbn. now rewrite Hk.
    + intros Ho. cbn. now rewrite Hfull.
Qed.

Lemma send_each_accepted (dh : handle) (msgs : list msg32) (w : host) :
  (forall tr data, respond w tr (out_transfer dh data) = 32) ->
  forall hist,
    send_each dh msgs w hist = (Normal tt, map (out_transfer dh) msgs).
Proof.
  intros Hok. induction msgs as [|m msgs IH]; intros hist.
  - reflexivity.
  - cbn [send_each]. unfold bind. rewrite usb_send_run, Hok. cbn.
    now rewrite IH.
Qed.

(** Finds the length of an initial part of a concrete list. *)
Ltac prefix_length :=
  first [ exists 0%nat; reflexivity | exists 1%nat; reflexivity
        | exists 2%nat; reflexivity | exists 3%nat; reflexivity
        | exists 4%nat; reflexivity | exists 5%nat; reflexivity
        | exists 6%nat; reflexivity | exists 7%nat; reflexivity
        | exists 8%nat; reflexivity | exists 9%nat; reflexivity
        | exists 10%nat; reflexivity | exists 11%nat; reflexivity ].

Lemma read_data_run (dh : handle) (op : Z) (w : host) (hist : list event) :
  read_data dh op w hist =
  match send_each dh ([select_message; command_message op]
                      ++ repeat padding_message 7) w hist with
  | (Normal _, e1) =>
      match usb_send dh read_request_message w (hist ++ e1) with
      | (Normal _, e2) =>
          match usb_recv dh w (hist ++ e1 ++ e2) with
          | (o, e3) => (o, e1 ++ e2 ++ e3)
          end
      | (Throw e, e2) => (Throw e, e1 ++ e2)
      | (Terminate, e2) => (Terminate, e1 ++ e2)
      | (Undefined, e2) => (Undefined, e1 ++ e2)
      end
  | (Throw e, e1) => (Throw e, e1)
  | (Terminate, e1) => (Terminate, e1)
  | (Undefined, e1) => (Undefined, e1)
  end.
Proof.
  unfold read_data. rewrite send_cmd_is_send_each. unfold bind at 1.
  destruct (send_each dh _ w hist) as [[u| | |] e1]; try reflexivity.
  unfold bind.
  change (msg32_init [10; 11; 12; 13; 0; 0; 1; 0]) with read_request_message.
  destruct (usb_send dh read_request_message w (hist ++ e1)) as [[u'| | |] e2];
    try reflexivity.
  rewrite <- app_assoc.
  destruct (usb_recv dh w (hist ++ e1 ++ e2)) as [o e3]. reflexivity.
Qed.

(** C1. Whatever the opcode and whatever the host answers, the transfers
    [read_data] issues are an initial part of one fixed sequence: the
    select-device framing message, the command message (first byte the
    opcode, the rest zero), seven all-zero padding messages, the
    read-request framing message, and one inbound read.  When the host
    accepts the outbound messages the sequence is issued in full; and an
    inbound read is only ever issued as the eleventh transfer, after the ten
    outbound messages. *)
Theorem read_data_emits_ten_messages_then_one_read :
  forall (dh : handle) (op : Z) (w : host) (hist : list event),
    read_data_trace dh op
    = [out_transfer dh ([10; 11; 12; 13; 0; 0; 2; 0] ++ repeat 0 24);
       out_transfer dh (op :: repeat 0 31);
       out_transfer dh (repeat 0 32); out_transfer dh (repeat 0 32);
       out_transfer dh (repeat 0 32); out_transfer dh (repeat 0 32);
       out_transfer dh (repeat 0 32); out_transfer dh (repeat 0 32);
       out_transfer dh (repeat 0 32);
       out_transfer dh ([10; 11; 12; 13; 0; 0; 1; 0] ++ repeat 0 24);
       in_transfer dh]
    /\ (exists k,
          events_of (read_data dh op) w hist = firstn k (read_data_trace dh op))
    /\ ((forall tr data, respond w tr (out_transfer dh data) = 32) ->
        events_of (read_data dh op) w hist = read_data_trace dh op)
    /\ (existsb is_in_transfer (events_of (read_data dh op) w hist) = true ->
        events_of (read_data dh op) w hist = read_data_trace dh op).
Proof.
  intros dh op w hist.
  assert (Hprefix : exists k,
    events_of (read_data dh op) w hist = firstn k (read_data_trace dh op)).
  { unfold events_of. rewrite read_data_run.
    destruct (send_each_events dh
                ([select_message; command_message op] ++ repeat padding_message 7)
                w hist) as [k [Hk Hfull]].
    unfold events_of, outcome_of in Hk, Hfull.
    destruct (send_each dh _ w hist) as [o e1]. cbn [fst snd] in Hk, Hfull.
    assert (Hshort : exists k', e1 = firstn k' (read_data_trace dh op)).
    { rewrite Hk.
      do 9 (destruct k as [|k]; [prefix_length|]).
      cbn [app repeat firstn]. rewrite firstn_nil. prefix_length. }
    destruct o as [[]| | |]; cbn [snd]; try exact Hshort.
    rewrite (Hfull eq_refl). rewrite usb_send_run. cbv zeta.
    destruct (respond w _ (out_transfer dh read_request_message) <? 0);
      [exists 10%nat; reflexivity|].
    destruct (respond w _ (out_transfer dh read_request_message) =? 32);
      [|exists 10%nat; reflexivity].
    rewrite usb_recv_run. exists 11%nat. reflexivity. }
  split; [reflexivity|]. split; [exact Hprefix|]. split.
  - intros Hok. unfold events_of. rewrite read_data_run.
    rewrite (send_each_accepted dh _ w Hok), usb_send_run, Hok, usb_recv_run.
    reflexivity.
  - destruct Hprefix as [k Hk]. rewrite Hk. intros Hin.
    do 11 (destruct k as [|k]; [discriminate Hin|]).
    unfold read_data_trace, send_cmd_trace. cbn [app repeat firstn].
    now rewrite firstn_nil.
Qed.

(** The sequence is issued in full for the device-type query on a host that
    accepts every message. *)
Lemma read_data_emits_ten_messages_then_one_read_witness :
  events_of (read_data 1%nat cmd_devtype) (plugged_host 0x57 0x58) []
  = read_data_trace 1%nat cmd_devtype.
Proof.
  apply (proj1 (proj2 (proj2
    (read_data_emits_ten_messages_then_one_read 1%nat cmd_devtype
       (plugged_host 0x57 0x58) [])))).
  intros tr data. reflexivity.
Defined.

(** ** What a computation can emit *)

Section Emits.
Variable P : event -> Prop.

Lemma emits_ret {A} (a : A) : emits P (ret a).
Proof. intros w hist. constructor. Qed.

Lemma emits_throw {A} (e : exn) : emits P (@throw A e).
Proof. intros w hist. constructor. Qed.

Lemma emits_undefined {A} : emits P (@undefined A).
Proof. intros w hist. constructor. Qed.

Lemma emits_call (ev : event) : P ev -> emits P (call ev).
Proof. intros H w hist. repeat constructor. exact H. Qed.

Lemma emits_emit (ev : event) : P ev -> emits P (emit ev).
Proof. intros H w hist. repeat constructor. exact H. Qed.

Lemma emits_check (e : Z) : emits P (check e).
Proof. unfold check. destruct (e <? 0); [apply emits_throw | apply emits_ret]. Qed.

Lemma emits_bind {A B} (m : M A) (f : A -> M B) :
  emits P m -> (forall a, emits P (f a)) -> emits P (bind m f).
Proof.
  intros Hm Hf w hist. specialize (Hm w hist).
  unfold events_of, bind in *.
  destruct (m w hist) as [[a| | |] e1]; cbn [snd] in *; try exact Hm.
  specialize (Hf a w (hist ++ e1)). unfold events_of in Hf.
  destruct (f a w (hist ++ e1)) as [o e2]. cbn [snd] in *.
  apply Forall_app. split; assumption.
Qed.

Lemma emits_reader {A} (m : host -> list event -> M A) :
  (forall w hist, emits P (m w hist)) -> emits P (fun w hist => m w hist w hist).
Proof. intros H w hist. exact (H w hist w hist). Qed.

Lemma emits_for_loop (n : nat) (body : M unit) :
  emits P body -> emits P (for_loop n body).
Proof.
  intros H. induction n as [|n IH]; cbn [for_loop].
  - apply emits_ret.
  - apply emits_bind; [exact H | intros _; exact IH].
Qed.

Lemma emits_noexcept {A} (m : M A) : emits P m -> emits P (noexcept m).
Proof.
  intros H w hist. specialize (H w hist). unfold events_of, noexcept in *.
  destruct (m w hist) as [[a| | |] e1]; exact H.
Qed.

Lemma emits_destructor (d : dialect) (m : M unit) :
  emits P m -> emits P (destructor d m).
Proof. destruct d; [trivial | apply emits_noexcept]. Qed.

Lemma emits_destructor_try_block (body : M unit) (catches : exn -> bool)
    (handler : exn -> M unit) :
  emits P body -> (forall e, emits P (handler e)) ->
  emits P (destructor_try_block body catches handler).
Proof.
  intros Hb Hh w hist. specialize (Hb w hist).
  unfold events_of, destructor_try_block in *.
  destruct (body w hist) as [[a|e| |] e1]; cbn [snd] in *; try exact Hb.
  destruct (catches e); [|exact Hb].
  specialize (Hh e w (hist ++ e1)). unfold events_of in Hh.
  destruct (handler e w (hist ++ e1)) as [[a| | |] e2]; cbn [snd] in *;
    apply Forall_app; split; assumption.
Qed.

Lemma emits_with_local {G A} (ctor : M G) (dtor : G -> M unit)
    (body : G -> M A) :
  emits P ctor -> (forall g, emits P (dtor g)) -> (forall g, emits P (body g)) ->
  emits P (with_local ctor dtor body).
Proof.
  intros Hc Hd Hb w hist. specialize (Hc w hist).
  unfold events_of, with_local in *.
  destruct (ctor w hist) as [[g| | |] e1]; cbn [snd] in *; try exact Hc.
  specialize (Hb g w (hist ++ e1)). unfold events_of in Hb.
  destruct (body g w (hist ++ e1)) as [[a|e| |] e2]; cbn [snd] in *;
    try (apply Forall_app; split; assumption).
  - specialize (Hd g w (hist ++ e1 ++ e2)). unfold events_of in Hd.
    destruct (dtor g w (hist ++ e1 ++ e2)) as [[u| | |] e3]; cbn [snd] in *;
      repeat (apply Forall_app; split); assumption.
  - specialize (Hd g w (hist ++ e1 ++ e2)). unfold events_of in Hd.
    destruct (dtor g w (hist ++ e1 ++ e2)) as [[u| | |] e3]; cbn [snd] in *;
      repeat (apply Forall_app; split); assumption.
Qed.

Lemma emits_main_try_block (body : M Z) :
  emits P body -> (forall e, P (cerr_exception e)) ->
  emits P (main_try_block body).
Proof.
  intros Hb He w hist. specialize (Hb w hist).
  unfold events_of, main_try_block in *.
  destruct (body w hist) as [[a|e| |] e1]; cbn [snd] in *; try exact Hb.
  apply Forall_app. split; [exact Hb | repeat constructor; apply He].
Qed.
Lemma emits_usb_device_get (vendor product : Z) :
  P libusb_get_device_list -> P libusb_free_device_list ->
  (forall dev, P (libusb_get_device_descriptor dev)) ->
  (forall dev, P (libusb_open dev)) ->
  emits P (usb_device_get vendor product).
Proof.
  intros Hlist Hfree Hdesc Hopen.
  unfold usb_device_get. apply emits_with_local.
  - unfold usb_device_list. apply emits_bind;
      [apply emits_call; exact Hlist | intros n].
    destruct (n <? 0); [apply emits_undefined | apply emits_ret].
  - intros _. apply emits_emit. exact Hfree.
  - intros n. generalize 0%nat as dev.
    induction (Z.to_nat n) as [|k IH]; intros dev; cbn [usb_device_get_loop].
    + apply emits_throw.
    + apply emits_bind; [apply emits_call; apply Hdesc | intros r].
      apply emits_bind; [apply emits_check | intros _].
      apply (emits_reader
               (fun w hist =>
                  if matches w vendor product dev
                  then (r <- call (libusb_open dev);; check r;; ret dev)
                  else usb_device_get_loop vendor product k (S dev))).
      intros w hist. destruct (matches w vendor product dev); [|apply IH].
      apply emits_bind; [apply emits_call; apply Hopen | intros r'].
      apply emits_bind; [apply emits_check | intros _; apply emits_ret].
Qed.
End Emits.

Create HintDb emits.
#[local] Hint Resolve emits_ret emits_throw emits_undefined emits_check : emits.

(** Events other than outbound transfers are no outbound message. *)
Ltac not_outbound := intros; exact I.

Section EmitsMessages.
Variable Q : list Z -> Prop.

Lemma emits_usb_send (dh : handle) (data : msg32) :
  Q data -> emits (outbound_ok Q) (usb_send dh data).
Proof.
  intros H w hist. unfold events_of. rewrite usb_send_run.
  repeat constructor. exact H.
Qed.

Lemma emits_usb_recv (dh : handle) : emits (outbound_ok Q) (usb_recv dh).
Proof.
  intros w hist. unfold events_of. rewrite usb_recv_run.
  repeat constructor.
Qed.

Lemma emits_send_cmd (dh : handle) (op : Z) :
  Q select_message -> Q (command_message op) -> Q padding_message ->
  emits (outbound_ok Q) (send_cmd dh op).
Proof.
  intros Hs Hc Hp. unfold send_cmd.
  apply emits_bind; [apply emits_usb_send; exact Hs | intros _].
  apply emits_bind; [apply emits_usb_send; exact Hc | intros _].
  apply emits_for_loop. apply emits_usb_send. exact Hp.
Qed.

Lemma emits_read_data (dh : handle) (op : Z) :
  Q select_message -> Q (command_message op) -> Q padding_message ->
  Q read_request_message ->
  emits (outbound_ok Q) (read_data dh op).
Proof.
  intros Hs Hc Hp Hr. unfold read_data.
  apply emits_bind; [apply emits_send_cmd; assumption | intros _].
  apply emits_bind; [apply emits_usb_send; exact Hr | intros _].
  apply emits_usb_recv.
Qed.

Lemma emits_usb_device_get_messages (vendor product : Z) :
  emits (outbound_ok Q) (usb_device_get vendor product).
Proof. apply emits_usb_device_get; not_outbound. Qed.

Lemma emits_main_guards {A} (d : dialect) (dh : handle) (body : handle -> M A) :
  emits (outbound_ok Q) (body dh) ->
  emits (outbound_ok Q) (main_guards d dh body).
Proof.
  intros Hbody.
  assert (Hactor : forall i, emits (outbound_ok Q) (usb_attach_interface.ctor dh i)).
  { intros i. unfold usb_attach_interface.ctor.
    apply emits_bind; [apply emits_call; not_outbound | intros r].
    apply emits_bind; [auto with emits | intros r'].
    apply emits_bind; [|auto with emits].
    destruct (negb (r' =? 0)); [|auto with emits].
    apply emits_bind; [apply emits_call; not_outbound | intros r''].
    apply emits_bind; auto with emits. }
  assert (Hadtor : forall g, emits (outbound_ok Q) (usb_attach_interface.dtor d g)).
  { intros g. unfold usb_attach_interface.dtor.
    apply emits_destructor, emits_destructor_try_block.
    - destruct (usb_attach_interface.was_attached g); [|auto with emits].
      apply emits_bind; [apply emits_call; not_outbound | intros r].
      apply emits_bind; auto with emits.
    - intros e. apply emits_emit. not_outbound. }
  assert (Hcctor : forall i, emits (outbound_ok Q) (usb_claim_interface.ctor dh i)).
  { intros i. unfold usb_claim_interface.ctor.
    apply emits_bind; [apply emits_call; not_outbound | intros r].
    apply emits_bind; auto with emits. }
  assert (Hcdtor : forall g, emits (outbound_ok Q) (usb_claim_interface.dtor d g)).
  { intros g. unfold usb_claim_interface.dtor.
    apply emits_destructor, emits_destructor_try_block.
    - apply emits_bind; [apply emits_call; not_outbound | intros r].
      apply emits_bind; auto with emits.
    - intros e. apply emits_emit. not_outbound. }
  unfold main_guards.
  apply emits_with_local; [apply Hactor | apply Hadtor | intros a1].
  apply emits_with_local; [apply Hactor | apply Hadtor | intros a2].
  apply emits_bind.
  { apply emits_bind; [apply emits_call; not_outbound | auto with emits]. }
  intros _.
  apply emits_with_local; [apply Hcctor | apply Hcdtor | intros i1].
  apply emits_with_local; [apply Hcctor | apply Hcdtor | intros i2].
  exact Hbody.
Qed.

Lemma emits_main_with (d : dialect) (copy_count : nat) :
  Q select_message -> (forall op, Q (command_message op)) ->
  Q padding_message -> Q read_request_message ->
  emits (outbound_ok Q) (main_with d copy_count).
Proof.
  intros Hs Hc Hp Hr. unfold main_with, main_scope.
  apply emits_main_try_block; [|not_outbound].
  apply emits_with_local.
  { unfold usb_open. apply emits_bind; [apply emits_call; not_outbound|intros r].
    apply emits_bind; auto with emits. }
  { intros _. apply emits_emit. not_outbound. }
  intros _. apply emits_with_local.
  { apply emits_usb_device_get_messages. }
  { intros dh. apply emits_emit. not_outbound. }
  intros dh. apply emits_main_guards.
  apply emits_bind.
  { unfold main_init. apply emits_bind; [apply emits_read_data; auto|intros raw].
    apply emits_bind.
    - unfold std_copy. destruct (_ <=? _)%nat; auto with emits.
    - intros b. destruct (_ =? _); [apply emits_send_cmd; auto|auto with emits]. }
  intros _. apply emits_bind; [|auto with emits].
  unfold main_read. apply emits_bind; [apply emits_read_data; auto|intros raw].
  apply emits_emit. not_outbound.
Qed.
End EmitsMessages.

Lemma select_message_ok (op : Z) : protocol_message op select_message.
Proof. left. repeat split. Qed.

Lemma read_request_message_ok (op : Z) : protocol_message op read_request_message.
Proof. right; left. repeat split. Qed.

Lemma command_message_ok (op : Z) : protocol_message op (command_message op).
Proof. right; right; left. repeat split. Qed.

Lemma padding_message_ok (op : Z) : protocol_message op padding_message.
Proof. right; right; right. repeat split. Qed.

Lemma fill_buf_zero_padded (data : first_revision.msg) :
  List.length data = 8%nat -> zero_padded 8 (first_revision.fill_buf data).
Proof.
  intros H. do 9 (destruct data as [|? data]; try discriminate H).
  repeat split.
Qed.

(** C9. Every outbound message is 32 bytes long and zero beyond its
    significant prefix (8 bytes for the two framing messages, 1 byte for a
    command message, none for padding): in [read_data] and [send_cmd] for
    every opcode, in every step of the session of [main] in both revisions
    that have it, and in the first revision, where [send_data] builds the
    buffer from eight values. *)
Theorem outbound_messages_are_32_bytes_zero_padded :
  (forall dh op, emits (outbound_ok (protocol_message op)) (read_data dh op))
  /\ (forall dh op, emits (outbound_ok (protocol_message op)) (send_cmd dh op))
  /\ (forall d copy_count,
        emits (outbound_ok (fun data => exists op, protocol_message op data))
          (main_with d copy_count))
  /\ (forall dh data,
        List.length data = 8%nat ->
        emits (outbound_ok (zero_padded 8)) (first_revision.send_data dh data))
  /\ (forall dh,
        emits (outbound_ok (fun data => exists op, protocol_message op data))
          (first_revision.main_protocol dh)).
Proof.
  split; [|split; [|split; [|split]]].
  - intros dh op. apply emits_read_data;
      auto using select_message_ok, command_message_ok, padding_message_ok,
        read_request_message_ok.
  - intros dh op. apply emits_send_cmd;
      auto using select_message_ok, command_message_ok, padding_message_ok.
  - intros d n. apply emits_main_with.
    + exists 0. apply select_message_ok.
    + intros op. exists op. apply command_message_ok.
    + exists 0. apply padding_message_ok.
    + exists 0. apply read_request_message_ok.
  - intros dh data Hlen w hist. unfold events_of. rewrite send_data_run.
    apply emits_usb_send. apply fill_buf_zero_padded. exact Hlen.
  - intros dh.
    assert (Hsend : forall data,
      (exists op, protocol_message op (first_revision.fill_buf data)) ->
      emits (outbound_ok (fun data => exists op, protocol_message op data))
        (first_revision.send_data dh data)).
    { intros data H w hist. unfold events_of. rewrite send_data_run.
      apply emits_usb_send. exact H. }
    unfold first_revision.main_protocol.
    apply emits_bind; [apply Hsend; exists 0; apply select_message_ok|intros _].
    apply emits_bind;
      [apply Hsend; exists 0x43; apply (command_message_ok 0x43)|intros _].
    apply emits_bind;
      [apply emits_for_loop, Hsend; exists 0; apply padding_message_ok|intros _].
    apply emits_bind;
      [apply Hsend; exists 0x54; apply (command_message_ok 0x54)|intros _].
    apply emits_bind;
      [apply emits_for_loop, Hsend; exists 0; apply padding_message_ok|intros _].
    apply emits_bind;
      [apply Hsend; exists 0; apply read_request_message_ok|intros _].
    intros w hist. unfold events_of. rewrite recv_data_run. repeat constructor.
Qed.

(** The eight values of the first revision's [select_device] make a buffer
    that is zero from its ninth byte on. *)
Lemma outbound_messages_are_32_bytes_zero_padded_witness :
  emits (outbound_ok (zero_padded 8))
    (first_revision.send_data 1%nat first_revision.select_device).
Proof.
  apply (proj1 (proj2 (proj2 (proj2
    outbound_messages_are_32_bytes_zero_padded))) 1%nat
      first_revision.select_device).
  reflexivity.
Defined.

(** ** Decoder *)

Lemma sums_exact_everywhere :
  sums_exact double_prec double_emax = true
  /\ sums_exact float_prec float_emax = true.
Proof. split; vm_cast_no_check (eq_refl true). Qed.

Lemma has_value_SF2Q (f : spec_float) (q : Q) :
  has_value f q = true -> SF2Q f = Some (Qred q).
Proof.
  unfold has_value, SF2Q. destruct (SF2Q_exact f) as [v|]; [|discriminate].
  intros H. apply Qeq_bool_iff in H. cbn [option_map]. f_equal.
  apply Qred_complete. exact H.
Qed.

Lemma is_byte_in_all_bytes (b : Z) : is_byte b = true -> In b all_bytes.
Proof.
  unfold is_byte. intros H. apply andb_prop in H. destruct H as [Hlo Hhi].
  apply Z.leb_le in Hlo. apply Z.ltb_lt in Hhi.
  unfold all_bytes. rewrite <- (Z2Nat.id b) by exact Hlo.
  apply in_map, in_seq. lia.
Qed.

Lemma sums_exact_at (prec emax : Z) (r0 r1 : Z) :
  sums_exact prec emax = true ->
  is_byte r0 = true -> is_byte r1 = true ->
  SF2Q (SFadd prec emax (of_int prec emax r0)
          (SFdiv prec emax (of_int prec emax r1) (of_int prec emax 256)))
  = Some (Qred (exact_temperature r0 r1)).
Proof.
  unfold sums_exact. cbv zeta. intros Hall H0 H1.
  rewrite forallb_forall in Hall.
  specialize (Hall r0 (is_byte_in_all_bytes r0 H0)).
  rewrite forallb_forall in Hall.
  apply has_value_SF2Q.
  apply (Hall (r1, SFdiv prec emax (of_int prec emax r1) (of_int prec emax 256))).
  unfold quotients.
  apply (in_map (fun b => (b, SFdiv prec emax (of_int prec emax b)
                                (of_int prec emax 256)))).
  apply is_byte_in_all_bytes. exact H1.
Qed.

Lemma decoders_exact (r0 r1 : Z) :
  is_byte r0 = true -> is_byte r1 = true ->
  SF2Q (decode_double [r0; r1]) = Some (Qred (exact_temperature r0 r1))
  /\ SF2Q (decode_float [r0; r1]) = Some (Qred (exact_temperature r0 r1)).
Proof.
  intros H0 H1. destruct sums_exact_everywhere as [Hd Hf]. split.
  - apply (sums_exact_at double_prec double_emax r0 r1 Hd H0 H1).
  - apply (sums_exact_at float_prec float_emax r0 r1 Hf H0 H1).
Qed.

Lemma well_formed_report_bytes (r : msg256) :
  well_formed_report r ->
  is_byte (at_index r 0) = true /\ is_byte (at_index r 1) = true.
Proof.
  intros [Hlen Hall]. rewrite forallb_forall in Hall.
  destruct r as [|r0 [|r1 r]]; try discriminate Hlen.
  split; apply Hall; cbn; auto.
Qed.

Lemma exact_temperature_range (r0 r1 : Z) :
  is_byte r0 = true -> is_byte r1 = true ->
  (0 <= exact_temperature r0 r1)%Q /\ (exact_temperature r0 r1 < 256)%Q.
Proof.
  unfold is_byte. intros H0 H1.
  apply andb_prop in H0. destruct H0 as [H0lo H0hi].
  apply andb_prop in H1. destruct H1 as [H1lo H1hi].
  apply Z.leb_le in H0lo, H1lo. apply Z.ltb_lt in H0hi, H1hi.
  unfold exact_temperature, Qle, Qlt. cbn. split; lia.
Qed.

(** C3. For every 256-byte report the decoder's result is exactly the
    rational number [r[0] + r[1]/256]: the binary64 computation of the first
    revision and the binary32 computation of the later ones round nothing
    and agree.  The value lies in [0, 256), and a report that starts with
    0x14, 0x80 decodes to 20.5. *)
Theorem decode_is_exact_and_in_range :
  forall r : msg256,
    well_formed_report r ->
    let q := exact_temperature (at_index r 0) (at_index r 1) in
    SF2Q (decode_double r) = Some (Qred q)
    /\ SF2Q (decode_float r) = Some (Qred q)
    /\ (0 <= q)%Q /\ (q < 256)%Q
    /\ (at_index r 0 = 0x14 -> at_index r 1 = 0x80 ->
        SF2Q (decode_double r) = Some (41 # 2)).
Proof.
  intros r Hr q.
  destruct (well_formed_report_bytes r Hr) as [H0 H1].
  destruct (decoders_exact _ _ H0 H1) as [Hd Hf].
  destruct (exact_temperature_range _ _ H0 H1) as [Hlo Hhi].
  assert (Hd' : SF2Q (decode_double r) = Some (Qred q)) by exact Hd.
  assert (Hf' : SF2Q (decode_float r) = Some (Qred q)) by exact Hf.
  repeat split; try assumption.
  intros E0 E1. rewrite Hd'. subst q. rewrite E0, E1. reflexivity.
Qed.

(** A report that starts with 0x14, 0x80 decodes to 20.5. *)
Lemma decode_is_exact_and_in_range_witness :
  SF2Q (decode_double (pad_to 256 [0x14; 0x80])) = Some (41 # 2).
Proof.
  refine (proj2 (proj2 (proj2 (proj2
    (decode_is_exact_and_in_range (pad_to 256 [0x14; 0x80]) _)))) _ _);
    [split|..]; reflexivity.
Defined.

(** ** Device locator *)

Lemma check_run (e : Z) (w : host) (hist : list event) :
  check e w hist = (if e <? 0 then Throw (usb_error e) else Normal e, []).
Proof. unfold check. destruct (e <? 0); reflexivity. Qed.

Lemma check_accepted (e : Z) (w : host) (hist : list event) :
  0 <= e -> check e w hist = (Normal e, []).
Proof.
  intros H. rewrite check_run.
  destruct (Z.ltb_spec e 0); [lia | reflexivity].
Qed.

Section Locator.
Variables (vendor product : Z) (w : host).
Hypothesis descriptors_readable :
  forall tr dev, 0 <= respond w tr (libusb_get_device_descriptor dev).

Lemma usb_device_get_loop_step (remaining dev : nat) (hist : list event) :
  usb_device_get_loop vendor product (S remaining) dev w hist =
  if matches w vendor product dev
  then
    (if respond w (hist ++ [libusb_get_device_descriptor dev]) (libusb_open dev) <? 0
     then Throw (usb_error
                   (respond w (hist ++ [libusb_get_device_descriptor dev])
                      (libusb_open dev)))
     else Normal dev,
     [libusb_get_device_descriptor dev; libusb_open dev])
  else
    match usb_device_get_loop vendor product remaining (S dev) w
            (hist ++ [libusb_get_device_descriptor dev]) with
    | (o, e2) => (o, libusb_get_device_descriptor dev :: e2)
    end.
Proof.
  cbn [usb_device_get_loop]. unfold bind at 1. unfold call at 1.
  unfold bind at 1.
  rewrite check_accepted by apply descriptors_readable.
  rewrite app_nil_r. cbn [app].
  destruct (matches w vendor product dev).
  - unfold bind, call. rewrite check_run.
    destruct (_ <? 0); reflexivity.
  - destruct (usb_device_get_loop vendor product remaining (S dev) w _).
    reflexivity.
Qed.

Lemma usb_device_get_loop_first_match (i : nat) :
  matches w vendor product i = true ->
  (forall tr, 0 <= respond w tr (libusb_open i)) ->
  forall remaining dev hist,
    (dev <= i < dev + remaining)%nat ->
    (forall j, (dev <= j < i)%nat -> matches w vendor product j = false) ->
    usb_device_get_loop vendor product remaining dev w hist =
    (Normal i,
     map libusb_get_device_descriptor (seq dev (S i - dev)) ++ [libusb_open i]).
Proof.
  intros Hmatch Hopen.
  induction remaining as [|remaining IH]; intros dev hist Hrange Hbefore;
    [lia|].
  rewrite usb_device_get_loop_step.
  destruct (Nat.eq_dec dev i) as [->|Hne].
  - rewrite Hmatch.
    destruct (Z.ltb_spec (respond w (hist ++ [libusb_get_device_descriptor i])
                            (libusb_open i)) 0) as [H|H];
      [specialize (Hopen (hist ++ [libusb_get_device_descriptor i])); lia|].
    replace (S i - i)%nat with 1%nat by lia. reflexivity.
  - rewrite (Hbefore dev) by lia.
    rewrite (IH (S dev)); [|lia|intros j Hj; apply Hbefore; lia].
    replace (S i - dev)%nat with (S (S i - S dev)) by lia. reflexivity.
Qed.

Lemma usb_device_get_loop_no_match :
  forall remaining dev hist,
    (forall j, (dev <= j < dev + remaining)%nat ->
               matches w vendor product j = false) ->
    usb_device_get_loop vendor product remaining dev w hist =
    (Throw (runtime_error "could not find device"),
     map libusb_get_device_descriptor (seq dev remaining)).
Proof.
  induction remaining as [|remaining IH]; intros dev hist Hnone;
    [reflexivity|].
  rewrite usb_device_get_loop_step.
  rewrite (Hnone dev) by lia.
  rewrite (IH (S dev)); [reflexivity|intros j Hj; apply Hnone; lia].
Qed.

Lemma usb_device_get_run (n : nat) (hist : list event) :
  respond w hist libusb_get_device_list = Z.of_nat n ->
  usb_device_get vendor product w hist =
  match usb_device_get_loop vendor product n 0 w
          (hist ++ [libusb_get_device_list]) with
  | (Normal dh, e2) =>
      (Normal dh, [libusb_get_device_list] ++ e2 ++ [libusb_free_device_list])
  | (Throw e, e2) =>
      (Throw e, [libusb_get_device_list] ++ e2 ++ [libusb_free_device_list])
  | (Terminate, e2) => (Terminate, [libusb_get_device_list] ++ e2)
  | (Undefined, e2) => (Undefined, [libusb_get_device_list] ++ e2)
  end.
Proof.
  intros Hn. unfold usb_device_get, with_local, usb_device_list, bind, call.
  rewrite Hn. destruct (Z.ltb_spec (Z.of_nat n) 0) as [H|H]; [lia|].
  cbn [ret app]. rewrite Nat2Z.id.
  destruct (usb_device_get_loop vendor product n 0 w _) as [[dh|e| |] e2];
    reflexivity.
Qed.
End Locator.

Lemma usb_open_run (w : host) (hist : list event) :
  usb_open w hist =
  (if respond w hist libusb_init <? 0
   then Throw (usb_error (respond w hist libusb_init))
   else Normal tt, [libusb_init]).
Proof.
  unfold usb_open, bind, call. rewrite check_run.
  destruct (respond w hist libusb_init <? 0); reflexivity.
Qed.

Lemma Forall_existsb_false (p : event -> bool) (l : list event) :
  Forall (fun ev => p ev = false) l -> existsb p l = false.
Proof.
  induction 1 as [|ev l Hev _ IH]; [reflexivity|].
  cbn. now rewrite Hev, IH.
Qed.

Lemma usb_device_get_no_guard_event (vendor product : Z) (w : host)
    (hist : list event) :
  existsb is_guard_event (events_of (usb_device_get vendor product) w hist)
  = false.
Proof.
  apply Forall_existsb_false.
  apply (emits_usb_device_get (fun ev => is_guard_event ev = false));
    reflexivity.
Qed.

Lemma main_without_device (d : dialect) (copy_count : nat) (w : host)
    (hist : list event) :
  (forall dh,
     outcome_of (usb_device_get 0x1130 0x660c) w (hist ++ [libusb_init])
     <> Normal dh) ->
  existsb is_guard_event (events_of (main_with d copy_count) w hist) = false.
Proof.
  intros Hfail.
  pose proof (usb_device_get_no_guard_event 0x1130 0x660c w
                (hist ++ [libusb_init])) as Hget.
  unfold events_of, outcome_of in *.
  unfold main_with, main_try_block, main_scope.
  unfold with_local at 1. rewrite usb_open_run.
  destruct (respond w hist libusb_init <? 0); [reflexivity|].
  unfold with_local at 1.
  destruct (usb_device_get 0x1130 0x660c w (hist ++ [libusb_init]))
    as [[dh|e| |] e2]; cbn [fst snd] in *.
  - exfalso. apply (Hfail dh). reflexivity.
  - cbn [emit app snd existsb]. rewrite !existsb_app, Hget. reflexivity.
  - cbn [app snd existsb]. rewrite ?existsb_app, Hget. reflexivity.
  - cbn [app snd existsb]. rewrite ?existsb_app, Hget. reflexivity.
Qed.

(** C7. The locator reads the descriptors in enumeration order and opens
    the first device that matches both identifiers: when that device is at
    position [i] and can be opened, the handle of device [i] is returned
    after the descriptors 0 to [i] were read and no other device was
    opened.  When no enumerated descriptor matches, it throws "could not
    find device" and opens nothing.  And when the locator does not return a
    device, [main] performs no operation of an interface guard. *)
Theorem usb_device_get_opens_first_match_or_not_found :
  (forall (vendor product : Z) (w : host) (hist : list event) (n : nat),
      respond w hist libusb_get_device_list = Z.of_nat n ->
      (forall tr dev, 0 <= respond w tr (libusb_get_device_descriptor dev)) ->
      (forall i,
          (i < n)%nat ->
          matches w vendor product i = true ->
          (forall j, (j < i)%nat -> matches w vendor product j = false) ->
          (forall tr, 0 <= respond w tr (libusb_open i)) ->
          usb_device_get vendor product w hist =
          (Normal i,
           [libusb_get_device_list]
           ++ map libusb_get_device_descriptor (seq 0 (S i))
           ++ [libusb_open i; libusb_free_device_list]))
      /\ ((forall j, (j < n)%nat -> matches w vendor product j = false) ->
          usb_device_get vendor product w hist =
          (Throw (runtime_error "could not find device"),
           [libusb_get_device_list]
           ++ map libusb_get_device_descriptor (seq 0 n)
           ++ [libusb_free_device_list])))
  /\ (forall (d : dialect) (copy_count : nat) (w : host),
        (forall dh,
            outcome_of (usb_device_get 0x1130 0x660c) w [libusb_init]
            <> Normal dh) ->
        existsb is_guard_event (events_of (main_with d copy_count) w [])
        = false).
Proof.
  split.
  - intros vendor product w hist n Hn Hdesc. split.
    + intros i Hi Hmatch Hbefore Hopen.
      rewrite (usb_device_get_run vendor product w n hist Hn).
      rewrite (usb_device_get_loop_first_match vendor product w Hdesc i
                 Hmatch Hopen n 0); [|lia|intros j Hj; apply Hbefore; lia].
      rewrite Nat.sub_0_r, <- app_assoc. reflexivity.
    + intros Hnone.
      rewrite (usb_device_get_run vendor product w n hist Hn).
      rewrite (usb_device_get_loop_no_match vendor product w Hdesc n 0);
        [reflexivity|intros j Hj; apply Hnone; lia].
  - intros d copy_count w Hfail.
    apply (main_without_device d copy_count w []). exact Hfail.
Qed.

(** Of the two devices of [plugged_host] the second one matches and is the
    one opened. *)
Lemma usb_device_get_opens_first_match_or_not_found_witness :
  usb_device_get 0x1130 0x660c (plugged_host 0x57 0x58) [libusb_init] =
  (Normal 1%nat,
   [libusb_get_device_list; libusb_get_device_descriptor 0;
    libusb_get_device_descriptor 1; libusb_open 1; libusb_free_device_list]).
Proof.
  refine (proj1 (proj1 usb_device_get_opens_first_match_or_not_found
                   0x1130 0x660c (plugged_host 0x57 0x58) [libusb_init]
                   2%nat _ _) 1%nat _ _ _ _).
  - reflexivity.
  - intros tr dev. cbn. lia.
  - lia.
  - reflexivity.
  - intros j Hj. destruct j as [|j]; [reflexivity|lia].
  - intros tr. cbn. lia.
Defined.

(** ** Interface guards *)

Lemma usb_claim_interface_ctor_run (dh : handle) (i : Z) (w : host)
    (hist : list event) :
  usb_claim_interface.ctor dh i w hist =
  (let r := respond w hist (libusb_claim_interface dh i) in
   if r <? 0 then Throw (usb_error r)
   else Normal (usb_claim_interface.mk dh i),
   [libusb_claim_interface dh i]).
Proof.
  unfold usb_claim_interface.ctor, bind, call. rewrite check_run. cbv zeta.
  destruct (respond w hist (libusb_claim_interface dh i) <? 0); reflexivity.
Qed.

Lemma usb_claim_interface_dtor_run (d : dialect) (g : usb_claim_interface.t)
    (w : host) (hist : list event) :
  usb_claim_interface.dtor d g w hist =
  (let release := libusb_release_interface (usb_claim_interface.h g)
                    (usb_claim_interface.interface g) in
   let r := respond w hist release in
   if r <? 0
   then (match d with
         | cxx11 => Terminate
         | cxx03 => Throw (usb_error r)
         end,
         [release; cerr_destructor "~usb_claim_interface" (usb_error r)])
   else (Normal tt, [release])).
Proof.
  destruct d;
    unfold usb_claim_interface.dtor, destructor, noexcept, destructor_try_block,
      bind, call;
    rewrite check_run; cbv zeta;
    destruct (respond w hist _ <? 0); reflexivity.
Qed.

Lemma usb_attach_interface_ctor_run (dh : handle) (i : Z) (w : host)
    (hist : list event) :
  usb_attach_interface.ctor dh i w hist =
  (let active := libusb_kernel_driver_active dh i in
   let detach := libusb_detach_kernel_driver dh i in
   let r := respond w hist active in
   if r <? 0 then (Throw (usb_error r), [active])
   else if r =? 0
   then (Normal (usb_attach_interface.mk dh i false), [active])
   else
     let r' := respond w (hist ++ [active]) detach in
     if r' <? 0 then (Throw (usb_error r'), [active; detach])
     else (Normal (usb_attach_interface.mk dh i true), [active; detach])).
Proof.
  unfold usb_attach_interface.ctor. unfold bind at 1. unfold call at 1.
  unfold bind at 1. rewrite check_run. cbv zeta.
  destruct (respond w hist (libusb_kernel_driver_active dh i) <? 0);
    [reflexivity|].
  rewrite app_nil_r. cbn [app].
  destruct (respond w hist (libusb_kernel_driver_active dh i) =? 0);
    cbn [negb]; [reflexivity|].
  unfold bind, call. rewrite check_run.
  destruct (respond w _ (libusb_detach_kernel_driver dh i) <? 0); reflexivity.
Qed.

Lemma usb_attach_interface_dtor_run (d : dialect) (g : usb_attach_interface.t)
    (w : host) (hist : list event) :
  usb_attach_interface.dtor d g w hist =
  (let attach := libusb_attach_kernel_driver (usb_attach_interface.h g)
                   (usb_attach_interface.interface g) in
   let r := respond w hist attach in
   if usb_attach_interface.was_attached g
   then
     if r <? 0
     then (match d with
           | cxx11 => Terminate
           | cxx03 => Throw (usb_error r)
           end,
           [attach; cerr_destructor "~usb_attach_interface" (usb_error r)])
     else (Normal tt, [attach])
   else (Normal tt, [])).
Proof.
  destruct d;
    unfold usb_attach_interface.dtor, destructor, noexcept, destructor_try_block;
    (destruct (usb_attach_interface.was_attached g); [|reflexivity]);
    unfold bind, call; rewrite check_run; cbv zeta;
    destruct (respond w hist _ <? 0); reflexivity.
Qed.

Lemma ltb_nonneg (r : Z) : 0 <= r -> (r <? 0) = false.
Proof. intros H. apply Z.ltb_ge. exact H. Qed.

Lemma ltb_neg (r : Z) : r < 0 -> (r <? 0) = true.
Proof. intros H. apply Z.ltb_lt. exact H. Qed.

Lemma with_local_constructed {G A} (ctor : M G) (dtor : G -> M unit)
    (body : G -> M A) (w : host) (hist : list event) (g : G)
    (e1 : list event) :
  ctor w hist = (Normal g, e1) ->
  with_local ctor dtor body w hist =
  match with_local (ret g) dtor body w (hist ++ e1) with
  | (o, e) => (o, e1 ++ e)
  end.
Proof.
  intros H. unfold with_local. rewrite H. unfold ret.
  rewrite app_nil_r. cbn [app].
  destruct (body g w (hist ++ e1)) as [[a|e| |] e2]; try reflexivity;
    rewrite <- app_assoc;
    destruct (dtor g w (hist ++ e1 ++ e2)) as [[u|e'| |] e3]; reflexivity.
Qed.

Section GuardScopes.
Variables (w : host) (dh : handle) (d : dialect).

Lemma attach_scope_acquired {A} (i : Z) (was : bool)
    (body : usb_attach_interface.t -> M A) (hist : list event) :
  (forall tr, respond w tr (libusb_kernel_driver_active dh i)
              = if was then 1 else 0) ->
  (forall tr, 0 <= respond w tr (libusb_detach_kernel_driver dh i)) ->
  let acq := libusb_kernel_driver_active dh i
             :: (if was then [libusb_detach_kernel_driver dh i] else []) in
  with_local (usb_attach_interface.ctor dh i) (usb_attach_interface.dtor d)
    body w hist =
  match with_local (ret (usb_attach_interface.mk dh i was))
          (usb_attach_interface.dtor d) body w (hist ++ acq) with
  | (o, e) => (o, acq ++ e)
  end.
Proof.
  intros Hactive Hdetach acq. apply with_local_constructed.
  rewrite usb_attach_interface_ctor_run. cbv zeta. rewrite Hactive.
  destruct was; cbn [Z.ltb Z.eqb Z.compare]; [|reflexivity].
  rewrite ltb_nonneg by apply Hdetach. reflexivity.
Qed.

Lemma claim_scope_acquired {A} (i : Z)
    (body : usb_claim_interface.t -> M A) (hist : list event) :
  (forall tr, 0 <= respond w tr (libusb_claim_interface dh i)) ->
  with_local (usb_claim_interface.ctor dh i) (usb_claim_interface.dtor d)
    body w hist =
  match with_local (ret (usb_claim_interface.mk dh i))
          (usb_claim_interface.dtor d) body w
          (hist ++ [libusb_claim_interface dh i]) with
  | (o, e) => (o, [libusb_claim_interface dh i] ++ e)
  end.
Proof.
  intros Hclaim. apply with_local_constructed.
  rewrite usb_claim_interface_ctor_run. cbv zeta.
  rewrite ltb_nonneg by apply Hclaim. reflexivity.
Qed.

(** Leaving the scope of a claim whose release succeeds. *)
Lemma claim_scope_released {A} (i : Z)
    (body : usb_claim_interface.t -> M A) (hist : list event) :
  (forall tr, 0 <= respond w tr (libusb_release_interface dh i)) ->
  with_local (ret (usb_claim_interface.mk dh i)) (usb_claim_interface.dtor d)
    body w hist =
  match body (usb_claim_interface.mk dh i) w hist with
  | (o, e) =>
      (o, if leaves_scope o then e ++ [libusb_release_interface dh i] else e)
  end.
Proof.
  intros Hrelease. unfold with_local, ret. rewrite app_nil_r. cbn [app].
  destruct (body _ w hist) as [[a|e| |] e2]; cbn [leaves_scope];
    try reflexivity;
    rewrite usb_claim_interface_dtor_run; cbv zeta;
    cbn [usb_claim_interface.h usb_claim_interface.interface];
    rewrite ltb_nonneg by apply Hrelease; reflexivity.
Qed.

(** Leaving the scope of a claim whose release fails, in C++11. *)
Lemma claim_scope_release_fails {A} (i r : Z)
    (body : usb_claim_interface.t -> M A) (hist : list event) :
  (forall tr, respond w tr (libusb_release_interface dh i) = r) ->
  r < 0 ->
  with_local (ret (usb_claim_interface.mk dh i))
    (usb_claim_interface.dtor cxx11) body w hist =
  match body (usb_claim_interface.mk dh i) w hist with
  | (o, e) =>
      if leaves_scope o
      then (Terminate,
            e ++ [libusb_release_interface dh i;
                  cerr_destructor "~usb_claim_interface" (usb_error r)])
      else (o, e)
  end.
Proof.
  intros Hrelease Hneg. unfold with_local, ret. rewrite app_nil_r. cbn [app].
  destruct (body _ w hist) as [[a|e| |] e2]; cbn [leaves_scope];
    try reflexivity;
    rewrite usb_claim_interface_dtor_run; cbv zeta;
    cbn [usb_claim_interface.h usb_claim_interface.interface];
    rewrite Hrelease, ltb_neg by exact Hneg; reflexivity.
Qed.

(** Leaving the scope of an attach guard whose reattachment succeeds. *)
Lemma attach_scope_reattached {A} (i : Z) (was : bool)
    (body : usb_attach_interface.t -> M A) (hist : list event) :
  (forall tr, 0 <= respond w tr (libusb_attach_kernel_driver dh i)) ->
  with_local (ret (usb_attach_interface.mk dh i was))
    (usb_attach_interface.dtor d) body w hist =
  match body (usb_attach_interface.mk dh i was) w hist with
  | (o, e) =>
      (o, if leaves_scope o && was
          then e ++ [libusb_attach_kernel_driver dh i] else e)
  end.
Proof.
  intros Hattach. unfold with_local, ret. rewrite app_nil_r. cbn [app].
  destruct (body _ w hist) as [[a|e| |] e2]; cbn [leaves_scope andb];
    try reflexivity;
    rewrite usb_attach_interface_dtor_run; cbv zeta;
    cbn [usb_attach_interface.h usb_attach_interface.interface
         usb_attach_interface.was_attached];
    (destruct was; [|now rewrite app_nil_r]);
    rewrite ltb_nonneg by apply Hattach; reflexivity.
Qed.
End GuardScopes.

Section GuardScopesRun.
Variables (w : host) (dh : handle) (d : dialect).

Lemma claim_scope_run {A} (i : Z) (body : usb_claim_interface.t -> M A)
    (hist : list event) :
  (forall tr, 0 <= respond w tr (libusb_claim_interface dh i)) ->
  (forall tr, 0 <= respond w tr (libusb_release_interface dh i)) ->
  with_local (usb_claim_interface.ctor dh i) (usb_claim_interface.dtor d)
    body w hist =
  match body (usb_claim_interface.mk dh i) w
          (hist ++ [libusb_claim_interface dh i]) with
  | (o, e) =>
      (o, libusb_claim_interface dh i
          :: (if leaves_scope o
              then e ++ [libusb_release_interface dh i] else e))
  end.
Proof.
  intros Hclaim Hrelease.
  rewrite claim_scope_acquired by exact Hclaim.
  rewrite claim_scope_released by exact Hrelease.
  destruct (body _ w _) as [o e]. reflexivity.
Qed.

Lemma attach_scope_run {A} (i : Z) (was : bool)
    (body : usb_attach_interface.t -> M A) (hist : list event) :
  (forall tr, respond w tr (libusb_kernel_driver_active dh i)
              = if was then 1 else 0) ->
  (forall tr, 0 <= respond w tr (libusb_detach_kernel_driver dh i)) ->
  (forall tr, 0 <= respond w tr (libusb_attach_kernel_driver dh i)) ->
  let acq := libusb_kernel_driver_active dh i
             :: (if was then [libusb_detach_kernel_driver dh i] else []) in
  with_local (usb_attach_interface.ctor dh i) (usb_attach_interface.dtor d)
    body w hist =
  match body (usb_attach_interface.mk dh i was) w (hist ++ acq) with
  | (o, e) =>
      (o, acq ++ (if leaves_scope o && was
                  then e ++ [libusb_attach_kernel_driver dh i] else e))
  end.
Proof.
  intros Hactive Hdetach Hattach acq.
  rewrite (attach_scope_acquired w dh d i was) by assumption.
  rewrite attach_scope_reattached by exact Hattach.
  fold acq. destruct (body _ w _) as [o e]. reflexivity.
Qed.

(** A scope whose body ends in [std::terminate] or in undefined behaviour:
    the destructor does not run. *)
Lemma with_local_body_stops {G A} (ctor : M G) (dtor : G -> M unit)
    (body : G -> M A) (hist : list event) (g : G) (e1 e2 : list event)
    (o : outcome A) :
  ctor w hist = (Normal g, e1) ->
  body g w (hist ++ e1) = (o, e2) ->
  leaves_scope o = false ->
  with_local ctor dtor body w hist = (o, e1 ++ e2).
Proof.
  intros Hc Hb Ho. unfold with_local. rewrite Hc, Hb.
  destruct o; try discriminate Ho; reflexivity.
Qed.
End GuardScopesRun.

Section MainGuards.
Variables (w : host) (dh : handle) (was0 was1 : bool).
Hypothesis acquired : acquires w dh was0 was1.

Lemma set_configuration_run (hist : list event) :
  (r <- call (libusb_set_configuration dh 1);; check r) w hist =
  (Normal (respond w hist (libusb_set_configuration dh 1)),
   [libusb_set_configuration dh 1]).
Proof.
  destruct acquired as (_ & _ & _ & Hconf & _).
  unfold bind, call. rewrite check_accepted by apply Hconf. reflexivity.
Qed.

(** When every release and reattachment succeeds, the guards are taken
    down in full on each way out of the body. *)
Lemma main_guards_released {A} (d : dialect) (body : handle -> M A)
    (hist : list event) :
  (forall tr i, 0 <= respond w tr (libusb_release_interface dh i)) ->
  (forall tr i, 0 <= respond w tr (libusb_attach_kernel_driver dh i)) ->
  main_guards d dh body w hist =
  match body dh w (hist ++ acquisition_trace dh was0 was1) with
  | (o, e) =>
      (o, acquisition_trace dh was0 was1
          ++ e ++ (if leaves_scope o then teardown_trace dh was0 was1 else []))
  end.
Proof.
  intros Hrelease Hattach.
  destruct acquired as (Hk0 & Hk1 & Hdetach & Hconf & Hclaim).
  unfold main_guards.
  rewrite (attach_scope_run w dh d 0 was0) by auto.
  rewrite (attach_scope_run w dh d 1 was1) by auto.
  unfold bind at 1. rewrite set_configuration_run.
  rewrite (claim_scope_run w dh d 0) by auto.
  rewrite (claim_scope_run w dh d 1) by auto.
  unfold acquisition_trace, teardown_trace.
  repeat rewrite <- app_assoc. cbn [app].
  repeat rewrite <- app_assoc. cbn [app].
  destruct was0, was1; cbn [app];
    destruct (body dh w _) as [[a|e| |] eb]; cbn [leaves_scope andb app];
      repeat rewrite <- app_assoc; cbn [app];
      try rewrite app_nil_r; reflexivity.
Qed.

(** When the release of interface 1 fails, the C++11 program stops in the
    destructor of [i2], the first guard to be destroyed. *)
Lemma main_guards_release_fails {A} (body : handle -> M A)
    (hist : list event) (r : Z) :
  (forall tr, respond w tr (libusb_release_interface dh 1) = r) ->
  r < 0 ->
  main_guards cxx11 dh body w hist =
  match body dh w (hist ++ acquisition_trace dh was0 was1) with
  | (o, e) =>
      if leaves_scope o
      then (Terminate,
            acquisition_trace dh was0 was1
            ++ e ++ [libusb_release_interface dh 1;
                     cerr_destructor "~usb_claim_interface" (usb_error r)])
      else (o, acquisition_trace dh was0 was1 ++ e)
  end.
Proof.
  intros Hrelease Hneg.
  destruct acquired as (Hk0 & Hk1 & Hdetach & Hconf & Hclaim).
  set (acq0 := libusb_kernel_driver_active dh 0
               :: (if was0 then [libusb_detach_kernel_driver dh 0] else [])).
  set (acq1 := libusb_kernel_driver_active dh 1
               :: (if was1 then [libusb_detach_kernel_driver dh 1] else [])).
  assert (Hacq : acquisition_trace dh was0 was1
                 = acq0 ++ acq1 ++ [libusb_set_configuration dh 1]
                   ++ [libusb_claim_interface dh 0]
                   ++ [libusb_claim_interface dh 1]).
  { unfold acquisition_trace, acq0, acq1. destruct was0, was1; reflexivity. }
  rewrite Hacq.
  destruct (body dh w _) as [o eb] eqn:Hbody.
  set (stop := if leaves_scope o
               then (@Terminate A,
                     eb ++ [libusb_release_interface dh 1;
                            cerr_destructor "~usb_claim_interface"
                              (usb_error r)])
               else (o, eb)).
  assert (Hstop : leaves_scope (fst stop) = false).
  { unfold stop. destruct o; reflexivity. }
  assert (E4 : with_local (usb_claim_interface.ctor dh 1)
                 (usb_claim_interface.dtor cxx11) (fun _ => body dh) w
                 (hist ++ acq0 ++ acq1 ++ [libusb_set_configuration dh 1]
                       ++ [libusb_claim_interface dh 0])
               = (fst stop, [libusb_claim_interface dh 1] ++ snd stop)).
  { rewrite claim_scope_acquired by auto.
    rewrite (claim_scope_release_fails w dh 1 r) by assumption.
    repeat rewrite <- app_assoc. rewrite Hbody.
    unfold stop. destruct (leaves_scope o); reflexivity. }
  assert (E3 : with_local (usb_claim_interface.ctor dh 0)
                 (usb_claim_interface.dtor cxx11)
                 (fun _ => with_local (usb_claim_interface.ctor dh 1)
                             (usb_claim_interface.dtor cxx11)
                             (fun _ => body dh)) w
                 (hist ++ acq0 ++ acq1 ++ [libusb_set_configuration dh 1])
               = (fst stop,
                  [libusb_claim_interface dh 0]
                  ++ [libusb_claim_interface dh 1] ++ snd stop)).
  { apply (with_local_body_stops w _ _ _ _
              (usb_claim_interface.mk dh 0) [libusb_claim_interface dh 0]);
      [| |exact Hstop].
    - rewrite usb_claim_interface_ctor_run. cbv zeta.
      rewrite ltb_nonneg by apply Hclaim. reflexivity.
    - repeat rewrite <- app_assoc. exact E4. }
  assert (E2 : with_local (usb_attach_interface.ctor dh 1)
                 (usb_attach_interface.dtor cxx11)
                 (fun _ =>
                    (r <- call (libusb_set_configuration dh 1);; check r);;
                    with_local (usb_claim_interface.ctor dh 0)
                      (usb_claim_interface.dtor cxx11)
                      (fun _ => with_local (usb_claim_interface.ctor dh 1)
                                  (usb_claim_interface.dtor cxx11)
                                  (fun _ => body dh))) w
                 (hist ++ acq0)
               = (fst stop,
                  acq1 ++ [libusb_set_configuration dh 1]
                  ++ [libusb_claim_interface dh 0]
                  ++ [libusb_claim_interface dh 1] ++ snd stop)).
  { apply (with_local_body_stops w _ _ _ _
              (usb_attach_interface.mk dh 1 was1) acq1); [| |exact Hstop].
    - rewrite usb_attach_interface_ctor_run. cbv zeta. rewrite Hk1.
      unfold acq1. destruct was1; cbn [Z.ltb Z.eqb Z.compare];
        [|reflexivity].
      rewrite ltb_nonneg by apply Hdetach. reflexivity.
    - unfold bind at 1. rewrite set_configuration_run.
      repeat rewrite <- app_assoc. rewrite E3.
      destruct (fst stop); reflexivity. }
  unfold main_guards.
  rewrite (with_local_body_stops w _ _ _ hist
             (usb_attach_interface.mk dh 0 was0) acq0
             (acq1 ++ [libusb_set_configuration dh 1]
              ++ [libusb_claim_interface dh 0]
              ++ [libusb_claim_interface dh 1] ++ snd stop)
             (fst stop)); [| | |exact Hstop].
  - repeat rewrite <- app_assoc. unfold stop.
    destruct (leaves_scope o); reflexivity.
  - rewrite usb_attach_interface_ctor_run. cbv zeta. rewrite Hk0.
    unfold acq0. destruct was0; cbn [Z.ltb Z.eqb Z.compare];
      [|reflexivity].
    rewrite ltb_nonneg by apply Hdetach. reflexivity.
  - exact E2.
Qed.
End MainGuards.

(** ** Short reads *)

Lemma read_data_accepted (dh : handle) (op : Z) (w : host) (hist : list event) :
  (forall tr data, respond w tr (out_transfer dh data) = 32) ->
  read_data dh op w hist =
  (fst (usb_recv dh w (hist ++ send_cmd_trace dh op
                            ++ [out_transfer dh read_request_message])),
   read_data_trace dh op).
Proof.
  intros Hok. rewrite read_data_run.
  rewrite (send_each_accepted dh _ w Hok), usb_send_run, Hok.
  cbn [Z.ltb Z.eqb Z.compare Pos.compare Pos.compare_cont].
  rewrite !usb_recv_run. reflexivity.
Qed.

(** C4, as amended. [usb_recv] of temper.cpp and of the tr1 revision issues
    one inbound transfer and throws the "wrong number of bytes read" error
    exactly when the transfer succeeds with fewer than 256 bytes; it returns
    the report exactly when at least 256 bytes came.  [recv_data] of the
    first revision throws that error exactly when the transfer succeeds with
    fewer than 2 bytes, and returns the buffer from 2 bytes on.  A short
    read in [read_data] leaves it as that exception, and the session of
    temper.cpp then ends with EXIT_FAILURE, after the guards were taken
    down and without any output of a temperature. *)
Theorem recv_short_read_thresholds :
  (forall (dh : handle) (w : host) (hist : list event),
      let r := respond w hist (in_transfer dh) in
      let short_read :=
        runtime_error ("wrong number of bytes read: " ++ decimal r) in
      events_of (usb_recv dh) w hist = [in_transfer dh]
      /\ (outcome_of (usb_recv dh) w hist = Throw short_read <-> 0 <= r < 256)
      /\ (outcome_of (usb_recv dh) w hist = Normal (inbuf w hist) <-> 256 <= r)
      /\ events_of (first_revision.recv_data dh) w hist = [in_transfer dh]
      /\ (outcome_of (first_revision.recv_data dh) w hist = Throw short_read
          <-> 0 <= r < 2)
      /\ (outcome_of (first_revision.recv_data dh) w hist
          = Normal (inbuf w hist) <-> 2 <= r))
  /\ (forall (dh : handle) (op : Z) (w : host) (hist : list event) (r : Z),
        (forall tr data, respond w tr (out_transfer dh data) = 32) ->
        (forall tr, respond w tr (in_transfer dh) = r) ->
        0 <= r < 256 ->
        read_data dh op w hist =
        (Throw (runtime_error ("wrong number of bytes read: " ++ decimal r)),
         read_data_trace dh op))
  /\ (forall n, In n [1; 2; 255] ->
        main (short_read_host n) [] =
        (Normal EXIT_FAILURE,
         locate_trace ++ acquisition_trace 1 true true
         ++ read_data_trace 1 cmd_devtype
         ++ teardown_trace 1 true true
         ++ [libusb_close 1; libusb_exit;
             cerr_exception
               (runtime_error ("wrong number of bytes read: " ++ decimal n))])).
Proof.
  split; [|split].
  - intros dh w hist r short_read.
    unfold outcome_of, events_of. rewrite usb_recv_run, recv_data_run.
    fold r. cbn [fst snd].
    destruct (Z.ltb_spec r 0) as [Hneg|Hpos].
    + destruct (Z.ltb_spec r 2); repeat split; intros; try discriminate;
        try lia; try reflexivity.
    + destruct (Z.ltb_spec r 256); destruct (Z.ltb_spec r 2);
        repeat split; intros; try discriminate; try lia; try reflexivity.
  - intros dh op w hist r Hok Hin Hr.
    rewrite (read_data_accepted dh op w hist Hok), usb_recv_run, Hin.
    cbv zeta. rewrite ltb_nonneg by lia.
    destruct (Z.ltb_spec r 256); [reflexivity|lia].
  - intros n [<-|[<-|[<-|[]]]]; vm_compute; reflexivity.
Qed.

(** The thermometer answers the device-type query with a single byte. *)
Lemma recv_short_read_thresholds_witness :
  read_data 1%nat cmd_devtype (short_read_host 1) [] =
  (Throw (runtime_error "wrong number of bytes read: 1"),
   read_data_trace 1%nat cmd_devtype).
Proof.
  apply (proj1 (proj2 recv_short_read_thresholds) 1%nat cmd_devtype
           (short_read_host 1) [] 1).
  - intros tr data. reflexivity.
  - intros tr. reflexivity.
  - lia.
Defined.

(** C4 as stated fails on the first revision: [recv_data] accepts a
    transfer of 2 bytes, which is short of 256. *)
Lemma recv_data_accepts_a_two_byte_read :
  ~ (forall (dh : handle) (w : host) (hist : list event),
        0 <= respond w hist (in_transfer dh) < 256 ->
        exists e,
          outcome_of (first_revision.recv_data dh) w hist = Throw e).
Proof.
  intros H.
  destruct (H 1%nat (short_read_host 2) []) as [e He].
  - cbn. lia.
  - discriminate He.
Qed.

(** The session of the first revision when every inbound transfer leaves 2
    bytes: it is not aborted, a temperature is written and [main] returns
    EXIT_SUCCESS. *)
Lemma first_revision_main_on_a_two_byte_read (d : dialect) :
  first_revision.main d (short_read_host 2) [] =
  (Normal EXIT_SUCCESS,
   locate_trace
   ++ [libusb_set_configuration 1 1;
       libusb_kernel_driver_active 1 0; libusb_detach_kernel_driver 1 0;
       libusb_claim_interface 1 0;
       libusb_kernel_driver_active 1 1; libusb_detach_kernel_driver 1 1;
       libusb_claim_interface 1 1]
   ++ [out_transfer 1 select_message; out_transfer 1 (command_message 0x43)]
   ++ repeat (out_transfer 1 padding_message) 7
   ++ [out_transfer 1 (command_message 0x54)]
   ++ repeat (out_transfer 1 padding_message) 7
   ++ [out_transfer 1 read_request_message; in_transfer 1;
       cout_float (decode_double (inbuf (short_read_host 2) []))]
   ++ [libusb_release_interface 1 1; libusb_attach_kernel_driver 1 1;
       libusb_release_interface 1 0; libusb_attach_kernel_driver 1 0;
       libusb_close 1; libusb_exit]).
Proof. destruct d; vm_compute; reflexivity. Qed.

(** ** Failures while the guards are taken down *)

(** C2, at the failing input.  When the release of the interface, or the
    reattachment of the kernel driver, fails in a guard's destructor, the
    handler of the destructor's function-try-block reports the error on
    [std::cerr]; control then reaches the end of the handler and the
    exception is thrown again.  In C++11 it meets the destructor's implicit
    [noexcept] and [std::terminate] is called; in C++03 it leaves the
    destructor.  When the destructor was running because another exception
    [e0] was unwinding the stack, [std::terminate] is called in either
    dialect, and [e0] is never handled. *)
Theorem guard_teardown_failure_is_rethrown :
  forall (w : host) (dh : handle) (i r : Z) (hist : list event),
    r < 0 ->
    (respond w hist (libusb_release_interface dh i) = r ->
     usb_claim_interface.dtor cxx11 (usb_claim_interface.mk dh i) w hist
     = (Terminate,
        [libusb_release_interface dh i;
         cerr_destructor "~usb_claim_interface" (usb_error r)])
     /\ usb_claim_interface.dtor cxx03 (usb_claim_interface.mk dh i) w hist
        = (Throw (usb_error r),
           [libusb_release_interface dh i;
            cerr_destructor "~usb_claim_interface" (usb_error r)])
     /\ forall (d : dialect) (e0 : exn),
          with_local (ret (usb_claim_interface.mk dh i))
            (usb_claim_interface.dtor d) (fun _ => @throw unit e0) w hist
          = (Terminate,
             [libusb_release_interface dh i;
              cerr_destructor "~usb_claim_interface" (usb_error r)]))
    /\ (respond w hist (libusb_attach_kernel_driver dh i) = r ->
        usb_attach_interface.dtor cxx11 (usb_attach_interface.mk dh i true)
          w hist
        = (Terminate,
           [libusb_attach_kernel_driver dh i;
            cerr_destructor "~usb_attach_interface" (usb_error r)])
        /\ usb_attach_interface.dtor cxx03 (usb_attach_interface.mk dh i true)
             w hist
           = (Throw (usb_error r),
              [libusb_attach_kernel_driver dh i;
               cerr_destructor "~usb_attach_interface" (usb_error r)])
        /\ forall (d : dialect) (e0 : exn),
             with_local (ret (usb_attach_interface.mk dh i true))
               (usb_attach_interface.dtor d) (fun _ => @throw unit e0) w hist
             = (Terminate,
                [libusb_attach_kernel_driver dh i;
                 cerr_destructor "~usb_attach_interface" (usb_error r)])).
Proof.
  intros w dh i r hist Hneg. split; intros Hr.
  - assert (Hrun : forall d,
      usb_claim_interface.dtor d (usb_claim_interface.mk dh i) w hist
      = (match d with
         | cxx11 => Terminate
         | cxx03 => Throw (usb_error r)
         end,
         [libusb_release_interface dh i;
          cerr_destructor "~usb_claim_interface" (usb_error r)])).
    { intros d. rewrite usb_claim_interface_dtor_run. cbv zeta.
      cbn [usb_claim_interface.h usb_claim_interface.interface].
      rewrite Hr, ltb_neg by exact Hneg. reflexivity. }
    split; [apply (Hrun cxx11)|]. split; [apply (Hrun cxx03)|].
    intros d e0. unfold with_local, ret, throw. rewrite !app_nil_r.
    rewrite Hrun. destruct d; reflexivity.
  - assert (Hrun : forall d,
      usb_attach_interface.dtor d (usb_attach_interface.mk dh i true) w hist
      = (match d with
         | cxx11 => Terminate
         | cxx03 => Throw (usb_error r)
         end,
         [libusb_attach_kernel_driver dh i;
          cerr_destructor "~usb_attach_interface" (usb_error r)])).
    { intros d. rewrite usb_attach_interface_dtor_run. cbv zeta.
      cbn [usb_attach_interface.h usb_attach_interface.interface
           usb_attach_interface.was_attached].
      rewrite Hr, ltb_neg by exact Hneg. reflexivity. }
    split; [apply (Hrun cxx11)|]. split; [apply (Hrun cxx03)|].
    intros d e0. unfold with_local, ret, throw. rewrite !app_nil_r.
    rewrite Hrun. destruct d; reflexivity.
Qed.

(** The thermometer was pulled out: the release of interface 1 fails with
    LIBUSB_ERROR_NO_DEVICE, and the destructor of the guard ends in
    [std::terminate]. *)
Lemma guard_teardown_failure_is_rethrown_witness :
  usb_claim_interface.dtor cxx11 (usb_claim_interface.mk 1 1) unplugged_host []
  = (Terminate,
     [libusb_release_interface 1 1;
      cerr_destructor "~usb_claim_interface" (usb_error LIBUSB_ERROR_NO_DEVICE)]).
Proof.
  refine (proj1 (proj1 (guard_teardown_failure_is_rethrown unplugged_host 1 1
                          LIBUSB_ERROR_NO_DEVICE [] _) _)).
  - reflexivity.
  - reflexivity.
Defined.

(** C6, at the failing input.  With both interfaces claimed, a release of
    interface 1 that fails ends the C++11 program in the destructor of [i2],
    whether the body returned or threw: interface 0 is never released and
    no kernel driver is reattached.  So it is in the session of temper.cpp
    when the thermometer is pulled out after the interfaces were claimed. *)
Theorem release_failure_skips_the_other_guards :
  (forall (A : Type) (w : host) (dh : handle) (was0 was1 : bool)
          (body : handle -> M A) (hist : list event) (r : Z),
      acquires w dh was0 was1 ->
      (forall tr, respond w tr (libusb_release_interface dh 1) = r) ->
      r < 0 ->
      leaves_scope
        (outcome_of (body dh) w (hist ++ acquisition_trace dh was0 was1))
      = true ->
      main_guards cxx11 dh body w hist =
      (Terminate,
       acquisition_trace dh was0 was1
       ++ events_of (body dh) w (hist ++ acquisition_trace dh was0 was1)
       ++ [libusb_release_interface dh 1;
           cerr_destructor "~usb_claim_interface" (usb_error r)]))
  /\ main unplugged_host [] =
     (Terminate,
      locate_trace ++ acquisition_trace 1 true true
      ++ [out_transfer 1 select_message]
      ++ [libusb_release_interface 1 1;
          cerr_destructor "~usb_claim_interface"
            (usb_error LIBUSB_ERROR_NO_DEVICE)])
  /\ existsb (is_release_of 0) (events_of main unplugged_host []) = false
  /\ (forall i,
        existsb (is_attach_of i) (events_of main unplugged_host []) = false).
Proof.
  split; [|split; [vm_compute; reflexivity|split; [reflexivity|]]].
  2:{ intros i. unfold events_of.
      replace (main unplugged_host [])
        with (@Terminate Z,
              locate_trace ++ acquisition_trace 1 true true
              ++ [out_transfer 1 select_message]
              ++ [libusb_release_interface 1 1;
                  cerr_destructor "~usb_claim_interface"
                    (usb_error LIBUSB_ERROR_NO_DEVICE)])
        by (vm_compute; reflexivity).
      reflexivity. }
  intros A w dh was0 was1 body hist r Hacq Hrelease Hneg Hleaves.
  rewrite (main_guards_release_fails w dh was0 was1 Hacq body hist r Hrelease
             Hneg).
  unfold outcome_of, events_of in *.
  destruct (body dh w _) as [o e]. cbn [fst snd] in *.
  rewrite Hleaves. reflexivity.
Qed.

(** The body of temper.cpp's [main], when the thermometer is pulled out
    after the interfaces were claimed. *)
Lemma release_failure_skips_the_other_guards_witness :
  main_guards cxx11 1 (main_body (Z.to_nat msg256_size)) unplugged_host
    locate_trace =
  (Terminate,
   acquisition_trace 1 true true
   ++ events_of (main_body (Z.to_nat msg256_size) 1) unplugged_host
        (locate_trace ++ acquisition_trace 1 true true)
   ++ [libusb_release_interface 1 1;
       cerr_destructor "~usb_claim_interface"
         (usb_error LIBUSB_ERROR_NO_DEVICE)]).
Proof.
  apply (proj1 release_failure_skips_the_other_guards Z unplugged_host 1%nat
           true true (main_body (Z.to_nat msg256_size)) locate_trace
           LIBUSB_ERROR_NO_DEVICE).
  - repeat split; intros; cbn; lia.
  - intros tr. reflexivity.
  - reflexivity.
  - reflexivity.
Defined.

(** The session of the tr1 revision when only the release of interface 1
    fails.  The temperature has been written when the guards are destroyed.
    In C++11 the program ends in [std::terminate] in the destructor of [i2];
    in C++03 the exception leaves that destructor on the normal way out of
    [main]'s block, the other guards are destroyed while it unwinds the
    stack, and [main] returns EXIT_FAILURE. *)
Lemma main_tr1_release_fails_after_the_reading :
  main_tr1 cxx11 (busy_release_host 0x57 0x58) [] =
  (Terminate,
   locate_trace ++ acquisition_trace 1 true true
   ++ read_data_trace 1 cmd_devtype
   ++ send_cmd_trace 1 cmd_reset0
   ++ read_data_trace 1 cmd_getdata_inner
   ++ [cout_float (decode_float (pad_to 256 [0x14; 0x80]))]
   ++ [libusb_release_interface 1 1;
       cerr_destructor "~usb_claim_interface"
         (usb_error LIBUSB_ERROR_NO_DEVICE)])
  /\ main_tr1 cxx03 (busy_release_host 0x57 0x58) [] =
     (Normal EXIT_FAILURE,
      locate_trace ++ acquisition_trace 1 true true
      ++ read_data_trace 1 cmd_devtype
      ++ send_cmd_trace 1 cmd_reset0
      ++ read_data_trace 1 cmd_getdata_inner
      ++ [cout_float (decode_float (pad_to 256 [0x14; 0x80]))]
      ++ [libusb_release_interface 1 1;
          cerr_destructor "~usb_claim_interface"
            (usb_error LIBUSB_ERROR_NO_DEVICE);
          libusb_release_interface 1 0;
          libusb_attach_kernel_driver 1 1; libusb_attach_kernel_driver 1 0;
          libusb_close 1; libusb_exit;
          cerr_exception (usb_error LIBUSB_ERROR_NO_DEVICE)]).
Proof. split; vm_compute; reflexivity. Qed.

(** On every way out of the body, when each release and reattachment
    succeeds: the guards are taken down in the reverse order of their
    construction, each interface is released once, and the kernel driver is
    reattached once to each interface it was bound to. *)
Lemma guards_are_taken_down_in_reverse_order :
  forall (A : Type) (d : dialect) (w : host) (dh : handle) (was0 was1 : bool)
         (body : handle -> M A) (hist : list event),
    acquires w dh was0 was1 ->
    (forall tr i, 0 <= respond w tr (libusb_release_interface dh i)) ->
    (forall tr i, 0 <= respond w tr (libusb_attach_kernel_driver dh i)) ->
    leaves_scope
      (outcome_of (body dh) w (hist ++ acquisition_trace dh was0 was1))
    = true ->
    main_guards d dh body w hist =
    (outcome_of (body dh) w (hist ++ acquisition_trace dh was0 was1),
     acquisition_trace dh was0 was1
     ++ events_of (body dh) w (hist ++ acquisition_trace dh was0 was1)
     ++ [libusb_release_interface dh 1; libusb_release_interface dh 0]
     ++ (if was1 then [libusb_attach_kernel_driver dh 1] else [])
     ++ (if was0 then [libusb_attach_kernel_driver dh 0] else [])).
Proof.
  intros A d w dh was0 was1 body hist Hacq Hrelease Hattach Hleaves.
  rewrite (main_guards_released w dh was0 was1 Hacq d body hist Hrelease
             Hattach).
  unfold outcome_of, events_of in *.
  destruct (body dh w _) as [o e]. cbn [fst snd] in *.
  rewrite Hleaves. reflexivity.
Qed.

(** ** The device-info report *)

Lemma std_copy_run (src : list Z) (count size : nat) (w : host)
    (hist : list event) :
  std_copy src count size w hist =
  (if (count <=? size)%nat then Normal (firstn count src) else Undefined, []).
Proof. unfold std_copy. destruct (count <=? size)%nat; reflexivity. Qed.

(** C10, at the failing input.  In temper.cpp the copy of the device-info
    report runs from [std::begin (dinfo_raw)] to [std::end (dinfo_raw)]: 256
    bytes are written to [dinfo], an object of 8 bytes.  Whenever the
    device-type query returns a report, whatever its bytes, the init block
    runs into undefined behaviour before the device type is looked at. *)
Theorem device_info_copy_overruns_dev_info :
  forall (dh : handle) (w : host) (hist : list event),
    (dev_info.sizeof < Z.to_nat msg256_size)%nat
    /\ main_init (Z.to_nat msg256_size) dh w hist =
       match read_data dh cmd_devtype w hist with
       | (Normal _, e) => (Undefined, e)
       | (Throw x, e) => (Throw x, e)
       | (Terminate, e) => (Terminate, e)
       | (Undefined, e) => (Undefined, e)
       end.
Proof.
  intros dh w hist. split; [apply Nat.ltb_lt; reflexivity|].
  unfold main_init. unfold bind at 1.
  destruct (read_data dh cmd_devtype w hist) as [[raw|x| |] e];
    try reflexivity.
  unfold bind. rewrite std_copy_run.
  replace (Z.to_nat msg256_size <=? dev_info.sizeof)%nat with false
    by reflexivity.
  now rewrite app_nil_r.
Qed.

(** C5, at the failing input.  On a host where every call succeeds, the
    session of temper.cpp ends in undefined behaviour right after the
    device-type query, for every device type the thermometer reports:
    neither is the reset command sent for 0x57, 0x58, nor is an error
    reported and the interfaces released for another type. *)
Theorem main_stops_before_the_dispatch :
  forall type0 type1 : Z,
    main (plugged_host type0 type1) [] =
    (Undefined,
     locate_trace ++ acquisition_trace 1 true true
     ++ read_data_trace 1 cmd_devtype).
Proof. intros type0 type1. vm_compute. reflexivity. Qed.

(** *** The tr1 revision, which copies [sizeof (dev_info)] bytes *)

Lemma at_index_firstn (l : list Z) (n i : nat) :
  (i < n)%nat -> at_index (firstn n l) i = at_index l i.
Proof.
  unfold at_index. revert n i.
  induction l as [|x l IH]; intros n i H.
  - rewrite firstn_nil. reflexivity.
  - destruct n as [|n]; [lia|]. destruct i as [|i]; [reflexivity|].
    cbn. apply IH. lia.
Qed.

(** The device type the init block reads in a report. *)
Lemma dev_type_of_report (raw : msg256) :
  dev_info.dev_type (dev_info.of_bytes (firstn dev_info.sizeof raw))
  = reported_type raw.
Proof.
  unfold dev_info.of_bytes, reported_type. cbn [dev_info.dev_type].
  rewrite !at_index_firstn by (unfold dev_info.sizeof; lia). reflexivity.
Qed.

Lemma main_init_tr1_run (dh : handle) (w : host) (hist : list event) :
  main_init dev_info.sizeof dh w hist =
  match read_data dh cmd_devtype w hist with
  | (Normal raw, e1) =>
      if reported_type raw =? dev_type_temper1
      then
        match send_cmd dh cmd_reset0 w (hist ++ e1) with
        | (o, e2) => (o, e1 ++ e2)
        end
      else (Throw (runtime_error "unknwon device type"), e1)
  | (Throw x, e) => (Throw x, e)
  | (Terminate, e) => (Terminate, e)
  | (Undefined, e) => (Undefined, e)
  end.
Proof.
  unfold main_init. unfold bind at 1.
  destruct (read_data dh cmd_devtype w hist) as [[raw|x| |] e1];
    try reflexivity.
  unfold bind at 1. rewrite std_copy_run. cbn [Nat.leb dev_info.sizeof].
  rewrite app_nil_r. cbn [app].
  change (firstn 8 raw) with (firstn dev_info.sizeof raw).
  rewrite dev_type_of_report.
  destruct (reported_type raw =? dev_type_temper1).
  - destruct (send_cmd dh cmd_reset0 w (hist ++ e1)). reflexivity.
  - unfold throw. now rewrite app_nil_r.
Qed.

Lemma send_cmd_accepted (dh : handle) (op : Z) (w : host) (hist : list event) :
  (forall tr data, respond w tr (out_transfer dh data) = 32) ->
  send_cmd dh op w hist = (Normal tt, send_cmd_trace dh op).
Proof.
  intros Hok. rewrite send_cmd_is_send_each.
  now rewrite (send_each_accepted dh _ w Hok).
Qed.

Lemma read_data_complete (dh : handle) (op : Z) (w : host) (hist : list event) :
  transfers_complete w dh ->
  read_data dh op w hist =
  (Normal (inbuf w (hist ++ request_trace dh op)), read_data_trace dh op).
Proof.
  intros [Hout Hin].
  rewrite (read_data_accepted dh op w hist Hout), usb_recv_run. cbv zeta.
  specialize (Hin (hist ++ send_cmd_trace dh op
                        ++ [out_transfer dh read_request_message])).
  rewrite ltb_nonneg by lia.
  destruct (Z.ltb_spec (respond w (hist ++ send_cmd_trace dh op
                                        ++ [out_transfer dh read_request_message])
                          (in_transfer dh)) 256); [lia|reflexivity].
Qed.

(** The body of the tr1 revision's [main] on a host that completes every
    transfer: the device type in the first two bytes of the first report
    decides between the reset command followed by the read phase, and the
    error. *)
Lemma main_body_tr1_run (dh : handle) (w : host) (hist : list event) :
  transfers_complete w dh ->
  main_body dev_info.sizeof dh w hist =
  if reported_type (inbuf w (hist ++ request_trace dh cmd_devtype))
     =? dev_type_temper1
  then
    (Normal EXIT_SUCCESS,
     read_data_trace dh cmd_devtype ++ send_cmd_trace dh cmd_reset0
     ++ read_data_trace dh cmd_getdata_inner
     ++ [cout_float
           (decode_float
              (inbuf w (hist ++ read_data_trace dh cmd_devtype
                             ++ send_cmd_trace dh cmd_reset0
                             ++ request_trace dh cmd_getdata_inner)))])
  else
    (Throw (runtime_error "unknwon device type"),
     read_data_trace dh cmd_devtype).
Proof.
  intros Hcomplete. unfold main_body. unfold bind at 1.
  rewrite main_init_tr1_run, (read_data_complete dh _ w hist Hcomplete).
  destruct (reported_type _ =? dev_type_temper1); [|reflexivity].
  rewrite (send_cmd_accepted dh _ w _ (proj1 Hcomplete)).
  unfold bind at 1. unfold main_read. unfold bind at 1.
  rewrite (read_data_complete dh _ w _ Hcomplete).
  unfold emit, ret. cbn [app].
  repeat rewrite <- app_assoc. reflexivity.
Qed.

(** X13. The session of the tr1 revision, from the guards on, on a host
    where every call succeeds.  A device that reports the type temper1 gets the
    reset command (the select message, the command message and seven padding
    messages, and no inbound read) and then the read phase; for every other
    type word the session throws "unknwon device type" with no read phase,
    and the interfaces are released all the same. *)
Lemma main_tr1_dispatch :
  forall (d : dialect) (w : host) (dh : handle) (was0 was1 : bool)
         (hist : list event),
    acquires w dh was0 was1 ->
    transfers_complete w dh ->
    releases w dh ->
    let acq := acquisition_trace dh was0 was1 in
    let report := inbuf w (hist ++ acq ++ request_trace dh cmd_devtype) in
    (reported_type report = dev_type_temper1 ->
     main_guards d dh (main_body dev_info.sizeof) w hist =
     (Normal EXIT_SUCCESS,
      acq ++ read_data_trace dh cmd_devtype
      ++ send_cmd_trace dh cmd_reset0
      ++ read_data_trace dh cmd_getdata_inner
      ++ [cout_float
            (decode_float
               (inbuf w (hist ++ acq ++ read_data_trace dh cmd_devtype
                              ++ send_cmd_trace dh cmd_reset0
                              ++ request_trace dh cmd_getdata_inner)))]
      ++ teardown_trace dh was0 was1))
    /\ (reported_type report <> dev_type_temper1 ->
        main_guards d dh (main_body dev_info.sizeof) w hist =
        (Throw (runtime_error "unknwon device type"),
         acq ++ read_data_trace dh cmd_devtype
         ++ teardown_trace dh was0 was1)).
Proof.
  intros d w dh was0 was1 hist Hacq Hcomplete [Hrelease Hattach] acq report.
  rewrite (main_guards_released w dh was0 was1 Hacq d _ hist Hrelease Hattach).
  rewrite (main_body_tr1_run dh w _ Hcomplete).
  fold acq. rewrite <- app_assoc. fold report.
  split; intros Hty.
  - rewrite Hty, Z.eqb_refl. cbn [leaves_scope].
    repeat rewrite <- app_assoc. reflexivity.
  - apply Z.eqb_neq in Hty. rewrite Hty. cbn [leaves_scope].
    repeat rewrite <- app_assoc. reflexivity.
Qed.

(** The two scenarios on [plugged_host]: the type bytes 0x57, 0x58, and the
    type word 0x0000. *)
Lemma main_tr1_on_temper1 (d : dialect) :
  main_tr1 d (plugged_host 0x57 0x58) [] =
  (Normal EXIT_SUCCESS,
   locate_trace ++ acquisition_trace 1 true true
   ++ read_data_trace 1 cmd_devtype
   ++ send_cmd_trace 1 cmd_reset0
   ++ read_data_trace 1 cmd_getdata_inner
   ++ [cout_float (decode_float (pad_to 256 [0x14; 0x80]))]
   ++ teardown_trace 1 true true
   ++ [libusb_close 1; libusb_exit]).
Proof. destruct d; vm_compute; reflexivity. Qed.

Lemma main_tr1_on_unknown_type (d : dialect) :
  main_tr1 d (plugged_host 0 0) [] =
  (Normal EXIT_FAILURE,
   locate_trace ++ acquisition_trace 1 true true
   ++ read_data_trace 1 cmd_devtype
   ++ teardown_trace 1 true true
   ++ [libusb_close 1; libusb_exit;
       cerr_exception (runtime_error "unknwon device type")]).
Proof. destruct d; vm_compute; reflexivity. Qed.

(** *** What the session depends on *)

Section Related.
Variables w1 w2 : host.
Hypothesis answers : same_answers w1 w2.
Hypothesis reports : forall tr, same_prefix (inbuf w1 tr) (inbuf w2 tr).

Lemma related_ret {A} (R : A -> A -> Prop) (a1 a2 : A) :
  R a1 a2 -> related w1 w2 R (ret a1) (ret a2).
Proof. intros H hist. split; [reflexivity | exact H]. Qed.

Lemma related_throw {A} (R : A -> A -> Prop) (x : exn) :
  related w1 w2 R (throw x) (throw x).
Proof. intros hist. split; reflexivity. Qed.

Lemma related_undefined {A} (R : A -> A -> Prop) :
  related w1 w2 R undefined undefined.
Proof. intros hist. split; [reflexivity | exact I]. Qed.

Lemma related_call (ev : event) : related w1 w2 eq (call ev) (call ev).
Proof.
  intros hist. split; [reflexivity|]. cbn. apply (proj1 answers).
Qed.

Lemma related_emit (ev : event) : related w1 w2 eq (emit ev) (emit ev).
Proof. intros hist. split; reflexivity. Qed.

Lemma related_check (e : Z) : related w1 w2 eq (check e) (check e).
Proof.
  intros hist. rewrite !check_run. destruct (e <? 0); split; reflexivity.
Qed.

Lemma related_bind {A B} (R : A -> A -> Prop) (S : B -> B -> Prop)
    (m1 m2 : M A) (f1 f2 : A -> M B) :
  related w1 w2 R m1 m2 ->
  (forall a1 a2, R a1 a2 -> related w1 w2 S (f1 a1) (f2 a2)) ->
  related w1 w2 S (bind m1 f1) (bind m2 f2).
Proof.
  intros Hm Hf hist. destruct (Hm hist) as [He Ho]. unfold bind.
  destruct (m1 w1 hist) as [o1 e1], (m2 w2 hist) as [o2 e2].
  cbn [fst snd] in He, Ho. subst e2.
  destruct o1 as [a1|x1| |], o2 as [a2|x2| |]; cbn in Ho; try contradiction;
    try (split; [reflexivity | exact Ho]).
  destruct (Hf a1 a2 Ho (hist ++ e1)) as [He' Ho'].
  destruct (f1 a1 w1 (hist ++ e1)) as [o1' e1'],
           (f2 a2 w2 (hist ++ e1)) as [o2' e2'].
  cbn [fst snd] in *. subst e2'. split; [reflexivity | exact Ho'].
Qed.

Lemma related_for_loop (n : nat) (body : M unit) :
  related w1 w2 eq body body -> related w1 w2 eq (for_loop n body) (for_loop n body).
Proof.
  intros H. induction n as [|n IH]; cbn [for_loop].
  - apply related_ret. reflexivity.
  - apply (related_bind eq eq); [exact H | intros _ _ _; exact IH].
Qed.

Lemma related_noexcept {A} (R : A -> A -> Prop) (m1 m2 : M A) :
  related w1 w2 R m1 m2 -> related w1 w2 R (noexcept m1) (noexcept m2).
Proof.
  intros Hm hist. destruct (Hm hist) as [He Ho]. unfold noexcept.
  destruct (m1 w1 hist) as [o1 e1], (m2 w2 hist) as [o2 e2].
  cbn [fst snd] in He, Ho. subst e2.
  destruct o1 as [a1|x1| |], o2 as [a2|x2| |]; cbn in Ho; try contradiction;
    split; try reflexivity; try exact Ho; exact I.
Qed.

Lemma related_destructor (d : dialect) (m : M unit) :
  related w1 w2 eq m m -> related w1 w2 eq (destructor d m) (destructor d m).
Proof. destruct d; [trivial | apply related_noexcept]. Qed.

Lemma related_destructor_try_block (body : M unit) (catches : exn -> bool)
    (handler : exn -> M unit) :
  related w1 w2 eq body body ->
  (forall x, related w1 w2 eq (handler x) (handler x)) ->
  related w1 w2 eq (destructor_try_block body catches handler)
    (destructor_try_block body catches handler).
Proof.
  intros Hb Hh hist. destruct (Hb hist) as [He Ho].
  unfold destructor_try_block.
  destruct (body w1 hist) as [o1 e1], (body w2 hist) as [o2 e2].
  cbn [fst snd] in He, Ho. subst e2.
  destruct o1 as [a1|x1| |], o2 as [a2|x2| |]; cbn in Ho; try contradiction;
    try (split; [reflexivity | exact Ho]).
  subst x2. destruct (catches x1); [|split; reflexivity].
  destruct (Hh x1 (hist ++ e1)) as [He' Ho'].
  destruct (handler x1 w1 (hist ++ e1)) as [o1' e1'],
           (handler x1 w2 (hist ++ e1)) as [o2' e2'].
  cbn [fst snd] in *. subst e2'.
  destruct o1' as [a1|y1| |], o2' as [a2|y2| |]; cbn in Ho';
    try contradiction; split; try reflexivity; try exact Ho'; exact I.
Qed.

Lemma related_with_local {G A} (RG : G -> G -> Prop) (R : A -> A -> Prop)
    (c1 c2 : M G) (d1 d2 : G -> M unit) (b1 b2 : G -> M A) :
  related w1 w2 RG c1 c2 ->
  (forall g1 g2, RG g1 g2 -> related w1 w2 eq (d1 g1) (d2 g2)) ->
  (forall g1 g2, RG g1 g2 -> related w1 w2 R (b1 g1) (b2 g2)) ->
  related w1 w2 R (with_local c1 d1 b1) (with_local c2 d2 b2).
Proof.
  intros Hc Hd Hb hist. destruct (Hc hist) as [He Ho]. unfold with_local.
  destruct (c1 w1 hist) as [o1 e1], (c2 w2 hist) as [o2 e2].
  cbn [fst snd] in He, Ho. subst e2.
  destruct o1 as [g1|x1| |], o2 as [g2|x2| |]; cbn in Ho; try contradiction;
    try (split; [reflexivity | exact Ho]).
  destruct (Hb g1 g2 Ho (hist ++ e1)) as [He' Ho'].
  destruct (b1 g1 w1 (hist ++ e1)) as [o1' e1'],
           (b2 g2 w2 (hist ++ e1)) as [o2' e2'].
  cbn [fst snd] in He', Ho'. subst e2'.
  destruct o1' as [a1|y1| |], o2' as [a2|y2| |]; cbn in Ho';
    try contradiction; try (split; [reflexivity | exact Ho']).
  - destruct (Hd g1 g2 Ho (hist ++ e1 ++ e1')) as [He'' Ho''].
    destruct (d1 g1 w1 (hist ++ e1 ++ e1')) as [o1'' e1''],
             (d2 g2 w2 (hist ++ e1 ++ e1')) as [o2'' e2''].
    cbn [fst snd] in He'', Ho''. subst e2''.
    destruct o1'' as [u1|z1| |], o2'' as [u2|z2| |]; cbn in Ho'';
      try contradiction; split; try reflexivity; try exact Ho'; try exact Ho'';
      exact I.
  - destruct (Hd g1 g2 Ho (hist ++ e1 ++ e1')) as [He'' Ho''].
    destruct (d1 g1 w1 (hist ++ e1 ++ e1')) as [o1'' e1''],
             (d2 g2 w2 (hist ++ e1 ++ e1')) as [o2'' e2''].
    cbn [fst snd] in He'', Ho''. subst e2''.
    destruct o1'' as [u1|z1| |], o2'' as [u2|z2| |]; cbn in Ho'';
      try contradiction; split; try reflexivity; try exact Ho'; try exact Ho'';
      exact I.
Qed.
(** Steps through straight-line code that passes equal values on. *)
Ltac related_leaf :=
  first
    [ apply related_ret; reflexivity
    | apply related_throw
    | apply related_undefined
    | apply related_check
    | apply related_call
    | apply related_emit ].
Ltac related_step :=
  first
    [ related_leaf
    | apply (related_bind eq eq); [related_leaf|intros ? ? <-] ].
Ltac related_auto := repeat related_step.

Lemma related_usb_send (dh : handle) (data : msg32) :
  related w1 w2 eq (usb_send dh data) (usb_send dh data).
Proof.
  unfold usb_send. related_auto.
  destruct (negb (_ =? msg32_size)); related_leaf.
Qed.

Lemma related_usb_recv (dh : handle) :
  related w1 w2 same_prefix (usb_recv dh) (usb_recv dh).
Proof.
  intros hist. rewrite !usb_recv_run. cbv zeta.
  rewrite (proj1 answers). split; [reflexivity|]. cbn [fst].
  destruct (respond w2 hist (in_transfer dh) <? 0); [reflexivity|].
  destruct (respond w2 hist (in_transfer dh) <? 256); [reflexivity|].
  apply reports.
Qed.

Lemma related_send_cmd (dh : handle) (op : Z) :
  related w1 w2 eq (send_cmd dh op) (send_cmd dh op).
Proof.
  unfold send_cmd.
  apply (related_bind eq eq); [apply related_usb_send|intros _ _ _].
  apply (related_bind eq eq); [apply related_usb_send|intros _ _ _].
  apply related_for_loop, related_usb_send.
Qed.

Lemma related_read_data (dh : handle) (op : Z) :
  related w1 w2 same_prefix (read_data dh op) (read_data dh op).
Proof.
  unfold read_data.
  apply (related_bind eq same_prefix); [apply related_send_cmd|intros _ _ _].
  apply (related_bind eq same_prefix); [apply related_usb_send|intros _ _ _].
  apply related_usb_recv.
Qed.

Lemma same_prefix_reported_type (r1 r2 : msg256) :
  same_prefix r1 r2 -> reported_type r1 = reported_type r2.
Proof. intros [H0 H1]. unfold reported_type. now rewrite H0, H1. Qed.

Lemma same_prefix_decode_float (r1 r2 : msg256) :
  same_prefix r1 r2 -> decode_float r1 = decode_float r2.
Proof. intros [H0 H1]. unfold decode_float. now rewrite H0, H1. Qed.

Lemma related_main_init_tr1 (dh : handle) :
  related w1 w2 eq (main_init dev_info.sizeof dh)
    (main_init dev_info.sizeof dh).
Proof.
  unfold main_init.
  apply (related_bind same_prefix eq); [apply related_read_data|].
  intros r1 r2 Hr.
  apply (related_bind (fun b1 b2 => b1 = firstn dev_info.sizeof r1
                                    /\ b2 = firstn dev_info.sizeof r2) eq).
  - intros hist. rewrite !std_copy_run. cbn. split; [reflexivity|].
    split; reflexivity.
  - intros b1 b2 [-> ->]. rewrite !dev_type_of_report.
    rewrite (same_prefix_reported_type r1 r2 Hr).
    destruct (reported_type r2 =? dev_type_temper1);
      [apply related_send_cmd | apply related_throw].
Qed.

Lemma related_main_read (dh : handle) :
  related w1 w2 eq (main_read dh) (main_read dh).
Proof.
  unfold main_read.
  apply (related_bind same_prefix eq); [apply related_read_data|].
  intros r1 r2 Hr. rewrite (same_prefix_decode_float r1 r2 Hr).
  apply related_emit.
Qed.

Lemma related_main_body_tr1 (dh : handle) :
  related w1 w2 eq (main_body dev_info.sizeof dh)
    (main_body dev_info.sizeof dh).
Proof.
  unfold main_body.
  apply (related_bind eq eq); [apply related_main_init_tr1|intros _ _ _].
  apply (related_bind eq eq); [apply related_main_read|intros _ _ _].
  related_leaf.
Qed.

Lemma related_usb_device_get (vendor product : Z) :
  related w1 w2 eq (usb_device_get vendor product)
    (usb_device_get vendor product).
Proof.
  unfold usb_device_get. apply (related_with_local eq eq).
  - unfold usb_device_list. related_auto.
    destruct (_ <? 0); related_leaf.
  - intros _ _ _. apply related_emit.
  - intros n _ <-. generalize 0%nat as dev.
    induction (Z.to_nat n) as [|k IH]; intros dev; cbn [usb_device_get_loop].
    + apply related_throw.
    + related_auto.
      intros hist. unfold matches. rewrite (proj2 answers).
      destruct ((idVendor (descriptors w2 dev) =? vendor)
                && (idProduct (descriptors w2 dev) =? product)).
      * revert hist. change (related w1 w2 eq
          (r <- call (libusb_open dev);; check r;; ret dev)
          (r <- call (libusb_open dev);; check r;; ret dev)).
        related_auto.
      * apply IH.
Qed.

Lemma related_main_guards {A} (d : dialect) (dh : handle)
    (body : handle -> M A) :
  related w1 w2 eq (body dh) (body dh) ->
  related w1 w2 eq (main_guards d dh body) (main_guards d dh body).
Proof.
  intros Hbody.
  assert (Hactor : forall i, related w1 w2 eq (usb_attach_interface.ctor dh i)
                               (usb_attach_interface.ctor dh i)).
  { intros i. unfold usb_attach_interface.ctor.
    related_auto. apply (related_bind eq eq); [|intros _ _ _; related_leaf].
    destruct (negb (_ =? 0)); related_auto. }
  assert (Hadtor : forall g, related w1 w2 eq (usb_attach_interface.dtor d g)
                               (usb_attach_interface.dtor d g)).
  { intros g. unfold usb_attach_interface.dtor.
    apply related_destructor, related_destructor_try_block.
    - destruct (usb_attach_interface.was_attached g); related_auto.
    - intros x. apply related_emit. }
  assert (Hcctor : forall i, related w1 w2 eq (usb_claim_interface.ctor dh i)
                               (usb_claim_interface.ctor dh i)).
  { intros i. unfold usb_claim_interface.ctor. related_auto. }
  assert (Hcdtor : forall g, related w1 w2 eq (usb_claim_interface.dtor d g)
                               (usb_claim_interface.dtor d g)).
  { intros g. unfold usb_claim_interface.dtor.
    apply related_destructor, related_destructor_try_block.
    - related_auto.
    - intros x. apply related_emit. }
  unfold main_guards.
  apply (related_with_local eq eq);
    [apply Hactor | intros g _ <-; apply Hadtor | intros a1 _ <-].
  apply (related_with_local eq eq);
    [apply Hactor | intros g _ <-; apply Hadtor | intros a2 _ <-].
  apply (related_bind eq eq); [related_auto|intros _ _ _].
  apply (related_with_local eq eq);
    [apply Hcctor | intros g _ <-; apply Hcdtor | intros i1 _ <-].
  apply (related_with_local eq eq);
    [apply Hcctor | intros g _ <-; apply Hcdtor | intros i2 _ <-].
  exact Hbody.
Qed.

Lemma related_main_tr1 (d : dialect) :
  related w1 w2 eq (main_tr1 d) (main_tr1 d).
Proof.
  unfold main_tr1, main_with.
  assert (Hscope : related w1 w2 eq
                     (main_scope d (main_body dev_info.sizeof))
                     (main_scope d (main_body dev_info.sizeof))).
  { unfold main_scope. apply (related_with_local eq eq).
    - unfold usb_open. related_auto.
    - intros _ _ _. apply related_emit.
    - intros _ _ _. apply (related_with_local eq eq).
      + apply related_usb_device_get.
      + intros dh _ <-. apply related_emit.
      + intros dh _ <-. apply related_main_guards, related_main_body_tr1. }
  intros hist. destruct (Hscope hist) as [He Ho]. unfold main_try_block.
  destruct (main_scope d (main_body dev_info.sizeof) w1 hist) as [o1 e1],
           (main_scope d (main_body dev_info.sizeof) w2 hist) as [o2 e2].
  cbn [fst snd] in He, Ho. subst e2.
  destruct o1 as [a1|x1| |], o2 as [a2|x2| |]; cbn in Ho; try contradiction;
    subst; split; reflexivity.
Qed.
End Related.

(** X14. On two hosts that answer every call alike, and whose inbound reports
    agree on their first two bytes, the session of the tr1 revision ends the
    same way, after the same events and with the same temperature written:
    nothing beyond the first two bytes of a report, and so none of the bytes
    2 to 255 of the device-info report, has any influence on it. *)
Lemma main_tr1_depends_on_two_bytes_of_a_report :
  forall (d : dialect) (w1 w2 : host) (hist : list event),
    same_answers w1 w2 ->
    (forall tr, same_prefix (inbuf w1 tr) (inbuf w2 tr)) ->
    main_tr1 d w1 hist = main_tr1 d w2 hist.
Proof.
  intros d w1 w2 hist Hanswers Hreports.
  destruct (related_main_tr1 w1 w2 Hanswers Hreports d hist) as [He Ho].
  destruct (main_tr1 d w1 hist) as [o1 e1], (main_tr1 d w2 hist) as [o2 e2].
  cbn [fst snd] in He, Ho. subst e2.
  destruct o1 as [a1|x1| |], o2 as [a2|x2| |]; cbn in Ho; try contradiction;
    subst; reflexivity.
Qed.

(** X15. The single guard of the first revision releases and reattaches in
    one try block: a release that fails is reported, the reattachment of the
    kernel driver is skipped, and the exception leaves the destructor as in
    the later revisions. *)
Lemma first_revision_release_failure_skips_the_reattachment :
  forall (d : dialect) (w : host) (dh : handle) (i r : Z) (hist : list event),
    respond w hist (libusb_release_interface dh i) = r ->
    r < 0 ->
    first_revision.claim_interface_dtor d
      (first_revision.mk_claim_interface true dh i) w hist =
    (match d with
     | cxx11 => Terminate
     | cxx03 => Throw (usb_error r)
     end,
     [libusb_release_interface dh i;
      cerr_destructor "~claim_interface" (usb_error r)]).
Proof.
  intros d w dh i r hist Hr Hneg.
  destruct d;
    unfold first_revision.claim_interface_dtor, destructor, noexcept,
      destructor_try_block;
    unfold bind at 1; unfold call at 1; unfold bind at 1;
    rewrite check_run;
    cbn [first_revision.h first_revision.interface];
    rewrite Hr, ltb_neg by exact Hneg; reflexivity.
Qed.

(** * Further properties *)

(** ** The locator on hosts that fail *)

Lemma usb_device_get_loop_unfold (vendor product : Z) (w : host)
    (remaining dev : nat) (hist : list event) :
  usb_device_get_loop vendor product (S remaining) dev w hist =
  let read := libusb_get_device_descriptor dev in
  if respond w hist read <? 0
  then (Throw (usb_error (respond w hist read)), [read])
  else if matches w vendor product dev
  then
    (if respond w (hist ++ [read]) (libusb_open dev) <? 0
     then Throw (usb_error (respond w (hist ++ [read]) (libusb_open dev)))
     else Normal dev,
     [read; libusb_open dev])
  else
    match usb_device_get_loop vendor product remaining (S dev) w
            (hist ++ [read]) with
    | (o, e2) => (o, read :: e2)
    end.
Proof.
  cbn [usb_device_get_loop]. unfold bind at 1. unfold call at 1.
  unfold bind at 1. rewrite check_run. cbv zeta.
  destruct (respond w hist (libusb_get_device_descriptor dev) <? 0);
    [reflexivity|].
  rewrite app_nil_r. cbn [app].
  destruct (matches w vendor product dev).
  - unfold bind, call. rewrite check_run.
    destruct (_ <? 0); reflexivity.
  - destruct (usb_device_get_loop vendor product remaining (S dev) w _).
    reflexivity.
Qed.

Lemma usb_device_get_loop_invariant (vendor product : Z) (w : host) :
  forall remaining dev hist,
  exists k opened,
    snd (usb_device_get_loop vendor product remaining dev w hist)
    = map libusb_get_device_descriptor (seq dev k) ++ opened
    /\ (k <= remaining)%nat
    /\ (forall j, (dev <= j)%nat -> (S j < dev + k)%nat ->
                  matches w vendor product j = false)
    /\ (opened = []
        \/ exists d, opened = [libusb_open d] /\ (dev + k = S d)%nat
                     /\ matches w vendor product d = true)
    /\ (forall d, fst (usb_device_get_loop vendor product remaining dev w hist)
                  = Normal d -> opened = [libusb_open d])
    /\ leaves_scope (fst (usb_device_get_loop vendor product remaining dev w hist))
       = true.
Proof.
  induction remaining as [|remaining IH]; intros dev hist.
  - exists 0%nat, []. cbn. repeat split; auto; try lia; discriminate.
  - rewrite usb_device_get_loop_unfold. cbv zeta.
    destruct (respond w hist (libusb_get_device_descriptor dev) <? 0).
    { exists 1%nat, []. cbn. repeat split; auto; try lia; discriminate. }
    destruct (matches w vendor product dev) eqn:Hm.
    { exists 1%nat, [libusb_open dev]. cbn [fst snd map seq app].
      split; [reflexivity|]. split; [lia|]. split; [intros; lia|].
      split; [right; exists dev; repeat split; [lia|exact Hm]|].
      destruct (_ <? 0); cbn; split; try reflexivity; intros d H;
        try discriminate H. now injection H as ->. }
    destruct (IH (S dev) (hist ++ [libusb_get_device_descriptor dev]))
      as (k & opened & He & Hk & Hnone & Hopen & Hret & Hleave).
    destruct (usb_device_get_loop vendor product remaining (S dev) w _)
      as [o e2]. cbn [fst snd] in *.
    exists (S k), opened. cbn [seq map app]. rewrite He.
    split; [reflexivity|]. split; [lia|]. split.
    { intros j Hj1 Hj2. destruct (Nat.eq_dec j dev) as [->|Hne];
        [exact Hm|apply Hnone; lia]. }
    split.
    { destruct Hopen as [->|(d & -> & Hd & Hmd)]; [left; reflexivity|].
      right. exists d. repeat split; [lia|exact Hmd]. }
    split; assumption.
Qed.

(** X1. Whatever the host answers once the enumeration has succeeded, the
    locator reads descriptors in enumeration order, opens at most one
    device, which then matches while none before it does, and frees the
    device list exactly once, as the last thing it does.  It returns a
    handle only for the device it opened, and it ends by returning or by
    throwing. *)
Theorem usb_device_get_opens_at_most_one_and_frees_the_list :
  forall (vendor product : Z) (w : host) (hist : list event) (n : nat),
    respond w hist libusb_get_device_list = Z.of_nat n ->
    exists k opened,
      events_of (usb_device_get vendor product) w hist
      = libusb_get_device_list
        :: map libusb_get_device_descriptor (seq 0 k)
        ++ opened ++ [libusb_free_device_list]
      /\ (k <= n)%nat
      /\ (forall j, (S j < k)%nat -> matches w vendor product j = false)
      /\ (opened = []
          \/ exists d, opened = [libusb_open d] /\ k = S d
                       /\ matches w vendor product d = true)
      /\ (forall d, outcome_of (usb_device_get vendor product) w hist
                    = Normal d -> opened = [libusb_open d])
      /\ leaves_scope (outcome_of (usb_device_get vendor product) w hist)
         = true.
Proof.
  intros vendor product w hist n Hn.
  unfold events_of, outcome_of.
  rewrite (usb_device_get_run vendor product w n hist Hn).
  destruct (usb_device_get_loop_invariant vendor product w n 0
              (hist ++ [libusb_get_device_list]))
    as (k & opened & He & Hk & Hnone & Hopen & Hret & Hleave).
  destruct (usb_device_get_loop vendor product n 0 w _) as [o e2].
  cbn [fst snd] in *. exists k, opened.
  destruct o as [d|x| |]; try discriminate Hleave; cbn [fst snd app];
    rewrite He, <- app_assoc;
    (split; [reflexivity|]); (split; [exact Hk|]);
    (split; [intros j Hj; apply Hnone; lia|]);
    (split; [exact Hopen|]); (split; [exact Hret|reflexivity]).
Qed.

(** On [plugged_host] two descriptors are read and the second device is
    opened. *)
Lemma usb_device_get_opens_at_most_one_and_frees_the_list_witness :
  exists k opened,
    events_of (usb_device_get 0x1130 0x660c) (plugged_host 0x57 0x58) []
    = libusb_get_device_list
      :: map libusb_get_device_descriptor (seq 0 k)
      ++ opened ++ [libusb_free_device_list]
    /\ (k <= 2)%nat
    /\ (forall j, (S j < k)%nat ->
                  matches (plugged_host 0x57 0x58) 0x1130 0x660c j = false)
    /\ (opened = []
        \/ exists d, opened = [libusb_open d] /\ k = S d
                     /\ matches (plugged_host 0x57 0x58) 0x1130 0x660c d = true)
    /\ (forall d, outcome_of (usb_device_get 0x1130 0x660c)
                    (plugged_host 0x57 0x58) []
                  = Normal d -> opened = [libusb_open d])
    /\ leaves_scope (outcome_of (usb_device_get 0x1130 0x660c)
                       (plugged_host 0x57 0x58) [])
       = true.
Proof.
  apply (usb_device_get_opens_at_most_one_and_frees_the_list 0x1130 0x660c
           (plugged_host 0x57 0x58) [] 2).
  reflexivity.
Defined.

(** X2. When the first matching device cannot be opened, the locator throws
    the [usb_error] of [libusb_open] and frees the list: it reads no further
    descriptor and tries no other device, even if a later one matches. *)
Theorem usb_device_get_does_not_try_a_second_match :
  forall (vendor product : Z) (w : host) (hist : list event) (n i : nat)
         (r : Z),
    respond w hist libusb_get_device_list = Z.of_nat n ->
    (forall tr dev, 0 <= respond w tr (libusb_get_device_descriptor dev)) ->
    (i < n)%nat ->
    matches w vendor product i = true ->
    (forall j, (j < i)%nat -> matches w vendor product j = false) ->
    (forall tr, respond w tr (libusb_open i) = r) ->
    r < 0 ->
    usb_device_get vendor product w hist =
    (Throw (usb_error r),
     [libusb_get_device_list]
     ++ map libusb_get_device_descriptor (seq 0 (S i))
     ++ [libusb_open i; libusb_free_device_list]).
Proof.
  intros vendor product w hist n i r Hn Hdesc Hi Hmatch Hbefore Hopen Hneg.
  rewrite (usb_device_get_run vendor product w n hist Hn).
  assert (Hloop : forall remaining dev h,
    (dev <= i < dev + remaining)%nat ->
    usb_device_get_loop vendor product remaining dev w h =
    (Throw (usb_error r),
     map libusb_get_device_descriptor (seq dev (S i - dev)) ++ [libusb_open i])).
  { induction remaining as [|remaining IH]; intros dev h Hrange; [lia|].
    rewrite usb_device_get_loop_unfold. cbv zeta.
    rewrite ltb_nonneg by apply Hdesc.
    destruct (Nat.eq_dec dev i) as [->|Hne].
    - rewrite Hmatch, Hopen, ltb_neg by exact Hneg.
      replace (S i - i)%nat with 1%nat by lia. reflexivity.
    - rewrite (Hbefore dev) by lia. rewrite (IH (S dev)) by lia.
      replace (S i - dev)%nat with (S (S i - S dev)) by lia. reflexivity. }
  rewrite (Hloop n 0%nat) by lia.
  rewrite Nat.sub_0_r, <- app_assoc. reflexivity.
Qed.

(** Both devices of [locked_host] match; the first cannot be opened and the
    second is never looked at. *)
Lemma usb_device_get_does_not_try_a_second_match_witness :
  usb_device_get 0x1130 0x660c locked_host [] =
  (Throw (usb_error LIBUSB_ERROR_ACCESS),
   [libusb_get_device_list; libusb_get_device_descriptor 0;
    libusb_open 0; libusb_free_device_list]).
Proof.
  apply (usb_device_get_does_not_try_a_second_match 0x1130 0x660c locked_host
           [] 2 0 LIBUSB_ERROR_ACCESS).
  - reflexivity.
  - intros tr dev. cbn. lia.
  - lia.
  - reflexivity.
  - intros j Hj. lia.
  - intros tr. reflexivity.
  - reflexivity.
Defined.

(** X3. When the descriptor of a device cannot be read before any device
    has matched, the locator throws the [usb_error] of that read and frees
    the list; no device is opened, whatever the devices after it are. *)
Theorem usb_device_get_stops_at_an_unreadable_descriptor :
  forall (vendor product : Z) (w : host) (hist : list event) (n i : nat)
         (r : Z),
    respond w hist libusb_get_device_list = Z.of_nat n ->
    (i < n)%nat ->
    (forall tr j, (j < i)%nat ->
                  0 <= respond w tr (libusb_get_device_descriptor j)) ->
    (forall j, (j < i)%nat -> matches w vendor product j = false) ->
    (forall tr, respond w tr (libusb_get_device_descriptor i) = r) ->
    r < 0 ->
    usb_device_get vendor product w hist =
    (Throw (usb_error r),
     [libusb_get_device_list]
     ++ map libusb_get_device_descriptor (seq 0 (S i))
     ++ [libusb_free_device_list]).
Proof.
  intros vendor product w hist n i r Hn Hi Hdesc Hbefore Hread Hneg.
  rewrite (usb_device_get_run vendor product w n hist Hn).
  assert (Hloop : forall remaining dev h,
    (dev <= i < dev + remaining)%nat ->
    usb_device_get_loop vendor product remaining dev w h =
    (Throw (usb_error r),
     map libusb_get_device_descriptor (seq dev (S i - dev)))).
  { induction remaining as [|remaining IH]; intros dev h Hrange; [lia|].
    rewrite usb_device_get_loop_unfold. cbv zeta.
    destruct (Nat.eq_dec dev i) as [->|Hne].
    - rewrite Hread, ltb_neg by exact Hneg.
      replace (S i - i)%nat with 1%nat by lia. reflexivity.
    - rewrite ltb_nonneg by (apply Hdesc; lia).
      rewrite (Hbefore dev) by lia. rewrite (IH (S dev)) by lia.
      replace (S i - dev)%nat with (S (S i - S dev)) by lia. reflexivity. }
  rewrite (Hloop n 0%nat) by lia.
  rewrite Nat.sub_0_r. reflexivity.
Qed.

(** The descriptor of the first device of [unreadable_host 2] cannot be
    read; the thermometer behind it is never reached. *)
Lemma usb_device_get_stops_at_an_unreadable_descriptor_witness :
  usb_device_get 0x1130 0x660c (unreadable_host 2) [] =
  (Throw (usb_error LIBUSB_ERROR_IO),
   [libusb_get_device_list; libusb_get_device_descriptor 0;
    libusb_free_device_list]).
Proof.
  apply (usb_device_get_stops_at_an_unreadable_descriptor 0x1130 0x660c
           (unreadable_host 2) [] 2 0 LIBUSB_ERROR_IO).
  - reflexivity.
  - lia.
  - intros tr j Hj. lia.
  - intros j Hj. lia.
  - intros tr. reflexivity.
  - reflexivity.
Defined.

(** X4. The result of [libusb_get_device_list] is never checked.  When the
    enumeration fails, with a negative result, the locator goes on with a
    list pointer that was never set: its behaviour is undefined, and so is
    that of [main] in every revision, which reports no error and does not
    shut the context down. *)
Theorem failed_enumeration_is_not_detected :
  forall (w : host) (hist : list event) (r : Z),
    respond w hist libusb_init >= 0 ->
    respond w (hist ++ [libusb_init]) libusb_get_device_list = r ->
    r < 0 ->
    (forall vendor product,
        usb_device_get vendor product w (hist ++ [libusb_init])
        = (Undefined, [libusb_get_device_list]))
    /\ (forall d copy_count,
          main_with d copy_count w hist
          = (Undefined, [libusb_init; libusb_get_device_list]))
    /\ (forall d,
          first_revision.main d w hist
          = (Undefined, [libusb_init; libusb_get_device_list])).
Proof.
  intros w hist r Hinit Hlist Hneg.
  assert (Hget : forall vendor product,
    usb_device_get vendor product w (hist ++ [libusb_init])
    = (Undefined, [libusb_get_device_list])).
  { intros vendor product.
    unfold usb_device_get, with_local, usb_device_list, bind, call.
    rewrite Hlist, ltb_neg by exact Hneg. reflexivity. }
  split; [exact Hget|]. split.
  - intros d copy_count.
    unfold main_with, main_try_block, main_scope. unfold with_local at 1.
    rewrite usb_open_run, ltb_nonneg by lia.
    unfold with_local at 1. rewrite Hget. reflexivity.
  - intros d.
    unfold first_revision.main, main_try_block. unfold with_local at 1.
    rewrite usb_open_run, ltb_nonneg by lia.
    unfold with_local at 1. rewrite Hget. reflexivity.
Qed.

(** The enumeration of [unreadable_host] fails with LIBUSB_ERROR_NO_MEM. *)
Lemma failed_enumeration_is_not_detected_witness :
  main (unreadable_host LIBUSB_ERROR_NO_MEM) []
  = (Undefined, [libusb_init; libusb_get_device_list]).
Proof.
  refine (proj1 (proj2 (failed_enumeration_is_not_detected
                          (unreadable_host LIBUSB_ERROR_NO_MEM) []
                          LIBUSB_ERROR_NO_MEM _ _ _)) cxx11 _).
  - cbn. lia.
  - reflexivity.
  - reflexivity.
Defined.

(** ** Guards that cannot be acquired *)

Lemma with_local_ctor_throws {G A} (ctor : M G) (dtor : G -> M unit)
    (body : G -> M A) (w : host) (hist : list event) (e : exn)
    (e1 : list event) :
  ctor w hist = (Throw e, e1) ->
  with_local ctor dtor body w hist = (Throw e, e1).
Proof. intros H. unfold with_local. rewrite H. reflexivity. Qed.

Lemma set_configuration_checked (w : host) (dh : handle) (hist : list event) :
  (r <- call (libusb_set_configuration dh 1);; check r) w hist =
  (let r := respond w hist (libusb_set_configuration dh 1) in
   if r <? 0 then Throw (usb_error r) else Normal r,
   [libusb_set_configuration dh 1]).
Proof.
  unfold bind, call. rewrite check_run. cbv zeta.
  destruct (respond w hist _ <? 0); reflexivity.
Qed.

(** X5. What [main]'s guard declarations do when an acquisition fails.  On a
    host that answers the second driver query with [k1], the detachment of
    interface 1 with [t1], [libusb_set_configuration] with [c] and the two
    claims with [c0] and [c1], and on which releases and reattachments
    succeed: the first negative answer in program order is thrown as a
    [usb_error], nothing is acquired after it, the statements after [i2]
    do not run, and exactly the guards constructed before it are taken down,
    in reverse order; the guard whose constructor failed is not (a claim
    that failed is not released, a driver whose detachment failed is not
    reattached).  When no answer is negative the body runs between the
    full acquisition and the full teardown. *)
Theorem main_guards_unwinds_what_was_acquired :
  forall (A : Type) (d : dialect) (dh : handle) (body : handle -> M A)
         (w : host) (hist : list event) (was0 : bool) (k1 t1 c c0 c1 : Z),
    (forall tr, respond w tr (libusb_kernel_driver_active dh 0)
                = if was0 then 1 else 0) ->
    (forall tr, 0 <= respond w tr (libusb_detach_kernel_driver dh 0)) ->
    (forall tr, respond w tr (libusb_kernel_driver_active dh 1) = k1) ->
    (forall tr, respond w tr (libusb_detach_kernel_driver dh 1) = t1) ->
    (forall tr, respond w tr (libusb_set_configuration dh 1) = c) ->
    (forall tr, respond w tr (libusb_claim_interface dh 0) = c0) ->
    (forall tr, respond w tr (libusb_claim_interface dh 1) = c1) ->
    releases w dh ->
    let was1 := negb (k1 =? 0) in
    let acq0 := libusb_kernel_driver_active dh 0
                :: (if was0 then [libusb_detach_kernel_driver dh 0] else []) in
    let acq1 := libusb_kernel_driver_active dh 1
                :: (if was1 then [libusb_detach_kernel_driver dh 1] else []) in
    let re0 := if was0 then [libusb_attach_kernel_driver dh 0] else [] in
    let re1 := if was1 then [libusb_attach_kernel_driver dh 1] else [] in
    main_guards d dh body w hist =
    if k1 <? 0
    then (Throw (usb_error k1),
          acq0 ++ [libusb_kernel_driver_active dh 1] ++ re0)
    else if was1 && (t1 <? 0)
    then (Throw (usb_error t1), acq0 ++ acq1 ++ re0)
    else if c <? 0
    then (Throw (usb_error c),
          acq0 ++ acq1 ++ [libusb_set_configuration dh 1] ++ re1 ++ re0)
    else if c0 <? 0
    then (Throw (usb_error c0),
          acq0 ++ acq1
          ++ [libusb_set_configuration dh 1; libusb_claim_interface dh 0]
          ++ re1 ++ re0)
    else if c1 <? 0
    then (Throw (usb_error c1),
          acq0 ++ acq1
          ++ [libusb_set_configuration dh 1; libusb_claim_interface dh 0;
              libusb_claim_interface dh 1; libusb_release_interface dh 0]
          ++ re1 ++ re0)
    else
      match body dh w (hist ++ acquisition_trace dh was0 was1) with
      | (o, e) =>
          (o, acquisition_trace dh was0 was1 ++ e
              ++ (if leaves_scope o then teardown_trace dh was0 was1 else []))
      end.
Proof.
  intros A d dh body w hist was0 k1 t1 c c0 c1
         Hk0 Hdet0 Hk1 Ht1 Hc Hc0 Hc1 [Hrelease Hattach]
         was1 acq0 acq1 re0 re1.
  unfold main_guards.
  rewrite (attach_scope_run w dh d 0 was0) by auto. fold acq0.
  destruct (k1 <? 0) eqn:Ek1.
  { (* the second driver query fails *)
    rewrite (with_local_ctor_throws _ _ _ w _ (usb_error k1)
               [libusb_kernel_driver_active dh 1]).
    2:{ rewrite usb_attach_interface_ctor_run. cbv zeta.
        rewrite Hk1, Ek1. reflexivity. }
    cbn [leaves_scope andb]. unfold re0. destruct was0; reflexivity. }
  destruct (was1 && (t1 <? 0)) eqn:Et1.
  { (* the detachment of interface 1 fails *)
    apply andb_prop in Et1. destruct Et1 as [Ewas1 Et1].
    rewrite (with_local_ctor_throws _ _ _ w _ (usb_error t1) acq1).
    2:{ rewrite usb_attach_interface_ctor_run. cbv zeta.
        rewrite Hk1, Ek1, Ht1, Et1. unfold acq1. rewrite Ewas1.
        unfold was1 in Ewas1. apply negb_true_iff in Ewas1.
        rewrite Ewas1. reflexivity. }
    cbn [leaves_scope andb]. unfold re0.
    destruct was0; cbn [app]; rewrite ?app_nil_r; reflexivity. }
  assert (Hdet1 : was1 = true ->
                  forall tr, 0 <= respond w tr (libusb_detach_kernel_driver dh 1)).
  { intros Ewas1 tr. rewrite Ht1. rewrite Ewas1 in Et1. cbn in Et1.
    apply Z.ltb_ge. exact Et1. }
  assert (Hctor1 : forall h,
    usb_attach_interface.ctor dh 1 w h
    = (Normal (usb_attach_interface.mk dh 1 was1), acq1)).
  { intros h. rewrite usb_attach_interface_ctor_run. cbv zeta.
    rewrite Hk1, Ek1. unfold acq1, was1 in *.
    destruct (k1 =? 0); cbn [negb]; [reflexivity|].
    rewrite ltb_nonneg by (apply Hdet1; reflexivity). reflexivity. }
  rewrite (with_local_constructed _ _ _ w _ _ _ (Hctor1 _)).
  rewrite attach_scope_reattached by auto.
  unfold bind at 1. rewrite set_configuration_checked. cbv zeta. rewrite Hc.
  destruct (c <? 0) eqn:Ec.
  { cbn [leaves_scope andb]. unfold re1, re0.
    destruct was0, was1; cbn [app]; repeat rewrite <- app_assoc; reflexivity. }
  destruct (c0 <? 0) eqn:Ec0.
  { (* the claim of interface 0 fails *)
    rewrite (with_local_ctor_throws _ _ _ w _ (usb_error c0)
               [libusb_claim_interface dh 0]).
    2:{ rewrite usb_claim_interface_ctor_run. cbv zeta.
        rewrite Hc0, Ec0. reflexivity. }
    cbn [leaves_scope andb]. unfold re1, re0.
    destruct was0, was1; cbn [app]; repeat rewrite <- app_assoc; reflexivity. }
  assert (Hclaim0 : forall tr, 0 <= respond w tr (libusb_claim_interface dh 0)).
  { intros tr. rewrite Hc0. apply Z.ltb_ge. exact Ec0. }
  rewrite (claim_scope_run w dh d 0) by auto.
  destruct (c1 <? 0) eqn:Ec1.
  { (* the claim of interface 1 fails *)
    rewrite (with_local_ctor_throws _ _ _ w _ (usb_error c1)
               [libusb_claim_interface dh 1]).
    2:{ rewrite usb_claim_interface_ctor_run. cbv zeta.
        rewrite Hc1, Ec1. reflexivity. }
    cbn [leaves_scope andb]. unfold re1, re0.
    destruct was0, was1; cbn [app]; repeat rewrite <- app_assoc; reflexivity. }
  assert (Hclaim1 : forall tr, 0 <= respond w tr (libusb_claim_interface dh 1)).
  { intros tr. rewrite Hc1. apply Z.ltb_ge. exact Ec1. }
  rewrite (claim_scope_run w dh d 1) by auto.
  unfold acquisition_trace, teardown_trace. fold acq0 acq1.
  unfold acq0, acq1.
  repeat rewrite <- app_assoc. cbn [app].
  repeat rewrite <- app_assoc. cbn [app].
  destruct was0, was1; cbn [app];
    destruct (body dh w _) as [[a|e| |] eb]; cbn [leaves_scope andb app];
      repeat rewrite <- app_assoc; cbn [app];
      try rewrite app_nil_r; reflexivity.
Qed.

(** On [claimed_host] interface 1 cannot be claimed: the claim of interface
    0 is released and both kernel drivers are reattached; interface 1 is
    not released. *)
Lemma main_guards_unwinds_what_was_acquired_witness :
  main_guards cxx11 1 (main_body dev_info.sizeof) claimed_host locate_trace =
  (Throw (usb_error LIBUSB_ERROR_BUSY),
   [libusb_kernel_driver_active 1 0; libusb_detach_kernel_driver 1 0;
    libusb_kernel_driver_active 1 1; libusb_detach_kernel_driver 1 1;
    libusb_set_configuration 1 1;
    libusb_claim_interface 1 0; libusb_claim_interface 1 1;
    libusb_release_interface 1 0;
    libusb_attach_kernel_driver 1 1; libusb_attach_kernel_driver 1 0]).
Proof.
  apply (main_guards_unwinds_what_was_acquired Z cxx11 1%nat
           (main_body dev_info.sizeof)
           claimed_host locate_trace true 1 0 0 0 LIBUSB_ERROR_BUSY).
  - intros tr. reflexivity.
  - intros tr. cbn. lia.
  - intros tr. reflexivity.
  - intros tr. reflexivity.
  - intros tr. reflexivity.
  - intros tr. reflexivity.
  - intros tr. reflexivity.
  - split; intros tr i; cbn; destruct i; try lia; destruct p; lia.
Defined.

(** ** The single guard of the first revision *)

Lemma claim_interface_ctor_run (dh : handle) (i : Z) (w : host)
    (hist : list event) :
  first_revision.claim_interface_ctor dh i w hist =
  (let active := libusb_kernel_driver_active dh i in
   let detach := libusb_detach_kernel_driver dh i in
   let claim := libusb_claim_interface dh i in
   let r := respond w hist active in
   if r <? 0 then (Throw (usb_error r), [active])
   else
     let try_attach := negb (r =? 0) in
     let acq := active :: (if try_attach then [detach] else []) in
     let r' := respond w (hist ++ [active]) detach in
     if try_attach && (r' <? 0) then (Throw (usb_error r'), acq)
     else
       let r'' := respond w (hist ++ acq) claim in
       if r'' <? 0 then (Throw (usb_error r''), acq ++ [claim])
       else (Normal (first_revision.mk_claim_interface try_attach dh i),
             acq ++ [claim])).
Proof.
  unfold first_revision.claim_interface_ctor. unfold bind at 1. unfold call at 1.
  unfold bind at 1. rewrite check_run. cbv zeta.
  destruct (respond w hist (libusb_kernel_driver_active dh i) <? 0);
    [reflexivity|].
  rewrite app_nil_r. cbn [app].
  destruct (respond w hist (libusb_kernel_driver_active dh i) =? 0);
    cbn [negb andb].
  - unfold bind, call, ret. rewrite check_run. cbn [app].
    rewrite ?app_nil_r.
    destruct (respond w _ (libusb_claim_interface dh i) <? 0); reflexivity.
  - unfold bind at 1. unfold bind at 1. unfold call at 1.
    unfold bind at 1. rewrite check_run.
    destruct (respond w _ (libusb_detach_kernel_driver dh i) <? 0);
      [reflexivity|].
    unfold ret at 1. cbn [app]. rewrite ?app_nil_r.
    unfold bind, call, ret. rewrite check_run. rewrite <- ?app_assoc. cbn [app].
    destruct (respond w _ (libusb_claim_interface dh i) <? 0); reflexivity.
Qed.

(** X6. The guard of the first revision detaches the kernel driver and
    claims the interface in one constructor.  When the driver was bound and
    has been detached, and the claim then fails, the constructor throws, the
    guard's destructor never runs, and the driver stays detached: no
    [libusb_attach_kernel_driver] is issued.  The two guards of the later
    revisions, on the same host, reattach the driver while the failed claim
    unwinds. *)
Theorem first_revision_failed_claim_leaves_the_driver_detached :
  forall (A B : Type) (d : dialect) (dh : handle) (i k r : Z)
         (body1 : first_revision.claim_interface -> M A)
         (body2 : usb_claim_interface.t -> M B)
         (w : host) (hist : list event),
    (forall tr, respond w tr (libusb_kernel_driver_active dh i) = k) ->
    0 < k ->
    (forall tr, 0 <= respond w tr (libusb_detach_kernel_driver dh i)) ->
    (forall tr, respond w tr (libusb_claim_interface dh i) = r) ->
    r < 0 ->
    (forall tr, 0 <= respond w tr (libusb_attach_kernel_driver dh i)) ->
    with_local (first_revision.claim_interface_ctor dh i)
      (first_revision.claim_interface_dtor d) body1 w hist
    = (Throw (usb_error r),
       [libusb_kernel_driver_active dh i; libusb_detach_kernel_driver dh i;
        libusb_claim_interface dh i])
    /\ with_local (usb_attach_interface.ctor dh i)
         (usb_attach_interface.dtor d)
         (fun _ => with_local (usb_claim_interface.ctor dh i)
                     (usb_claim_interface.dtor d) body2) w hist
       = (Throw (usb_error r),
          [libusb_kernel_driver_active dh i; libusb_detach_kernel_driver dh i;
           libusb_claim_interface dh i; libusb_attach_kernel_driver dh i]).
Proof.
  intros A B d dh i k r body1 body2 w hist Hk Hpos Hdetach Hclaim Hneg Hattach.
  assert (Hk0 : (k <? 0) = false) by (apply Z.ltb_ge; lia).
  assert (Hk1 : (k =? 0) = false) by (apply Z.eqb_neq; lia).
  split.
  - apply with_local_ctor_throws.
    rewrite claim_interface_ctor_run. cbv zeta.
    rewrite Hk, Hk0, Hk1. cbn [negb andb].
    rewrite (ltb_nonneg _ (Hdetach _)), Hclaim, (ltb_neg _ Hneg).
    reflexivity.
  - rewrite (with_local_constructed _ _ _ w hist
               (usb_attach_interface.mk dh i true)
               [libusb_kernel_driver_active dh i;
                libusb_detach_kernel_driver dh i]).
    2:{ rewrite usb_attach_interface_ctor_run. cbv zeta.
        rewrite Hk, Hk0, Hk1, (ltb_nonneg _ (Hdetach _)). reflexivity. }
    rewrite attach_scope_reattached by exact Hattach.
    rewrite (with_local_ctor_throws _ _ _ w _ (usb_error r)
               [libusb_claim_interface dh i]).
    + reflexivity.
    + rewrite usb_claim_interface_ctor_run. cbv zeta.
      rewrite Hclaim, (ltb_neg _ Hneg). reflexivity.
Qed.

(** On [claimed_host] the claim of interface 1 fails after its driver was
    detached. *)
Lemma first_revision_failed_claim_leaves_the_driver_detached_witness :
  with_local (first_revision.claim_interface_ctor 1 1)
    (first_revision.claim_interface_dtor cxx11)
    (fun _ => first_revision.main_protocol 1) claimed_host []
  = (Throw (usb_error LIBUSB_ERROR_BUSY),
     [libusb_kernel_driver_active 1 1; libusb_detach_kernel_driver 1 1;
      libusb_claim_interface 1 1]).
Proof.
  refine (proj1 (first_revision_failed_claim_leaves_the_driver_detached
                   msg256 msg256 cxx11 1%nat 1 1 LIBUSB_ERROR_BUSY
                   (fun _ => first_revision.main_protocol 1)
                   (fun _ => first_revision.main_protocol 1)
                   claimed_host [] _ _ _ _ _ _)).
  - intros tr. reflexivity.
  - lia.
  - intros tr. cbn. lia.
  - intros tr. reflexivity.
  - reflexivity.
  - intros tr. cbn. lia.
Defined.

(** ** The outcome of the command protocol *)

Lemma send_each_outcome (dh : handle) (msgs : list msg32) (w : host) :
  forall hist,
    match send_each dh msgs w hist with
    | (Normal _, evs) =>
        evs = map (out_transfer dh) msgs /\ accepts_each w dh hist msgs
    | (Throw e, evs) =>
        exists k m,
          nth_error msgs k = Some m
          /\ evs = map (out_transfer dh) (firstn (S k) msgs)
          /\ accepts_each w dh hist (firstn k msgs)
          /\ send_failure
               (respond w (hist ++ map (out_transfer dh) (firstn k msgs))
                  (out_transfer dh m)) e
    | _ => False
    end.
Proof.
  induction msgs as [|m msgs IH]; intros hist.
  - cbn. split; [reflexivity | exact I].
  - cbn [send_each]. unfold bind. rewrite usb_send_run. cbv zeta.
    destruct (Z.ltb_spec (respond w hist (out_transfer dh m)) 0) as [Hneg|Hpos].
    { exists 0%nat, m. cbn. rewrite app_nil_r.
      repeat split. left. split; [exact Hneg | reflexivity]. }
    destruct (Z.eqb_spec (respond w hist (out_transfer dh m)) 32) as [H32|H32].
    2:{ exists 0%nat, m. cbn. rewrite app_nil_r.
        repeat split. right. repeat split; assumption. }
    specialize (IH (hist ++ [out_transfer dh m])).
    destruct (send_each dh msgs w (hist ++ [out_transfer dh m]))
      as [[u|e| |] e2]; try contradiction.
    + destruct IH as [-> Hacc]. split; [reflexivity|]. split; assumption.
    + destruct IH as (k & m' & Hnth & -> & Hacc & Hfail).
      exists (S k), m'. cbn [nth_error firstn map app accepts_each].
      rewrite <- app_assoc in Hfail. cbn [app] in Hfail.
      repeat split; assumption.
Qed.

Lemma firstn_app_l {A} (l1 l2 : list A) (k : nat) :
  (k <= List.length l1)%nat -> firstn k (l1 ++ l2) = firstn k l1.
Proof.
  intros Hk. rewrite firstn_app.
  replace (k - List.length l1)%nat with 0%nat by lia.
  cbn [firstn]. apply app_nil_r.
Qed.

Lemma accepts_each_app (w : host) (dh : handle) (l1 l2 : list msg32) :
  forall hist,
    accepts_each w dh hist (l1 ++ l2) <->
    accepts_each w dh hist l1
    /\ accepts_each w dh (hist ++ map (out_transfer dh) l1) l2.
Proof.
  induction l1 as [|m l1 IH]; intros hist; cbn [app accepts_each map].
  - rewrite app_nil_r. tauto.
  - rewrite IH, <- app_assoc. cbn [app]. tauto.
Qed.

(** X7. How [read_data] ends, on any host.  It returns a report only after
    the whole sequence was issued, the host having accepted each of the ten
    outbound messages and filled the 256 bytes of the inbound buffer; and
    the report is the content of that buffer.  Otherwise it throws the
    exception of the last transfer it issued, with every message before
    that one accepted: the error code of the transfer, or the message about
    the wrong number of bytes.  Nothing is retried, and no other outcome
    exists. *)
Theorem read_data_returns_a_complete_report_or_the_last_failure :
  forall (dh : handle) (op : Z) (w : host) (hist : list event),
    read_data_trace dh op
    = map (out_transfer dh) (read_data_messages op) ++ [in_transfer dh]
    /\ match read_data dh op w hist with
       | (Normal report, evs) =>
           evs = read_data_trace dh op
           /\ accepts_each w dh hist (read_data_messages op)
           /\ 256 <= respond w (hist ++ request_trace dh op) (in_transfer dh)
           /\ report = inbuf w (hist ++ request_trace dh op)
       | (Throw e, evs) =>
           (exists k m,
               nth_error (read_data_messages op) k = Some m
               /\ evs = firstn (S k) (read_data_trace dh op)
               /\ accepts_each w dh hist (firstn k (read_data_messages op))
               /\ send_failure
                    (respond w (hist ++ firstn k (read_data_trace dh op))
                       (out_transfer dh m)) e)
           \/ (evs = read_data_trace dh op
               /\ accepts_each w dh hist (read_data_messages op)
               /\ recv_failure 256
                    (respond w (hist ++ request_trace dh op) (in_transfer dh))
                    e)
       | _ => False
       end.
Proof.
  intros dh op w hist. split; [reflexivity|].
  assert (Hsplit : read_data_messages op
                   = ([select_message; command_message op]
                      ++ repeat padding_message 7) ++ [read_request_message])
    by reflexivity.
  assert (Hmap : forall k, (k <= 10)%nat ->
    map (out_transfer dh) (firstn k (read_data_messages op))
    = firstn k (read_data_trace dh op)).
  { intros k Hk. do 11 (destruct k as [|k]; [reflexivity|]). lia. }
  rewrite read_data_run.
  pose proof (send_each_outcome dh
                ([select_message; command_message op]
                 ++ repeat padding_message 7) w hist) as Hsend.
  destruct (send_each dh _ w hist) as [[u|e| |] e1]; try contradiction.
  2:{ destruct Hsend as (k & m & Hnth & -> & Hacc & Hfail).
      assert (Hk : (k < 9)%nat).
      { change 9%nat
          with (List.length ([select_message; command_message op]
                             ++ repeat padding_message 7)).
        apply nth_error_Some. rewrite Hnth. discriminate. }
      assert (Hfirst : forall j, (j <= 9)%nat ->
                firstn j (read_data_messages op)
                = firstn j ([select_message; command_message op]
                            ++ repeat padding_message 7)).
      { intros j Hj. rewrite Hsplit. apply firstn_app_l. cbn. lia. }
      left. exists k, m. split; [|split; [|split]].
      - rewrite Hsplit, nth_error_app1; [exact Hnth|]. exact Hk.
      - rewrite <- Hmap, Hfirst by lia. reflexivity.
      - rewrite Hfirst by lia. exact Hacc.
      - rewrite <- Hmap, Hfirst by lia. exact Hfail. }
  destruct Hsend as [-> Hacc].
  rewrite usb_send_run. cbv zeta.
  set (sent := map (out_transfer dh)
                 ([select_message; command_message op]
                  ++ repeat padding_message 7)).
  destruct (Z.ltb_spec (respond w (hist ++ sent)
                          (out_transfer dh read_request_message)) 0)
    as [Hneg|Hpos].
  { left. exists 9%nat, read_request_message.
    split; [reflexivity|]. split; [reflexivity|]. split; [exact Hacc|].
    left. split; [exact Hneg | reflexivity]. }
  destruct (Z.eqb_spec (respond w (hist ++ sent)
                          (out_transfer dh read_request_message)) 32)
    as [H32|H32].
  2:{ left. exists 9%nat, read_request_message.
      split; [reflexivity|]. split; [reflexivity|]. split; [exact Hacc|].
      right. repeat split; assumption. }
  assert (Hall : accepts_each w dh hist (read_data_messages op)).
  { rewrite Hsplit. apply accepts_each_app. split; [exact Hacc|].
    split; [exact H32 | exact I]. }
  rewrite usb_recv_run. cbv zeta.
  change (hist ++ sent ++ [out_transfer dh read_request_message])
    with (hist ++ request_trace dh op).
  destruct (Z.ltb_spec (respond w (hist ++ request_trace dh op)
                          (in_transfer dh)) 0) as [Hneg'|Hpos'].
  { right. split; [reflexivity|]. split; [exact Hall|].
    left. split; [exact Hneg'|reflexivity]. }
  destruct (Z.ltb_spec (respond w (hist ++ request_trace dh op)
                          (in_transfer dh)) 256) as [Hshort|Hfull].
  { right. split; [reflexivity|]. split; [exact Hall|].
    right. split; [lia|reflexivity]. }
  split; [reflexivity|]. split; [exact Hall|]. split; [exact Hfull|reflexivity].
Qed.

Lemma bind_pointwise {A B} (m1 m2 : M A) (f1 f2 : A -> M B) :
  (forall w hist, m1 w hist = m2 w hist) ->
  (forall a w hist, f1 a w hist = f2 a w hist) ->
  forall w hist, bind m1 f1 w hist = bind m2 f2 w hist.
Proof.
  intros Hm Hf w hist. unfold bind. rewrite Hm.
  destruct (m2 w hist) as [[a| | |] e1]; try reflexivity.
  rewrite Hf. reflexivity.
Qed.

Lemma bind_assoc {A B C} (m : M A) (f : A -> M B) (g : B -> M C) :
  forall w hist,
    bind (bind m f) g w hist = bind m (fun a => bind (f a) g) w hist.
Proof.
  intros w hist. unfold bind.
  destruct (m w hist) as [[a| | |] e1]; try reflexivity.
  destruct (f a w (hist ++ e1)) as [[b| | |] e2]; try reflexivity.
  rewrite <- app_assoc.
  destruct (g b w (hist ++ e1 ++ e2)) as [o e3].
  rewrite <- app_assoc. reflexivity.
Qed.

Lemma send_then_run {A} (dh : handle) (msgs : list msg32) (k : M A) :
  forall w hist,
    send_then dh msgs k w hist = (send_each dh msgs;; k) w hist.
Proof.
  induction msgs as [|m msgs IH]; intros w hist; cbn [send_then send_each].
  - unfold bind, ret. rewrite app_nil_r. cbn [app].
    destruct (k w hist) as [o e]. reflexivity.
  - rewrite bind_assoc. apply bind_pointwise; [reflexivity|].
    intros _. exact IH.
Qed.

Lemma send_data_then {A} (dh : handle) (data : first_revision.msg)
    (k k' : M A) :
  (forall w hist, k w hist = k' w hist) ->
  forall w hist,
    (first_revision.send_data dh data;; k) w hist
    = send_then dh [first_revision.fill_buf data] k' w hist.
Proof.
  intros Hk. cbn [send_then]. apply bind_pointwise.
  - apply send_data_run.
  - intros _. exact Hk.
Qed.

Lemma for_loop_then {A} (dh : handle) (data : first_revision.msg) (n : nat)
    (k k' : M A) :
  (forall w hist, k w hist = k' w hist) ->
  forall w hist,
    (for_loop n (first_revision.send_data dh data);; k) w hist
    = send_then dh (repeat (first_revision.fill_buf data) n) k' w hist.
Proof.
  intros Hk. induction n as [|n IH]; intros w hist;
    cbn [for_loop repeat send_then].
  - unfold bind, ret. rewrite app_nil_r. cbn [app]. rewrite Hk.
    destruct (k' w hist) as [o e]. reflexivity.
  - rewrite bind_assoc. apply bind_pointwise; [apply send_data_run|].
    intros _. exact IH.
Qed.

Lemma main_protocol_run (dh : handle) (w : host) (hist : list event) :
  first_revision.main_protocol dh w hist
  = (send_each dh main_protocol_messages;; first_revision.recv_data dh) w hist.
Proof.
  rewrite <- send_then_run. unfold first_revision.main_protocol.
  revert w hist.
  change (send_then dh main_protocol_messages (first_revision.recv_data dh))
    with (send_then dh [first_revision.fill_buf first_revision.select_device]
         (send_then dh
            [first_revision.fill_buf first_revision.increase_precision]
         (send_then dh
            (repeat (first_revision.fill_buf first_revision.padding) 7)
         (send_then dh
            [first_revision.fill_buf first_revision.get_temperature]
         (send_then dh
            (repeat (first_revision.fill_buf first_revision.padding) 7)
         (send_then dh [first_revision.fill_buf first_revision.close_device]
            (first_revision.recv_data dh))))))).
  apply send_data_then, send_data_then, for_loop_then, send_data_then,
    for_loop_then, send_data_then.
  reflexivity.
Qed.

(** X8. The protocol of the first revision, on any host: one sequence of
    eighteen outbound messages and one inbound read, issued in this order
    and never retried.  It is the sequence of the later revisions' reset
    command followed by their read of the inner sensor, without the second
    select-device message.  A report is returned only after the whole
    sequence, every message accepted and at least two bytes read; otherwise
    the exception of the last transfer issued is thrown. *)
Theorem first_revision_protocol_is_one_sequence_with_one_read :
  forall (dh : handle) (w : host) (hist : list event),
    main_protocol_trace dh
    = send_cmd_trace dh cmd_reset0 ++ tl (read_data_trace dh cmd_getdata_inner)
    /\ match first_revision.main_protocol dh w hist with
       | (Normal report, evs) =>
           evs = main_protocol_trace dh
           /\ accepts_each w dh hist main_protocol_messages
           /\ 2 <= respond w (hist ++ removelast (main_protocol_trace dh))
                     (in_transfer dh)
           /\ report = inbuf w (hist ++ removelast (main_protocol_trace dh))
       | (Throw e, evs) =>
           (exists k m,
               nth_error main_protocol_messages k = Some m
               /\ evs = firstn (S k) (main_protocol_trace dh)
               /\ accepts_each w dh hist (firstn k main_protocol_messages)
               /\ send_failure
                    (respond w (hist ++ firstn k (main_protocol_trace dh))
                       (out_transfer dh m)) e)
           \/ (evs = main_protocol_trace dh
               /\ accepts_each w dh hist main_protocol_messages
               /\ recv_failure 2
                    (respond w (hist ++ removelast (main_protocol_trace dh))
                       (in_transfer dh)) e)
       | _ => False
       end.
Proof.
  intros dh w hist. split; [reflexivity|].
  assert (Hlast : removelast (main_protocol_trace dh)
                  = map (out_transfer dh) main_protocol_messages)
    by reflexivity.
  assert (Hmap : forall k, (k <= 18)%nat ->
    map (out_transfer dh) (firstn k main_protocol_messages)
    = firstn k (main_protocol_trace dh)).
  { intros k Hk. unfold main_protocol_trace.
    rewrite firstn_app_l by (rewrite length_map; cbn; lia).
    symmetry. apply firstn_map. }
  rewrite main_protocol_run, Hlast. unfold bind.
  pose proof (send_each_outcome dh main_protocol_messages w hist) as Hsend.
  destruct (send_each dh _ w hist) as [[u|e| |] e1]; try contradiction.
  2:{ destruct Hsend as (k & m & Hnth & -> & Hacc & Hfail).
      assert (Hk : (k < 18)%nat).
      { change 18%nat with (List.length main_protocol_messages).
        apply nth_error_Some. rewrite Hnth. discriminate. }
      left. exists k, m. split; [|split; [|split]].
      - exact Hnth.
      - apply Hmap. lia.
      - exact Hacc.
      - rewrite <- Hmap by lia. exact Hfail. }
  destruct Hsend as [-> Hacc].
  rewrite recv_data_run. cbv zeta.
  destruct (Z.ltb_spec (respond w (hist ++ map (out_transfer dh)
                                              main_protocol_messages)
                          (in_transfer dh)) 0) as [Hneg|Hpos].
  { right. split; [reflexivity|]. split; [exact Hacc|].
    left. split; [exact Hneg|reflexivity]. }
  destruct (Z.ltb_spec (respond w (hist ++ map (out_transfer dh)
                                              main_protocol_messages)
                          (in_transfer dh)) 2) as [Hshort|Hfull].
  { right. split; [reflexivity|]. split; [exact Hacc|].
    right. split; [lia|reflexivity]. }
  split; [reflexivity|]. split; [exact Hacc|]. split; [exact Hfull|reflexivity].
Qed.

(** ** Exit status and output *)

Lemma readings_app (l1 l2 : list event) :
  readings (l1 ++ l2) = (readings l1 + readings l2)%nat.
Proof. unfold readings. rewrite filter_app. apply length_app. Qed.

Lemma quiet_readings (evs : list event) :
  Forall quiet evs -> readings evs = 0%nat.
Proof.
  unfold readings. induction 1 as [|ev evs Hev _ IH]; [reflexivity|].
  cbn [filter]. unfold quiet in Hev. apply orb_false_elim in Hev.
  rewrite (proj1 Hev). exact IH.
Qed.

Lemma quiet_no_diagnostic (evs : list event) :
  Forall quiet evs -> Forall (fun ev => is_cerr_exception ev = false) evs.
Proof.
  apply Forall_impl. intros ev Hev. unfold quiet in Hev.
  apply orb_false_elim in Hev. exact (proj2 Hev).
Qed.

(** What the statements of a session emit are events on the device. *)
Section DeviceEvents.
Variable P : event -> Prop.
Hypothesis transfer : forall ev, is_transfer ev = true -> P ev.
Hypothesis claiming : forall ev, is_claiming ev = true -> P ev.
Hypothesis driver : forall ev, is_driver_call ev = true -> P ev.
Hypothesis housekeeping : forall ev, is_housekeeping ev = true -> P ev.
Variable d : dialect.

Ltac device_event :=
  intros;
  first [ apply transfer; reflexivity | apply claiming; reflexivity
        | apply driver; reflexivity | apply housekeeping; reflexivity ].

Lemma device_usb_send (dh : handle) (data : msg32) :
  emits P (usb_send dh data).
Proof.
  intros w hist. unfold events_of. rewrite usb_send_run.
  repeat constructor. device_event.
Qed.

Lemma device_usb_recv (dh : handle) : emits P (usb_recv dh).
Proof.
  intros w hist. unfold events_of. rewrite usb_recv_run.
  repeat constructor. device_event.
Qed.

Lemma device_send_cmd (dh : handle) (op : Z) : emits P (send_cmd dh op).
Proof.
  unfold send_cmd.
  apply emits_bind; [apply device_usb_send | intros _].
  apply emits_bind; [apply device_usb_send | intros _].
  apply emits_for_loop, device_usb_send.
Qed.

Lemma device_read_data (dh : handle) (op : Z) : emits P (read_data dh op).
Proof.
  unfold read_data.
  apply emits_bind; [apply device_send_cmd | intros _].
  apply emits_bind; [apply device_usb_send | intros _].
  apply device_usb_recv.
Qed.

Lemma device_main_init (copy_count : nat) (dh : handle) :
  emits P (main_init copy_count dh).
Proof.
  unfold main_init.
  apply emits_bind; [apply device_read_data | intros raw].
  apply emits_bind.
  - unfold std_copy. destruct (_ <=? _)%nat; auto with emits.
  - intros b. destruct (_ =? _); [apply device_send_cmd | auto with emits].
Qed.

Lemma device_set_configuration (dh : handle) :
  emits P (r <- call (libusb_set_configuration dh 1);; check r).
Proof.
  apply emits_bind; [apply emits_call; device_event | auto with emits].
Qed.

Lemma device_usb_attach_interface_ctor (dh : handle) (i : Z) :
  emits P (usb_attach_interface.ctor dh i).
Proof.
  unfold usb_attach_interface.ctor.
  apply emits_bind; [apply emits_call; device_event | intros r].
  apply emits_bind; [auto with emits | intros r'].
  apply emits_bind; [|auto with emits].
  destruct (negb (r' =? 0)); [|auto with emits].
  apply emits_bind; [apply emits_call; device_event | intros r''].
  apply emits_bind; auto with emits.
Qed.

Lemma device_usb_attach_interface_dtor (g : usb_attach_interface.t) :
  emits P (usb_attach_interface.dtor d g).
Proof.
  unfold usb_attach_interface.dtor.
  apply emits_destructor, emits_destructor_try_block.
  - destruct (usb_attach_interface.was_attached g); [|auto with emits].
    apply emits_bind; [apply emits_call; device_event | intros r].
    apply emits_bind; auto with emits.
  - intros e. apply emits_emit. device_event.
Qed.

Lemma device_usb_claim_interface_ctor (dh : handle) (i : Z) :
  emits P (usb_claim_interface.ctor dh i).
Proof.
  unfold usb_claim_interface.ctor.
  apply emits_bind; [apply emits_call; device_event | intros r].
  apply emits_bind; auto with emits.
Qed.

Lemma device_usb_claim_interface_dtor (g : usb_claim_interface.t) :
  emits P (usb_claim_interface.dtor d g).
Proof.
  unfold usb_claim_interface.dtor.
  apply emits_destructor, emits_destructor_try_block.
  - apply emits_bind; [apply emits_call; device_event | intros r].
    apply emits_bind; auto with emits.
  - intros e. apply emits_emit. device_event.
Qed.

Lemma device_claim_interface_ctor (dh : handle) (i : Z) :
  emits P (first_revision.claim_interface_ctor dh i).
Proof.
  unfold first_revision.claim_interface_ctor.
  apply emits_bind; [apply emits_call; device_event | intros r].
  apply emits_bind; [auto with emits | intros _].
  apply emits_bind.
  { destruct (negb (r =? 0)); [|auto with emits].
    apply emits_bind; [apply emits_call; device_event | intros r''].
    apply emits_bind; auto with emits. }
  intros _. apply emits_bind; [apply emits_call; device_event | intros r'].
  apply emits_bind; auto with emits.
Qed.

Lemma device_claim_interface_dtor (g : first_revision.claim_interface) :
  emits P (first_revision.claim_interface_dtor d g).
Proof.
  unfold first_revision.claim_interface_dtor.
  apply emits_destructor, emits_destructor_try_block.
  - apply emits_bind; [apply emits_call; device_event | intros r].
    apply emits_bind; [auto with emits | intros _].
    destruct (first_revision.try_attach g); [|auto with emits].
    apply emits_bind; [apply emits_call; device_event | intros r'].
    apply emits_bind; auto with emits.
  - intros e. apply emits_emit. device_event.
Qed.

Lemma device_main_protocol (dh : handle) :
  emits P (first_revision.main_protocol dh).
Proof.
  assert (Hsend : forall data, emits P (first_revision.send_data dh data)).
  { intros data w hist. unfold events_of.
    rewrite send_data_run, usb_send_run. repeat constructor. device_event. }
  unfold first_revision.main_protocol.
  apply emits_bind; [apply Hsend | intros _].
  apply emits_bind; [apply Hsend | intros _].
  apply emits_bind; [apply emits_for_loop, Hsend | intros _].
  apply emits_bind; [apply Hsend | intros _].
  apply emits_bind; [apply emits_for_loop, Hsend | intros _].
  apply emits_bind; [apply Hsend | intros _].
  intros w hist. unfold events_of. rewrite recv_data_run.
  repeat constructor. device_event.
Qed.

Lemma device_main_guards_of {A} (dh : handle) (body : handle -> M A) :
  emits P (body dh) -> emits P (main_guards d dh body).
Proof.
  intros Hbody. unfold main_guards.
  apply emits_with_local;
    [ apply device_usb_attach_interface_ctor
    | apply device_usb_attach_interface_dtor | intros a1 ].
  apply emits_with_local;
    [ apply device_usb_attach_interface_ctor
    | apply device_usb_attach_interface_dtor | intros a2 ].
  apply emits_bind; [apply device_set_configuration | intros _].
  apply emits_with_local;
    [ apply device_usb_claim_interface_ctor
    | apply device_usb_claim_interface_dtor | intros i1 ].
  apply emits_with_local;
    [ apply device_usb_claim_interface_ctor
    | apply device_usb_claim_interface_dtor | intros i2 ].
  exact Hbody.
Qed.

(** The guarded statements of [main], with the temperature they write. *)
Lemma device_main_guards (copy_count : nat) (dh : handle) :
  (forall value, P (cout_float value)) ->
  emits P (main_guards d dh (main_body copy_count)).
Proof.
  intros Hcout. apply device_main_guards_of. unfold main_body.
  apply emits_bind; [apply device_main_init | intros _].
  apply emits_bind; [|auto with emits].
  unfold main_read.
  apply emits_bind; [apply device_read_data | intros raw].
  apply emits_emit, Hcout.
Qed.

Lemma device_first_revision_guards (dh : handle) :
  (forall value, P (cout_float value)) ->
  emits P
    ((r <- call (libusb_set_configuration dh 1);; check r);;
     with_local (first_revision.claim_interface_ctor dh 0)
       (first_revision.claim_interface_dtor d) (fun i1 =>
     with_local (first_revision.claim_interface_ctor dh 1)
       (first_revision.claim_interface_dtor d) (fun i2 =>
     r <- first_revision.main_protocol dh;;
     emit (cout_float (decode_double r));;
     ret EXIT_SUCCESS))).
Proof.
  intros Hcout.
  apply emits_bind; [apply device_set_configuration | intros _].
  apply emits_with_local;
    [ apply device_claim_interface_ctor
    | apply device_claim_interface_dtor | intros i1 ].
  apply emits_with_local;
    [ apply device_claim_interface_ctor
    | apply device_claim_interface_dtor | intros i2 ].
  apply emits_bind; [apply device_main_protocol | intros raw].
  apply emits_bind; [apply emits_emit, Hcout | auto with emits].
Qed.
End DeviceEvents.

Lemma quiet_device (ev : event) : is_device_event ev = true -> quiet ev.
Proof. destruct ev; intros H; try discriminate H; reflexivity. Qed.

Lemma device_transfer (ev : event) :
  is_transfer ev = true -> is_device_event ev = true.
Proof. destruct ev; intros H; try discriminate H; reflexivity. Qed.

Lemma device_claiming (ev : event) :
  is_claiming ev = true -> is_device_event ev = true.
Proof. destruct ev; intros H; try discriminate H; reflexivity. Qed.

Lemma device_driver (ev : event) :
  is_driver_call ev = true -> is_device_event ev = true.
Proof. destruct ev; intros H; try discriminate H; reflexivity. Qed.

Lemma device_housekeeping (ev : event) :
  is_housekeeping ev = true -> is_device_event ev = true.
Proof. destruct ev; intros H; try discriminate H; reflexivity. Qed.

(** A property [H] of all the events on the device holds of each kind. *)
Ltac device_side H :=
  let ev := fresh "ev" in
  let Hev := fresh "Hev" in
  intros ev Hev; apply H;
  first [ apply device_transfer; exact Hev | apply device_claiming; exact Hev
        | apply device_driver; exact Hev
        | apply device_housekeeping; exact Hev ].

Ltac quiet_event := intros; reflexivity.

Lemma quiet_usb_open : emits quiet usb_open.
Proof.
  unfold usb_open. apply emits_bind; [apply emits_call; quiet_event|intros r].
  apply emits_bind; auto with emits.
Qed.

Section Verdict.
Variable d : dialect.

Lemma destructor_throws_in_cxx03_only {G} (m : G -> M unit) :
  throws_in_cxx03_only d (fun g => destructor d (m g)).
Proof.
  intros g w hist e. destruct d; [reflexivity|].
  unfold destructor, noexcept.
  destruct (m g w hist) as [[u|e'| |] e1]; discriminate.
Qed.

Lemma emit_throws_in_cxx03_only {G} (ev : G -> event) :
  throws_in_cxx03_only d (fun g => emit (ev g)).
Proof. intros g w hist e. discriminate. Qed.

Lemma verdict_with_local {G} (ctor : M G) (dtor : G -> M unit)
    (body : G -> M Z) :
  emits quiet ctor -> (forall g, emits quiet (dtor g)) ->
  throws_in_cxx03_only d dtor ->
  (forall g w hist, scope_verdict d (body g w hist)) ->
  forall w hist, scope_verdict d (with_local ctor dtor body w hist).
Proof.
  intros Hc Hd Hthrow Hb w hist. specialize (Hc w hist).
  unfold events_of, with_local in *.
  destruct (ctor w hist) as [[g|e| |] e1]; cbn [snd] in Hc;
    try (split; cbn [fst snd];
         [ apply quiet_no_diagnostic; exact Hc
         | rewrite (quiet_readings _ Hc); try split; intros; lia ]).
  specialize (Hb g w (hist ++ e1)).
  destruct (body g w (hist ++ e1)) as [ob e2].
  destruct Hb as [Hcerr Hb]. cbn [fst snd] in Hcerr, Hb.
  pose proof (quiet_readings _ Hc) as Hr1.
  pose proof (quiet_no_diagnostic _ Hc) as Hc1.
  specialize (Hd g w (hist ++ e1 ++ e2)). unfold events_of in Hd.
  specialize (Hthrow g w (hist ++ e1 ++ e2)).
  destruct ob as [a|e| |];
    try (split; cbn [fst snd];
         [ apply Forall_app; split; assumption
         | rewrite readings_app; lia ]).
  - destruct (dtor g w (hist ++ e1 ++ e2)) as [[u|e'| |] e3];
      cbn [fst snd] in *;
      pose proof (quiet_readings _ Hd) as Hr3;
      pose proof (quiet_no_diagnostic _ Hd) as Hc3;
      (split; cbn [fst snd];
       [ repeat (apply Forall_app; split); assumption
       | rewrite !readings_app ]).
    + split; [tauto | lia].
    + split; [lia|]. intros ->. discriminate (Hthrow e' eq_refl).
    + lia.
    + lia.
  - destruct (dtor g w (hist ++ e1 ++ e2)) as [[u|e'| |] e3];
      cbn [fst snd] in *;
      pose proof (quiet_readings _ Hd) as Hr3;
      pose proof (quiet_no_diagnostic _ Hd) as Hc3;
      (split; cbn [fst snd];
       [ repeat (apply Forall_app; split); assumption
       | rewrite !readings_app ]).
    + split; [lia|]. intros Hd11. specialize (proj2 Hb Hd11). lia.
    + lia.
    + lia.
    + lia.
Qed.

Lemma verdict_bind {A} (m : M A) (f : A -> M Z) :
  emits quiet m ->
  (forall a w hist, scope_verdict d (f a w hist)) ->
  forall w hist, scope_verdict d (bind m f w hist).
Proof.
  intros Hm Hf w hist. specialize (Hm w hist). unfold events_of, bind in *.
  destruct (m w hist) as [[a|e| |] e1]; cbn [snd] in Hm;
    try (split; cbn [fst snd];
         [ apply quiet_no_diagnostic; exact Hm
         | rewrite (quiet_readings _ Hm); try split; intros; lia ]).
  specialize (Hf a w (hist ++ e1)).
  destruct (f a w (hist ++ e1)) as [o e2].
  destruct Hf as [Hcerr Hf]. cbn [fst snd] in Hcerr, Hf.
  split; cbn [fst snd].
  - apply Forall_app. split; [apply quiet_no_diagnostic|]; assumption.
  - rewrite readings_app, (quiet_readings _ Hm). exact Hf.
Qed.

(** A report is read, the temperature is written, and the statements
    return EXIT_SUCCESS. *)
Lemma verdict_output {A} (m : M A) (value : A -> spec_float) :
  emits quiet m ->
  forall w hist,
    scope_verdict d
      ((a <- m;; emit (cout_float (value a));; ret EXIT_SUCCESS) w hist).
Proof.
  intros Hm. apply verdict_bind; [exact Hm|].
  intros a w hist. split; cbn; [repeat constructor | split; reflexivity].
Qed.

Lemma verdict_main_try_block (body : M Z) :
  (forall w hist, scope_verdict d (body w hist)) ->
  forall w hist, session_verdict d (main_try_block body w hist).
Proof.
  intros Hb w hist. specialize (Hb w hist). unfold main_try_block.
  destruct (body w hist) as [[s|e| |] evs]; destruct Hb as [Hcerr Hb];
    cbn [fst snd] in *.
  - left. destruct Hb as [-> Hone]. repeat split; assumption.
  - right. split; [reflexivity|]. exists e, evs.
    rewrite readings_app. cbn. rewrite !Nat.add_0_r.
    repeat split; try assumption; tauto.
  - split; assumption.
  - split; assumption.
Qed.
End Verdict.

Lemma session_verdict_main_with (d : dialect) (copy_count : nat) (w : host)
    (hist : list event) :
  session_verdict d (main_with d copy_count w hist).
Proof.
  unfold main_with. apply verdict_main_try_block. clear w hist.
  unfold main_scope.
  apply verdict_with_local;
    [apply quiet_usb_open | intros _; apply emits_emit; quiet_event
    | apply (emit_throws_in_cxx03_only d (fun _ => libusb_exit))
    | intros _].
  apply verdict_with_local;
    [apply emits_usb_device_get; quiet_event
    | intros dh; apply emits_emit; quiet_event
    | apply (emit_throws_in_cxx03_only d libusb_close)
    | intros dh].
  unfold main_guards.
  apply verdict_with_local;
    [(apply device_usb_attach_interface_ctor; device_side quiet_device)
    | (apply device_usb_attach_interface_dtor; device_side quiet_device)
    | apply destructor_throws_in_cxx03_only | intros a1].
  apply verdict_with_local;
    [(apply device_usb_attach_interface_ctor; device_side quiet_device)
    | (apply device_usb_attach_interface_dtor; device_side quiet_device)
    | apply destructor_throws_in_cxx03_only | intros a2].
  apply verdict_bind;
    [(apply device_set_configuration; device_side quiet_device) | intros _].
  apply verdict_with_local;
    [(apply device_usb_claim_interface_ctor; device_side quiet_device)
    | (apply device_usb_claim_interface_dtor; device_side quiet_device)
    | apply destructor_throws_in_cxx03_only | intros i1].
  apply verdict_with_local;
    [(apply device_usb_claim_interface_ctor; device_side quiet_device)
    | (apply device_usb_claim_interface_dtor; device_side quiet_device)
    | apply destructor_throws_in_cxx03_only | intros i2].
  unfold main_body.
  apply verdict_bind;
    [(apply device_main_init; device_side quiet_device) | intros _].
  intros w hist. unfold main_read. rewrite bind_assoc.
  apply (verdict_output d (read_data dh cmd_getdata_inner) decode_float).
  (apply device_read_data; device_side quiet_device).
Qed.

Lemma session_verdict_first_revision (d : dialect) (w : host)
    (hist : list event) :
  session_verdict d (first_revision.main d w hist).
Proof.
  unfold first_revision.main. apply verdict_main_try_block. clear w hist.
  apply verdict_with_local;
    [apply quiet_usb_open | intros _; apply emits_emit; quiet_event
    | apply (emit_throws_in_cxx03_only d (fun _ => libusb_exit))
    | intros _].
  apply verdict_with_local;
    [apply emits_usb_device_get; quiet_event
    | intros dh; apply emits_emit; quiet_event
    | apply (emit_throws_in_cxx03_only d libusb_close)
    | intros dh].
  apply verdict_bind;
    [(apply device_set_configuration; device_side quiet_device) | intros _].
  apply verdict_with_local;
    [(apply device_claim_interface_ctor; device_side quiet_device)
    | (apply device_claim_interface_dtor; device_side quiet_device)
    | apply destructor_throws_in_cxx03_only | intros i1].
  apply verdict_with_local;
    [(apply device_claim_interface_ctor; device_side quiet_device)
    | (apply device_claim_interface_dtor; device_side quiet_device)
    | apply destructor_throws_in_cxx03_only | intros i2].
  apply (verdict_output d (first_revision.main_protocol dh) decode_double).
  (apply device_main_protocol; device_side quiet_device).
Qed.

(** X9. The exit status and the output of a session, on any host and in
    every revision.  [main] never ends by an exception.  When it returns
    EXIT_SUCCESS it has written exactly one temperature and no diagnostic of
    its handler.  When it returns EXIT_FAILURE the diagnostic of its handler
    is the last thing it did, and the only one of its kind; in C++11 no
    temperature was written then, so that the exit status tells whether
    there is a reading.  However a session ends, it has written at most one
    temperature. *)
Theorem exit_status_tells_whether_a_temperature_was_written :
  forall (d : dialect) (copy_count : nat) (w : host) (hist : list event),
    session_verdict d (main_with d copy_count w hist)
    /\ session_verdict d (first_revision.main d w hist).
Proof.
  intros d copy_count w hist. split.
  - apply session_verdict_main_with.
  - apply session_verdict_first_revision.
Qed.

(** ** What a session holds, and gives up *)

Lemma with_local_emit {G A} (ctor : M G) (closing : G -> event)
    (body : G -> M A) (w : host) (hist : list event) :
  with_local ctor (fun g => emit (closing g)) body w hist =
  match ctor w hist with
  | (Normal g, e1) =>
      match body g w (hist ++ e1) with
      | (o, e2) =>
          (o, e1 ++ e2 ++ (if leaves_scope o then [closing g] else []))
      end
  | (Throw e, e1) => (Throw e, e1)
  | (Terminate, e1) => (Terminate, e1)
  | (Undefined, e1) => (Undefined, e1)
  end.
Proof.
  unfold with_local, emit.
  destruct (ctor w hist) as [[g|e| |] e1]; try reflexivity.
  destruct (body g w (hist ++ e1)) as [[a|e| |] e2]; cbn [leaves_scope];
    rewrite ?app_nil_r; reflexivity.
Qed.

Lemma session_event_no_shutdown (evs : list event) :
  Forall (fun ev => is_session_event ev = true) evs ->
  Forall (fun ev => is_shutdown ev = false) evs.
Proof.
  apply Forall_impl. intros ev. destruct ev; cbn; congruence.
Qed.

Lemma scope_bracket_main_try_block (inner : handle -> M Z) :
  (forall dh, emits (fun ev => is_session_event ev = true) (inner dh)) ->
  forall w hist,
    scope_bracket w hist
      (main_try_block
         (with_local usb_open (fun _ => emit libusb_exit) (fun _ =>
          with_local (usb_device_get 0x1130 0x660c)
            (fun dh => emit (libusb_close dh)) inner)) w hist).
Proof.
  intros Hinner w hist. unfold scope_bracket, main_try_block.
  rewrite with_local_emit, usb_open_run.
  destruct (Z.ltb_spec (respond w hist libusb_init) 0) as [Hneg|Hpos].
  { split; reflexivity. }
  rewrite with_local_emit.
  pose proof (emits_usb_device_get (fun ev => is_shutdown ev = false)
                0x1130 0x660c eq_refl eq_refl (fun _ => eq_refl)
                (fun _ => eq_refl) w (hist ++ [libusb_init])) as Hlocate.
  unfold events_of in Hlocate.
  destruct (usb_device_get 0x1130 0x660c w (hist ++ [libusb_init]))
    as [[dh|e| |] e1]; cbn [fst snd leaves_scope app] in *.
  - specialize (Hinner dh w ((hist ++ [libusb_init]) ++ e1)).
    unfold events_of in Hinner.
    destruct (inner dh w ((hist ++ [libusb_init]) ++ e1)) as [[s|e| |] e2];
      cbn [fst snd leaves_scope app] in *.
    + exists (e2 ++ [libusb_close dh]), []. split; [|split].
      * rewrite <- !app_assoc. reflexivity.
      * left. reflexivity.
      * exists e2. split; [reflexivity | exact Hinner].
    + exists (e2 ++ [libusb_close dh]), [cerr_exception e]. split; [|split].
      * rewrite <- !app_assoc. reflexivity.
      * right. split; [reflexivity|]. exists e. reflexivity.
      * exists e2. split; [reflexivity | exact Hinner].
    + split; [exact Hpos|]. constructor; [reflexivity|].
      rewrite ?app_nil_r. apply Forall_app. split; [exact Hlocate|].
      apply session_event_no_shutdown, Hinner.
    + split; [exact Hpos|]. constructor; [reflexivity|].
      rewrite ?app_nil_r. apply Forall_app. split; [exact Hlocate|].
      apply session_event_no_shutdown, Hinner.
  - exists [], [cerr_exception e]. split; [|split].
    + rewrite <- !app_assoc. reflexivity.
    + right. split; [reflexivity|]. exists e. reflexivity.
    + reflexivity.
  - split; [exact Hpos|]. constructor; [reflexivity|].
    rewrite ?app_nil_r. exact Hlocate.
  - split; [exact Hpos|]. constructor; [reflexivity|].
    rewrite ?app_nil_r. exact Hlocate.
Qed.

Lemma session_device (ev : event) :
  is_device_event ev = true -> is_session_event ev = true.
Proof. intros H. unfold is_session_event. rewrite H. reflexivity. Qed.

(** X10. What a session holds when it ends, on any host and in every
    revision.  [libusb_init] is the first call, and when it fails [main]
    returns EXIT_FAILURE after the diagnostic, with no other call.
    Otherwise the locator runs next.  When [main] returns, [libusb_exit] is
    its last call, followed by nothing but the diagnostic of the handler;
    and when the locator had returned a device, [libusb_close] for that
    device comes just before [libusb_exit], after the statements on the
    device, which call nothing but the device and write nothing but the
    temperature.  A session that ends in [std::terminate] or in undefined
    behaviour has called neither [libusb_close] nor [libusb_exit]. *)
Theorem main_gives_up_the_device_and_the_context_when_it_returns :
  forall (d : dialect) (copy_count : nat) (w : host) (hist : list event),
    scope_bracket w hist (main_with d copy_count w hist)
    /\ scope_bracket w hist (first_revision.main d w hist).
Proof.
  intros d copy_count w hist. split.
  - apply (scope_bracket_main_try_block
             (fun dh => main_guards d dh (main_body copy_count))).
    intros dh.
    apply device_main_guards;
      [device_side session_device .. | intros value; reflexivity].
  - apply (scope_bracket_main_try_block
             (fun dh =>
                (r <- call (libusb_set_configuration dh 1);; check r);;
                with_local (first_revision.claim_interface_ctor dh 0)
                  (first_revision.claim_interface_dtor d) (fun i1 =>
                with_local (first_revision.claim_interface_ctor dh 1)
                  (first_revision.claim_interface_dtor d) (fun i2 =>
                r <- first_revision.main_protocol dh;;
                emit (cout_float (decode_double r));;
                ret EXIT_SUCCESS)))).
    intros dh.
    apply device_first_revision_guards;
      [device_side session_device .. | intros value; reflexivity].
Qed.


(** ** The output of temper.cpp *)




(** ** The text of a [usb_error] *)

(** X12. [usb_error::what] of the first and of the tr1 revision, as a
    function of the member [e].  Two codes never share a message, so that
    the diagnostic tells which error occurred.  A negative code, as [check]
    stores it, has a message of its own exactly when it lies between -12 and
    -1 or is -99.  For every other negative code the pointer returned is the
    buffer of a temporary string, holding the code in decimal, that no
    longer exists when the caller prints it. *)
Theorem what_names_each_libusb_error_and_dangles_otherwise :
  (forall e1 e2 s, what e1 = literal s -> what e2 = literal s -> e1 = e2)
  /\ (forall e, e < 0 ->
                (exists s, what e = literal s) <-> (-12 <= e \/ e = -99))
  /\ (forall e, e < 0 -> ~ (-12 <= e \/ e = -99) ->
                what e = dangling (decimal e)).
Proof.
  assert (Hcases : forall e,
    (In e [0; -1; -2; -3; -4; -5; -6; -7; -9; -10; -11; -12; -99; -8]
     /\ exists s, what e = literal s)
    \/ (~ In e [0; -1; -2; -3; -4; -5; -6; -7; -9; -10; -11; -12; -99; -8]
        /\ what e = dangling (decimal e))).
  { intros e. unfold what.
    repeat match goal with
           | |- context [e =? ?c] =>
               destruct (Z.eqb_spec e c) as [->|?];
               [left; split; [cbn; tauto | eexists; reflexivity]|]
           end.
    right. split; [|reflexivity].
    cbn [In]. unfold LIBUSB_SUCCESS, LIBUSB_ERROR_IO,
      LIBUSB_ERROR_INVALID_PARAM, LIBUSB_ERROR_ACCESS, LIBUSB_ERROR_NO_DEVICE,
      LIBUSB_ERROR_NOT_FOUND, LIBUSB_ERROR_BUSY, LIBUSB_ERROR_TIMEOUT,
      LIBUSB_ERROR_PIPE, LIBUSB_ERROR_INTERRUPTED, LIBUSB_ERROR_NO_MEM,
      LIBUSB_ERROR_NOT_SUPPORTED, LIBUSB_ERROR_OTHER, LIBUSB_ERROR_OVERFLOW
      in *.
    intuition lia. }
  split; [|split].
  - intros e1 e2 s H1 H2.
    destruct (Hcases e1) as [[Hin1 _]|[_ Hd]]; [|congruence].
    destruct (Hcases e2) as [[Hin2 _]|[_ Hd]]; [|congruence].
    cbn [In] in Hin1, Hin2.
    repeat (destruct Hin1 as [<-|Hin1]; [|]); try contradiction;
      repeat (destruct Hin2 as [<-|Hin2]; [|]); try contradiction;
        try reflexivity; cbn in H1, H2; congruence.
  - intros e Hneg. destruct (Hcases e) as [[Hin Hs]|[Hout Hd]].
    + split; [|intros _; exact Hs]. intros _. cbn [In] in Hin. lia.
    + split.
      * intros [s Hs]. congruence.
      * intros Hrange. exfalso. apply Hout. cbn [In]. lia.
  - intros e Hneg Hrange. destruct (Hcases e) as [[Hin _]|[_ Hd]].
    + exfalso. apply Hrange. cbn [In] in Hin. lia.
    + exact Hd.
Qed.

(** ** Concrete sessions for the properties above *)

(** The thermometer of [plugged_host 0x57 0x58] reports the type temper1:
    the reset command and the read phase follow, and the guards are taken
    down. *)
Lemma main_tr1_dispatch_witness :
  main_guards cxx11 1 (main_body dev_info.sizeof) (plugged_host 0x57 0x58)
    locate_trace
  = (Normal EXIT_SUCCESS,
     acquisition_trace 1 true true
     ++ read_data_trace 1 cmd_devtype
     ++ send_cmd_trace 1 cmd_reset0
     ++ read_data_trace 1 cmd_getdata_inner
     ++ [cout_float (decode_float (pad_to 256 [0x14; 0x80]))]
     ++ teardown_trace 1 true true).
Proof.
  refine (proj1 (main_tr1_dispatch cxx11 (plugged_host 0x57 0x58) 1%nat
                   true true locate_trace _ _ _) _).
  - repeat split; intros; cbn; lia.
  - split; intros; cbn; lia.
  - split; intros; cbn; lia.
  - reflexivity.
Defined.

(** [noisy_host] answers as [plugged_host 0x57 0x58] does, and its reports
    differ from it behind the second byte only. *)
Lemma main_tr1_depends_on_two_bytes_of_a_report_witness :
  main_tr1 cxx11 (plugged_host 0x57 0x58) [] = main_tr1 cxx11 noisy_host [].
Proof.
  apply (main_tr1_depends_on_two_bytes_of_a_report cxx11
           (plugged_host 0x57 0x58) noisy_host []).
  - split; intros; reflexivity.
  - intros tr. cbn [inbuf plugged_host noisy_host].
    destruct (existsb is_in_transfer tr); split; reflexivity.
Defined.

(** On [unplugged_host] the release fails with LIBUSB_ERROR_NO_DEVICE. *)
Lemma first_revision_release_failure_skips_the_reattachment_witness :
  first_revision.claim_interface_dtor cxx11
    (first_revision.mk_claim_interface true 1 1) unplugged_host [] =
  (Terminate,
   [libusb_release_interface 1 1;
    cerr_destructor "~claim_interface" (usb_error LIBUSB_ERROR_NO_DEVICE)]).
Proof.
  apply (first_revision_release_failure_skips_the_reattachment cxx11
           unplugged_host 1%nat 1 LIBUSB_ERROR_NO_DEVICE []).
  - reflexivity.
  - reflexivity.
Defined.
(** ** Typestates of a session *)

Section MonitorFacts.
Variable S : Type.
Variable step : Z -> event -> S -> option S.
Variable T : Prop.

Lemma run_app (w : host) (e1 e2 : list event) :
  forall hist s,
    run step w hist (e1 ++ e2) s =
    match run step w hist e1 s with
    | Some s' => run step w (hist ++ e1) e2 s'
    | None => None
    end.
Proof.
  induction e1 as [|ev e1 IH]; intros hist s; cbn [app run].
  - rewrite app_nil_r. reflexivity.
  - destruct (step (respond w hist ev) ev s) as [s'|]; [|reflexivity].
    rewrite IH, <- app_assoc. reflexivity.
Qed.

Lemma run_stable (w : host) (s : S) (evs : list event) :
  Forall (stable step s) evs ->
  forall hist, run step w hist evs s = Some s.
Proof.
  induction 1 as [|ev evs Hev _ IH]; intros hist; cbn [run].
  - reflexivity.
  - rewrite Hev. apply IH.
Qed.

(** Statements whose events leave the state as it is. *)
Lemma scoped_stable {A} (pre : S) (Inv Q : S -> Prop) (m : M A) :
  Inv pre -> Q pre ->
  emits (stable step pre) m ->
  scoped step T pre Inv Q m.
Proof.
  intros Hinv HQ Hm w hist. exists pre.
  split; [apply run_stable, Hm|]. split; [exact Hinv | intros _; exact HQ].
Qed.

(** Such statements, before the rest of a scope. *)
Lemma scoped_bind {A B} (pre : S) (Inv Q : S -> Prop) (m : M A)
    (f : A -> M B) :
  Inv pre -> Q pre ->
  emits (stable step pre) m ->
  (forall a, scoped step T pre Inv Q (f a)) ->
  scoped step T pre Inv Q (bind m f).
Proof.
  intros Hinv HQ Hm Hf w hist. specialize (Hm w hist).
  unfold events_of, bind in *.
  destruct (m w hist) as [[a|e| |] e1]; cbn [fst snd] in *;
    try (exists pre; split; [apply run_stable, Hm|];
         split; [exact Hinv | intros _; exact HQ]).
  destruct (Hf a w (hist ++ e1)) as (st & Hrun & Hinv' & Hclean).
  destruct (f a w (hist ++ e1)) as [o e2]. cbn [fst snd] in *.
  exists st. rewrite run_app, (run_stable _ _ _ Hm).
  repeat split; assumption.
Qed.

(** An object whose constructor takes the state from [pre] to [mid g],
    where [good] is what is known of the object [g] it constructs, and
    whose destructor takes the state in which the body ended cleanly to one
    that satisfies [Q]. *)
Lemma scoped_with_local {G A} (pre : S) (mid : G -> S)
    (Inv Q : S -> Prop) (InvB QB : G -> S -> Prop) (good : G -> Prop)
    (ctor : M G) (dtor : G -> M unit) (body : G -> M A) :
  (forall g st, InvB g st -> Inv st) ->
  (forall w hist,
      exists st,
        run step w hist (snd (ctor w hist)) pre = Some st
        /\ match fst (ctor w hist) with
           | Normal g => good g /\ st = mid g
           | _ => Inv st /\ (T -> Q st)
           end) ->
  (forall g, good g -> scoped step T (mid g) (InvB g) (QB g) (body g)) ->
  (forall g w hist st,
      good g -> InvB g st ->
      exists st',
        run step w hist (snd (dtor g w hist)) st = Some st'
        /\ Inv st'
        /\ (fst (dtor g w hist) = Normal tt -> QB g st -> Q st')) ->
  (forall g w hist e, fst (dtor g w hist) = Throw e -> ~ T) ->
  scoped step T pre Inv Q (with_local ctor dtor body).
Proof.
  intros Hweaken Hctor Hbody Hdtor Hthrow w hist.
  destruct (Hctor w hist) as (st1 & Hrun1 & Hpost1). unfold with_local.
  destruct (ctor w hist) as [[g|e| |] e1]; cbn [fst snd] in *;
    try (exists st1; split; [exact Hrun1|]; split; [apply Hpost1|];
         cbn [clean]; first [apply Hpost1 | contradiction]).
  destruct Hpost1 as [Hgood ->].
  destruct (Hbody g Hgood w (hist ++ e1)) as (stb & Hrunb & Hinvb & Hcleanb).
  destruct (body g w (hist ++ e1)) as [ob e2]. cbn [fst snd] in *.
  destruct (Hdtor g w (hist ++ e1 ++ e2) stb Hgood Hinvb)
    as (st' & Hrund & Hinv' & Hback).
  specialize (Hthrow g w (hist ++ e1 ++ e2)).
  assert (Hrun : forall e3 st,
             run step w (hist ++ e1 ++ e2) e3 stb = Some st ->
             run step w hist (e1 ++ e2 ++ e3) pre = Some st).
  { intros e3 st H3. rewrite run_app, Hrun1, run_app, Hrunb.
    rewrite <- app_assoc. exact H3. }
  assert (Hstop : run step w hist (e1 ++ e2) pre = Some stb).
  { rewrite run_app, Hrun1. exact Hrunb. }
  destruct ob as [a|e| |].
  - destruct (dtor g w (hist ++ e1 ++ e2)) as [[[]|e'| |] e3];
      cbn [fst snd] in *; exists st';
      (split; [apply Hrun, Hrund|]; split; [exact Hinv'|]); cbn [clean].
    + intros _. apply Hback; [reflexivity | apply Hcleanb; exact I].
    + intros HT. contradiction (Hthrow e' eq_refl HT).
    + contradiction.
    + contradiction.
  - destruct (dtor g w (hist ++ e1 ++ e2)) as [[[]|e'| |] e3];
      cbn [fst snd] in *; exists st';
      (split; [apply Hrun, Hrund|]; split; [exact Hinv'|]); cbn [clean].
    + intros HT. apply Hback; [reflexivity | apply Hcleanb; exact HT].
    + contradiction.
    + contradiction.
    + contradiction.
  - exists stb. split; [exact Hstop|].
    split; [apply (Hweaken g), Hinvb|]. cbn [clean]. contradiction.
  - exists stb. split; [exact Hstop|].
    split; [apply (Hweaken g), Hinvb|]. cbn [clean]. contradiction.
Qed.

(** An object whose constructor and destructor leave the state as it is,
    whatever it is. *)
Lemma scoped_neutral {G A} (pre : S) (Inv Q : S -> Prop)
    (ctor : M G) (dtor : G -> M unit) (body : G -> M A) :
  Inv pre -> Q pre ->
  emits (fun ev => forall s, stable step s ev) ctor ->
  (forall g, emits (fun ev => forall s, stable step s ev) (dtor g)) ->
  (forall g w hist e, fst (dtor g w hist) = Throw e -> ~ T) ->
  (forall g, scoped step T pre Inv Q (body g)) ->
  scoped step T pre Inv Q (with_local ctor dtor body).
Proof.
  intros Hinv HQ Hc Hd Hthrow Hbody.
  apply (scoped_with_local pre (fun _ => pre) Inv Q (fun _ => Inv)
           (fun _ => Q) (fun _ => True)); try assumption.
  - intros _ st H. exact H.
  - intros w hist. exists pre. split.
    + apply run_stable. specialize (Hc w hist). revert Hc.
      apply Forall_impl. intros ev H. apply H.
    + destruct (fst (ctor w hist)); repeat split; try assumption;
        intros _; exact HQ.
  - intros g _. apply Hbody.
  - intros g w hist st _ Hst. exists st. split.
    + apply run_stable. specialize (Hd g w hist). revert Hd.
      apply Forall_impl. intros ev H. apply H.
    + split; [exact Hst | intros _ H; exact H].
Qed.

(** An object whose constructor and destructor leave the state [pre] as it
    is, around statements that end in it. *)
Lemma scoped_guard {G A} (pre : S) (good : G -> Prop)
    (ctor : M G) (dtor : G -> M unit) (body : G -> M A) :
  emits (stable step pre) ctor ->
  (forall w hist g, fst (ctor w hist) = Normal g -> good g) ->
  (forall g, good g -> emits (stable step pre) (dtor g)) ->
  (forall g w hist e, fst (dtor g w hist) = Throw e -> ~ T) ->
  (forall g, scoped step T pre (eq pre) (eq pre) (body g)) ->
  scoped step T pre (eq pre) (eq pre) (with_local ctor dtor body).
Proof.
  intros Hc Hgood Hd Hthrow Hbody.
  apply (scoped_with_local pre (fun _ => pre) (eq pre) (eq pre)
           (fun _ => eq pre) (fun _ => eq pre) good); try assumption.
  - intros _ st H. exact H.
  - intros w hist. exists pre. split; [apply run_stable, Hc|].
    specialize (Hgood w hist).
    destruct (fst (ctor w hist)); repeat split; auto.
  - intros g _. apply Hbody.
  - intros g w hist st Hg <-. exists pre.
    split; [apply run_stable, (Hd g Hg)|]. split; [reflexivity|].
    intros _ _. reflexivity.
Qed.

(** The handler of [main]. *)
Lemma session_main_try_block (pre : S) (Q : S -> Prop) (body : M Z) :
  (forall e s, stable step s (cerr_exception e)) ->
  scoped step T pre (fun _ => True) Q body ->
  forall w hist, session step T pre Q w hist (main_try_block body w hist).
Proof.
  intros Hcerr Hbody w hist.
  destruct (Hbody w hist) as (st & Hrun & _ & Hclean).
  unfold session, main_try_block.
  destruct (body w hist) as [[s|e| |] evs]; cbn [fst snd] in *; exists st.
  - split; [exact Hrun|]. intros s' _ _. apply Hclean. exact I.
  - split.
    + rewrite run_app, Hrun. cbn [run]. rewrite Hcerr. reflexivity.
    + intros s' Hs' [HT|Hsuccess]; [apply Hclean, HT|].
      injection Hs' as <-. discriminate Hsuccess.
  - split; [exact Hrun | discriminate].
  - split; [exact Hrun | discriminate].
Qed.
End MonitorFacts.

Lemma claim_interface_dtor_run (d : dialect)
    (g : first_revision.claim_interface) (w : host) (hist : list event) :
  first_revision.claim_interface_dtor d g w hist =
  (let release := libusb_release_interface (first_revision.h g)
                    (first_revision.interface g) in
   let attach := libusb_attach_kernel_driver (first_revision.h g)
                   (first_revision.interface g) in
   let fails r := match d with
                  | cxx11 => Terminate
                  | cxx03 => Throw (usb_error r)
                  end in
   let r := respond w hist release in
   if r <? 0
   then (fails r, [release; cerr_destructor "~claim_interface" (usb_error r)])
   else if first_revision.try_attach g
   then
     let r' := respond w (hist ++ [release]) attach in
     if r' <? 0
     then (fails r',
           [release; attach;
            cerr_destructor "~claim_interface" (usb_error r')])
     else (Normal tt, [release; attach])
   else (Normal tt, [release])).
Proof.
  destruct d;
    unfold first_revision.claim_interface_dtor, destructor, noexcept,
      destructor_try_block;
    unfold bind at 1; unfold call at 1; unfold bind at 1;
    rewrite check_run; cbv zeta;
    (destruct (respond w hist _ <? 0); [reflexivity|]);
    (destruct (first_revision.try_attach g);
     [|unfold ret; cbn [app]; reflexivity]);
    unfold bind, call; rewrite check_run; rewrite ?app_nil_r; cbn [app];
    destruct (respond w _ (libusb_attach_kernel_driver _ _) <? 0);
    reflexivity.
Qed.

Lemma emits_usb_open (P : event -> Prop) :
  P libusb_init -> emits P usb_open.
Proof.
  intros Hinit. unfold usb_open.
  apply emits_bind; [apply emits_call; exact Hinit | intros r].
  apply emits_bind; auto with emits.
Qed.

Lemma device_main_body (P : event -> Prop) (copy_count : nat) (dh : handle) :
  (forall ev, is_transfer ev = true -> P ev) ->
  (forall value, P (cout_float value)) ->
  emits P (main_body copy_count dh).
Proof.
  intros Htransfer Hcout. unfold main_body.
  apply emits_bind; [apply device_main_init; exact Htransfer | intros _].
  apply emits_bind; [|auto with emits].
  unfold main_read.
  apply emits_bind; [apply device_read_data; exact Htransfer | intros raw].
  apply emits_emit, Hcout.
Qed.

Lemma device_first_revision_body (P : event -> Prop) (dh : handle) :
  (forall ev, is_transfer ev = true -> P ev) ->
  (forall value, P (cout_float value)) ->
  emits P
    (r <- first_revision.main_protocol dh;;
     emit (cout_float (decode_double r));;
     ret EXIT_SUCCESS).
Proof.
  intros Htransfer Hcout.
  apply emits_bind; [apply device_main_protocol; exact Htransfer | intros raw].
  apply emits_bind; [apply emits_emit, Hcout | auto with emits].
Qed.

(** *** The interfaces a session holds *)

Lemma claims_driver (ev : event) :
  is_driver_call ev = true -> forall s, stable step_claims s ev.
Proof. destruct ev; intros H; try discriminate H; intros s r; reflexivity. Qed.

Lemma claims_housekeeping (ev : event) :
  is_housekeeping ev = true -> forall s, stable step_claims s ev.
Proof. destruct ev; intros H; try discriminate H; intros s r; reflexivity. Qed.

Lemma claims_transfer (ev : event) :
  is_transfer ev = true -> stable step_claims (true, true) ev.
Proof. destruct ev; intros H; try discriminate H; intros r; reflexivity. Qed.

Ltac stable_event := intros; intro; intros; reflexivity.

Section Claims.
Variable d : dialect.

Lemma throws_in_cxx03 {G} (dtor : G -> M unit) :
  throws_in_cxx03_only d dtor ->
  forall g w hist e, fst (dtor g w hist) = Throw e -> ~ d = cxx11.
Proof.
  intros H g w hist e He Hd. rewrite (H g w hist e He) in Hd.
  discriminate Hd.
Qed.

(** The claim guards of temper.cpp and of the tr1 revision. *)
Lemma claims_usb_claim_interface_1 {A} (dh : handle)
    (body : usb_claim_interface.t -> M A) :
  (forall g, scoped step_claims (d = cxx11) (true, true)
               (eq (true, true)) (eq (true, true)) (body g)) ->
  scoped step_claims (d = cxx11) (true, false) (fun st => fst st = true)
    (eq (true, false))
    (with_local (usb_claim_interface.ctor dh 1) (usb_claim_interface.dtor d)
       body).
Proof.
  intros Hbody.
  apply (scoped_with_local claims step_claims (d = cxx11) (true, false)
           (fun _ => (true, true)) (fun st => fst st = true)
           (eq (true, false)) (fun _ => eq (true, true))
           (fun _ => eq (true, true))
           (fun g => g = usb_claim_interface.mk dh 1)).
  - intros _ st <-. reflexivity.
  - intros w hist. rewrite usb_claim_interface_ctor_run. cbv zeta.
    cbn [fst snd run step_claims Z.eqb].
    destruct (_ <? 0); eexists; (split; [reflexivity|]); repeat split.
  - intros g _. apply Hbody.
  - intros g w hist st -> <-. rewrite usb_claim_interface_dtor_run.
    cbv zeta. cbn [usb_claim_interface.h usb_claim_interface.interface].
    destruct (respond w hist (libusb_release_interface dh 1) <? 0) eqn:E;
      cbn [fst snd run step_claims Z.eqb]; rewrite E;
      eexists; (split; [reflexivity|]); split; try reflexivity.
    destruct d; discriminate.
  - apply throws_in_cxx03, destructor_throws_in_cxx03_only.
Qed.

Lemma claims_usb_claim_interface_0 {A} (dh : handle)
    (body : usb_claim_interface.t -> M A) :
  (forall g, scoped step_claims (d = cxx11) (true, false)
               (fun st => fst st = true) (eq (true, false)) (body g)) ->
  scoped step_claims (d = cxx11) (false, false) (fun _ => True)
    (eq (false, false))
    (with_local (usb_claim_interface.ctor dh 0) (usb_claim_interface.dtor d)
       body).
Proof.
  intros Hbody.
  apply (scoped_with_local claims step_claims (d = cxx11) (false, false)
           (fun _ => (true, false)) (fun _ => True)
           (eq (false, false)) (fun _ st => fst st = true)
           (fun _ => eq (true, false))
           (fun g => g = usb_claim_interface.mk dh 0)).
  - intros _ st _. exact I.
  - intros w hist. rewrite usb_claim_interface_ctor_run. cbv zeta.
    cbn [fst snd run step_claims Z.eqb].
    destruct (_ <? 0); eexists; (split; [reflexivity|]); repeat split.
  - intros g _. apply Hbody.
  - intros g w hist [c0 c1] -> Hst. cbn [fst] in Hst. subst c0.
    rewrite usb_claim_interface_dtor_run.
    cbv zeta. cbn [usb_claim_interface.h usb_claim_interface.interface].
    destruct (respond w hist (libusb_release_interface dh 0) <? 0) eqn:E;
      cbn [fst snd run step_claims Z.eqb]; rewrite E;
      eexists; (split; [reflexivity|]); split; try exact I.
    + destruct d; discriminate.
    + intros _ H. injection H as <-. reflexivity.
  - apply throws_in_cxx03, destructor_throws_in_cxx03_only.
Qed.

(** The guard of the first revision. *)
Lemma claims_claim_interface {A} (dh : handle) (i : Z) (pre mid : claims)
    (Inv InvB : claims -> Prop) (body : first_revision.claim_interface -> M A) :
  Inv pre ->
  (forall st, InvB st -> Inv st) ->
  (forall r,
      step_claims r (libusb_claim_interface dh i) pre
      = Some (if r <? 0 then pre else mid)) ->
  (forall r st,
      InvB st ->
      exists st',
        step_claims r (libusb_release_interface dh i) st = Some st'
        /\ Inv st'
        /\ (0 <= r -> st = mid -> st' = pre)) ->
  (forall g, scoped step_claims (d = cxx11) mid InvB (eq mid) (body g)) ->
  scoped step_claims (d = cxx11) pre Inv (eq pre)
    (with_local (first_revision.claim_interface_ctor dh i)
       (first_revision.claim_interface_dtor d) body).
Proof.
  intros Hpre Hweaken Hclaim Hrelease Hbody.
  apply (scoped_with_local claims step_claims (d = cxx11) pre
           (fun _ => mid) Inv (eq pre) (fun _ => InvB) (fun _ => eq mid)
           (fun g => first_revision.h g = dh
                     /\ first_revision.interface g = i)).
  - intros _. exact Hweaken.
  - intros w hist. rewrite claim_interface_ctor_run. cbv zeta.
    destruct (respond w hist (libusb_kernel_driver_active dh i) <? 0).
    { exists pre. repeat split. exact Hpre. }
    set (acq := libusb_kernel_driver_active dh i
                :: (if negb _ then [libusb_detach_kernel_driver dh i] else [])).
    assert (Hacq : Forall (stable step_claims pre) acq).
    { unfold acq. destruct (negb _); repeat constructor. }
    destruct (_ && _).
    { exists pre. cbn [fst snd].
      split; [apply run_stable, Hacq|]. split; [exact Hpre|reflexivity]. }
    destruct (respond w (hist ++ acq) (libusb_claim_interface dh i) <? 0)
      eqn:E; cbn [fst snd]; eexists;
      (split;
       [rewrite run_app, (run_stable _ _ _ _ _ Hacq); cbn [run];
        rewrite Hclaim, E; reflexivity|]);
      repeat split. exact Hpre.
  - intros g _. apply Hbody.
  - intros g w hist st [Hh Hi] Hst.
    rewrite claim_interface_dtor_run. cbv zeta. rewrite Hh, Hi.
    destruct (Hrelease (respond w hist (libusb_release_interface dh i)) st Hst)
      as (st' & Hstep & Hinv' & Hback).
    destruct (Z.ltb_spec (respond w hist (libusb_release_interface dh i)) 0)
      as [Hneg|Hpos].
    { exists st'. cbn [fst snd run]. rewrite Hstep.
      split; [reflexivity|]. split; [exact Hinv'|].
      destruct d; discriminate. }
    destruct (first_revision.try_attach g).
    + destruct (_ <? 0); exists st'; cbn [fst snd run]; rewrite Hstep;
        (split; [reflexivity|]); (split; [exact Hinv'|]).
      * destruct d; discriminate.
      * intros _ <-. symmetry. apply Hback; [exact Hpos | reflexivity].
    + exists st'. cbn [fst snd run]. rewrite Hstep.
      split; [reflexivity|]. split; [exact Hinv'|].
      intros _ <-. symmetry. apply Hback; [exact Hpos | reflexivity].
  - apply throws_in_cxx03, destructor_throws_in_cxx03_only.
Qed.

Lemma session_claims_main_with (copy_count : nat) (w : host)
    (hist : list event) :
  session step_claims (d = cxx11) (false, false) (eq (false, false)) w hist
    (main_with d copy_count w hist).
Proof.
  unfold main_with. apply session_main_try_block; [stable_event|].
  clear w hist. unfold main_scope.
  apply scoped_neutral;
    [ exact I | reflexivity | apply emits_usb_open; stable_event
    | intros _; apply emits_emit; stable_event
    | intros g w hist e; discriminate | intros _ ].
  apply scoped_neutral;
    [ exact I | reflexivity | apply emits_usb_device_get; stable_event
    | intros dh; apply emits_emit; stable_event
    | intros g w hist e; discriminate | intros dh ].
  unfold main_guards.
  apply scoped_neutral;
    [ exact I | reflexivity
    | apply device_usb_attach_interface_ctor; exact claims_driver
    | intros g; apply device_usb_attach_interface_dtor;
      [exact claims_driver | exact claims_housekeeping]
    | apply throws_in_cxx03, destructor_throws_in_cxx03_only | intros a1 ].
  apply scoped_neutral;
    [ exact I | reflexivity
    | apply device_usb_attach_interface_ctor; exact claims_driver
    | intros g; apply device_usb_attach_interface_dtor;
      [exact claims_driver | exact claims_housekeeping]
    | apply throws_in_cxx03, destructor_throws_in_cxx03_only | intros a2 ].
  apply scoped_bind;
    [ exact I | reflexivity
    | apply device_set_configuration;
      intros ev Hev; apply claims_housekeeping, Hev
    | intros _ ].
  apply claims_usb_claim_interface_0. intros i1.
  apply claims_usb_claim_interface_1. intros i2.
  apply scoped_stable; [reflexivity | reflexivity |].
  apply device_main_body; [exact claims_transfer | stable_event].
Qed.
Lemma session_claims_first_revision (w : host) (hist : list event) :
  session step_claims (d = cxx11) (false, false) (eq (false, false)) w hist
    (first_revision.main d w hist).
Proof.
  unfold first_revision.main. apply session_main_try_block; [stable_event|].
  clear w hist.
  apply scoped_neutral;
    [ exact I | reflexivity | apply emits_usb_open; stable_event
    | intros _; apply emits_emit; stable_event
    | intros g w hist e; discriminate | intros _ ].
  apply scoped_neutral;
    [ exact I | reflexivity | apply emits_usb_device_get; stable_event
    | intros dh; apply emits_emit; stable_event
    | intros g w hist e; discriminate | intros dh ].
  apply scoped_bind;
    [ exact I | reflexivity
    | apply device_set_configuration;
      intros ev Hev; apply claims_housekeeping, Hev
    | intros _ ].
  apply (claims_claim_interface dh 0 (false, false) (true, false)
           (fun _ => True) (fun st => fst st = true)).
  { exact I. }
  { intros st _. exact I. }
  { intros r. reflexivity. }
  { intros r [c0 c1] Hst. cbn [fst] in Hst. subst c0.
    eexists. split; [reflexivity|]. split; [exact I|].
    intros Hr H. injection H as <-.
    rewrite (ltb_nonneg _ Hr). reflexivity. }
  intros i1.
  apply (claims_claim_interface dh 1 (true, false) (true, true)
           (fun st => fst st = true) (eq (true, true))).
  { reflexivity. }
  { intros st <-. reflexivity. }
  { intros r. reflexivity. }
  { intros r st <-. eexists. split; [reflexivity|].
    split; [destruct (r <? 0); reflexivity|].
    intros Hr _. cbn. rewrite (ltb_nonneg _ Hr). reflexivity. }
  intros i2.
  apply scoped_stable; [reflexivity | reflexivity |].
  apply device_first_revision_body; [exact claims_transfer | stable_event].
Qed.
End Claims.

(** X16. The interfaces a session holds, on any host and in every
    revision.  Every control transfer is issued while both interfaces are
    claimed, each claim having succeeded and neither interface having been
    released since.  No interface is claimed while it is held, none is
    released that is not held, and no interface other than 0 and 1 is ever
    claimed or released.  When [main] returns EXIT_SUCCESS, and in C++11
    whenever it returns, both interfaces have been released with success. *)
Theorem the_device_is_used_only_while_both_interfaces_are_claimed :
  forall (d : dialect) (copy_count : nat) (w : host) (hist : list event),
    session step_claims (d = cxx11) (false, false) (eq (false, false)) w hist
      (main_with d copy_count w hist)
    /\ session step_claims (d = cxx11) (false, false) (eq (false, false))
         w hist (first_revision.main d w hist).
Proof.
  intros d copy_count w hist. split.
  - apply session_claims_main_with.
  - apply session_claims_first_revision.
Qed.

(** *** The kernel drivers of the two interfaces *)

Lemma drivers_housekeeping (ev : event) :
  is_housekeeping ev = true -> forall s, stable step_drivers s ev.
Proof. destruct ev; intros H; try discriminate H; intros s r; reflexivity. Qed.

Lemma drivers_transfer (x y : driver) (ev : event) :
  out_of_the_way x = true -> out_of_the_way y = true ->
  is_transfer ev = true -> stable step_drivers (x, y) ev.
Proof.
  intros Hx Hy. destruct ev; intros H; try discriminate H. intros r.
  cbn [step_drivers fst snd]. rewrite Hx, Hy. reflexivity.
Qed.

Lemma out_of_the_way_known (was : bool) : out_of_the_way (known was) = true.
Proof. destruct was; reflexivity. Qed.

Section Drivers.
Variable d : dialect.
Variable T : Prop.
Hypothesis exceptions : T -> d = cxx11.

Lemma throws_where_unclean {G} (dtor : G -> M unit) :
  throws_in_cxx03_only d dtor ->
  forall g w hist e, fst (dtor g w hist) = Throw e -> ~ T.
Proof.
  intros H g w hist e He HT. rewrite (H g w hist e He) in exceptions.
  discriminate (exceptions HT).
Qed.

(** The statements of [main] between the attach guards and the end of
    their scope: nothing there asks for a driver, detaches or reattaches
    one. *)
Lemma drivers_claimed_scope {A} (dh : handle) (x y : driver)
    (body : M A) :
  out_of_the_way x = true -> out_of_the_way y = true ->
  emits (stable step_drivers (x, y)) body ->
  scoped step_drivers T (x, y) (eq (x, y)) (eq (x, y))
    ((r <- call (libusb_set_configuration dh 1);; check r);;
     with_local (usb_claim_interface.ctor dh 0) (usb_claim_interface.dtor d)
       (fun i1 =>
     with_local (usb_claim_interface.ctor dh 1) (usb_claim_interface.dtor d)
       (fun i2 => body))).
Proof.
  intros Hx Hy Hbody.
  assert (Hclaim : forall i, i = 0 \/ i = 1 ->
            emits (stable step_drivers (x, y)) (usb_claim_interface.ctor dh i)).
  { intros i Hi w hist. unfold events_of.
    rewrite usb_claim_interface_ctor_run. repeat constructor. intros r.
    destruct Hi as [-> | ->]; cbn; rewrite ?Hx, ?Hy; reflexivity. }
  assert (Hgood : forall i w hist g,
            fst (usb_claim_interface.ctor dh i w hist) = Normal g -> True).
  { intros. exact I. }
  assert (Hrelease : forall g,
            emits (stable step_drivers (x, y)) (usb_claim_interface.dtor d g)).
  { intros g w hist. unfold events_of.
    rewrite usb_claim_interface_dtor_run. cbv zeta.
    destruct (_ <? 0); repeat constructor; intros r; reflexivity. }
  apply scoped_bind;
    [ reflexivity | reflexivity
    | apply device_set_configuration;
      intros ev Hev; apply drivers_housekeeping, Hev
    | intros _ ].
  apply (scoped_guard drivers step_drivers T (x, y) (fun _ => True));
    [ apply Hclaim; left; reflexivity | apply Hgood
    | intros g _; apply Hrelease
    | apply throws_where_unclean, destructor_throws_in_cxx03_only
    | intros i1 ].
  apply (scoped_guard drivers step_drivers T (x, y) (fun _ => True));
    [ apply Hclaim; right; reflexivity | apply Hgood
    | intros g _; apply Hrelease
    | apply throws_where_unclean, destructor_throws_in_cxx03_only
    | intros i2 ].
  apply scoped_stable; [reflexivity | reflexivity | exact Hbody].
Qed.
(** The attach guards of temper.cpp and of the tr1 revision. *)
Lemma drivers_usb_attach_interface_1 {A} (dh : handle) (x : driver)
    (body : usb_attach_interface.t -> M A) :
  (forall was,
      scoped step_drivers T (x, known was) (eq (x, known was))
        (eq (x, known was)) (body (usb_attach_interface.mk dh 1 was))) ->
  scoped step_drivers T (x, idle) (fun st => fst st = x)
    (fun st => fst st = x /\ is_detached (snd st) = false)
    (with_local (usb_attach_interface.ctor dh 1) (usb_attach_interface.dtor d)
       body).
Proof.
  intros Hbody.
  apply (scoped_with_local drivers step_drivers T (x, idle)
           (fun g => (x, known (usb_attach_interface.was_attached g)))
           (fun st => fst st = x)
           (fun st => fst st = x /\ is_detached (snd st) = false)
           (fun g => eq (x, known (usb_attach_interface.was_attached g)))
           (fun g => eq (x, known (usb_attach_interface.was_attached g)))
           (fun g => usb_attach_interface.h g = dh
                     /\ usb_attach_interface.interface g = 1)).
  - intros g st <-. reflexivity.
  - intros w hist. rewrite usb_attach_interface_ctor_run. cbv zeta.
    destruct (respond w hist (libusb_kernel_driver_active dh 1) <? 0) eqn:E0.
    { eexists. split; [cbn; rewrite E0; reflexivity|]. cbn. auto. }
    destruct (respond w hist (libusb_kernel_driver_active dh 1) =? 0) eqn:E1.
    { eexists. split; [cbn; rewrite E0, E1; reflexivity|]. cbn. auto. }
    destruct (respond w (hist ++ [libusb_kernel_driver_active dh 1])
                (libusb_detach_kernel_driver dh 1) <? 0) eqn:E2;
      eexists; (split; [cbn; rewrite E0, E1; cbn; rewrite E2; reflexivity|]);
      cbn; auto.
  - intros [h i was] [Hh Hi]. cbn in Hh, Hi. subst. apply Hbody.
  - intros [h i was] w hist st [Hh Hi] <-. cbn in Hh, Hi. subst.
    rewrite usb_attach_interface_dtor_run. cbv zeta.
    cbn [usb_attach_interface.h usb_attach_interface.interface
         usb_attach_interface.was_attached].
    destruct was.
    + destruct (respond w hist (libusb_attach_kernel_driver dh 1) <? 0) eqn:E;
        eexists; (split; [cbn; rewrite E; reflexivity|]); cbn; split; auto.
      destruct d; discriminate.
    + eexists. split; [reflexivity|]. cbn. auto.
  - apply throws_where_unclean, destructor_throws_in_cxx03_only.
Qed.

Lemma drivers_usb_attach_interface_0 {A} (dh : handle)
    (body : usb_attach_interface.t -> M A) :
  (forall was,
      scoped step_drivers T (known was, idle) (fun st => fst st = known was)
        (fun st => fst st = known was /\ is_detached (snd st) = false)
        (body (usb_attach_interface.mk dh 0 was))) ->
  scoped step_drivers T (idle, idle) (fun _ => True)
    (fun st => left_detached st = false)
    (with_local (usb_attach_interface.ctor dh 0) (usb_attach_interface.dtor d)
       body).
Proof.
  intros Hbody.
  apply (scoped_with_local drivers step_drivers T (idle, idle)
           (fun g => (known (usb_attach_interface.was_attached g), idle))
           (fun _ => True)
           (fun st => left_detached st = false)
           (fun g st => fst st = known (usb_attach_interface.was_attached g))
           (fun g st => fst st = known (usb_attach_interface.was_attached g)
                        /\ is_detached (snd st) = false)
           (fun g => usb_attach_interface.h g = dh
                     /\ usb_attach_interface.interface g = 0)).
  - intros g st _. exact I.
  - intros w hist. rewrite usb_attach_interface_ctor_run. cbv zeta.
    destruct (respond w hist (libusb_kernel_driver_active dh 0) <? 0) eqn:E0.
    { eexists. split; [cbn; rewrite E0; reflexivity|]. cbn. auto. }
    destruct (respond w hist (libusb_kernel_driver_active dh 0) =? 0) eqn:E1.
    { eexists. split; [cbn; rewrite E0, E1; reflexivity|]. cbn. auto. }
    destruct (respond w (hist ++ [libusb_kernel_driver_active dh 0])
                (libusb_detach_kernel_driver dh 0) <? 0) eqn:E2;
      eexists; (split; [cbn; rewrite E0, E1; cbn; rewrite E2; reflexivity|]);
      cbn; auto.
  - intros [h i was] [Hh Hi]. cbn in Hh, Hi. subst. apply Hbody.
  - intros [h i was] w hist [x y] [Hh Hi] Hst. cbn in Hh, Hi, Hst. subst.
    rewrite usb_attach_interface_dtor_run. cbv zeta.
    cbn [usb_attach_interface.h usb_attach_interface.interface
         usb_attach_interface.was_attached].
    destruct was.
    + destruct (respond w hist (libusb_attach_kernel_driver dh 0) <? 0) eqn:E;
        eexists; (split; [cbn; rewrite E; reflexivity|]); cbn; split; auto.
      * destruct d; discriminate.
      * intros _ [_ Hy]. exact Hy.
    + eexists. split; [reflexivity|]. cbn. split; [exact I|].
      intros _ [_ Hy]. exact Hy.
  - apply throws_where_unclean, destructor_throws_in_cxx03_only.
Qed.
End Drivers.

(** The guard of the first revision; an exception tells nothing there, for
    its constructor throws with the driver detached when the claim
    fails. *)
Section DriversFirstRevision.
Variable d : dialect.

Lemma drivers_claim_interface_1 {A} (dh : handle) (x : driver)
    (body : first_revision.claim_interface -> M A) :
  (forall was,
      scoped step_drivers False (x, known was) (eq (x, known was))
        (eq (x, known was))
        (body (first_revision.mk_claim_interface was dh 1))) ->
  scoped step_drivers False (x, idle) (fun st => fst st = x)
    (fun st => fst st = x /\ is_detached (snd st) = false)
    (with_local (first_revision.claim_interface_ctor dh 1)
       (first_revision.claim_interface_dtor d) body).
Proof.
  intros Hbody.
  apply (scoped_with_local drivers step_drivers False (x, idle)
           (fun g => (x, known (first_revision.try_attach g)))
           (fun st => fst st = x)
           (fun st => fst st = x /\ is_detached (snd st) = false)
           (fun g => eq (x, known (first_revision.try_attach g)))
           (fun g => eq (x, known (first_revision.try_attach g)))
           (fun g => first_revision.h g = dh
                     /\ first_revision.interface g = 1)).
  - intros g st <-. reflexivity.
  - intros w hist. rewrite claim_interface_ctor_run. cbv zeta.
    destruct (respond w hist (libusb_kernel_driver_active dh 1) <? 0) eqn:E0.
    { eexists. split; [cbn; rewrite E0; reflexivity|]. cbn. tauto. }
    destruct (respond w hist (libusb_kernel_driver_active dh 1) =? 0) eqn:E1;
      cbn [negb andb app].
    + destruct (respond w (hist ++ [libusb_kernel_driver_active dh 1])
                  (libusb_claim_interface dh 1) <? 0) eqn:E3;
        eexists; (split; [cbn; rewrite E0, E1; reflexivity|]); cbn; tauto.
    + destruct (respond w (hist ++ [libusb_kernel_driver_active dh 1])
                  (libusb_detach_kernel_driver dh 1) <? 0) eqn:E2.
      { eexists. split; [cbn; rewrite E0, E1; cbn; rewrite E2; reflexivity|].
        cbn. tauto. }
      destruct (respond w _ (libusb_claim_interface dh 1) <? 0) eqn:E3;
        eexists;
        (split; [cbn; rewrite E0, E1; cbn; rewrite E2; reflexivity|]);
        cbn; tauto.
  - intros [was h i] [Hh Hi]. cbn in Hh, Hi. subst. apply Hbody.
  - intros [was h i] w hist st [Hh Hi] <-. cbn in Hh, Hi. subst.
    rewrite claim_interface_dtor_run. cbv zeta.
    cbn [first_revision.h first_revision.interface first_revision.try_attach].
    destruct (respond w hist (libusb_release_interface dh 1) <? 0) eqn:E.
    { eexists. split; [reflexivity|]. cbn. split; [reflexivity|].
      destruct d; discriminate. }
    destruct was.
    + destruct (respond w (hist ++ [libusb_release_interface dh 1])
                  (libusb_attach_kernel_driver dh 1) <? 0) eqn:E';
        eexists; (split; [cbn; rewrite E'; reflexivity|]); cbn; split; auto.
      destruct d; discriminate.
    + eexists. split; [reflexivity|]. cbn. auto.
  - intros g w hist e _ H. exact H.
Qed.
Lemma drivers_claim_interface_0 {A} (dh : handle)
    (body : first_revision.claim_interface -> M A) :
  (forall was,
      scoped step_drivers False (known was, idle)
        (fun st => fst st = known was)
        (fun st => fst st = known was /\ is_detached (snd st) = false)
        (body (first_revision.mk_claim_interface was dh 0))) ->
  scoped step_drivers False (idle, idle) (fun _ => True)
    (fun st => left_detached st = false)
    (with_local (first_revision.claim_interface_ctor dh 0)
       (first_revision.claim_interface_dtor d) body).
Proof.
  intros Hbody.
  apply (scoped_with_local drivers step_drivers False (idle, idle)
           (fun g => (known (first_revision.try_attach g), idle))
           (fun _ => True)
           (fun st => left_detached st = false)
           (fun g st => fst st = known (first_revision.try_attach g))
           (fun g st => fst st = known (first_revision.try_attach g)
                        /\ is_detached (snd st) = false)
           (fun g => first_revision.h g = dh
                     /\ first_revision.interface g = 0)).
  - intros g st _. exact I.
  - intros w hist. rewrite claim_interface_ctor_run. cbv zeta.
    destruct (respond w hist (libusb_kernel_driver_active dh 0) <? 0) eqn:E0.
    { eexists. split; [cbn; rewrite E0; reflexivity|]. cbn. tauto. }
    destruct (respond w hist (libusb_kernel_driver_active dh 0) =? 0) eqn:E1;
      cbn [negb andb app].
    + destruct (respond w (hist ++ [libusb_kernel_driver_active dh 0])
                  (libusb_claim_interface dh 0) <? 0) eqn:E3;
        eexists; (split; [cbn; rewrite E0, E1; reflexivity|]); cbn; tauto.
    + destruct (respond w (hist ++ [libusb_kernel_driver_active dh 0])
                  (libusb_detach_kernel_driver dh 0) <? 0) eqn:E2.
      { eexists. split; [cbn; rewrite E0, E1; cbn; rewrite E2; reflexivity|].
        cbn. tauto. }
      destruct (respond w _ (libusb_claim_interface dh 0) <? 0) eqn:E3;
        eexists;
        (split; [cbn; rewrite E0, E1; cbn; rewrite E2; reflexivity|]);
        cbn; tauto.
  - intros [was h i] [Hh Hi]. cbn in Hh, Hi. subst. apply Hbody.
  - intros [was h i] w hist [x y] [Hh Hi] Hst. cbn in Hh, Hi, Hst. subst.
    rewrite claim_interface_dtor_run. cbv zeta.
    cbn [first_revision.h first_revision.interface first_revision.try_attach].
    destruct (respond w hist (libusb_release_interface dh 0) <? 0) eqn:E.
    { eexists. split; [reflexivity|]. cbn. split; [exact I|].
      destruct d; discriminate. }
    destruct was.
    + destruct (respond w (hist ++ [libusb_release_interface dh 0])
                  (libusb_attach_kernel_driver dh 0) <? 0) eqn:E';
        eexists; (split; [cbn; rewrite E'; reflexivity|]); cbn; split; auto.
      * destruct d; discriminate.
      * intros _ [_ Hy]. exact Hy.
    + eexists. split; [reflexivity|]. cbn. split; [exact I|].
      intros _ [_ Hy]. exact Hy.
  - intros g w hist e _ H. exact H.
Qed.

Lemma session_drivers_first_revision (w : host) (hist : list event) :
  session step_drivers False (idle, idle)
    (fun st => left_detached st = false) w hist
    (first_revision.main d w hist).
Proof.
  unfold first_revision.main. apply session_main_try_block; [stable_event|].
  clear w hist.
  apply scoped_neutral;
    [ exact I | reflexivity | apply emits_usb_open; stable_event
    | intros _; apply emits_emit; stable_event
    | intros g w hist e; discriminate | intros _ ].
  apply scoped_neutral;
    [ exact I | reflexivity | apply emits_usb_device_get; stable_event
    | intros dh; apply emits_emit; stable_event
    | intros g w hist e; discriminate | intros dh ].
  apply scoped_bind;
    [ exact I | reflexivity
    | apply device_set_configuration;
      intros ev Hev; apply drivers_housekeeping, Hev
    | intros _ ].
  apply drivers_claim_interface_0. intros was0.
  apply drivers_claim_interface_1. intros was1.
  apply scoped_stable; [reflexivity | reflexivity |].
  apply device_first_revision_body; [|stable_event].
  intros ev. apply drivers_transfer; apply out_of_the_way_known.
Qed.
End DriversFirstRevision.

Lemma session_drivers_main_with (d : dialect) (copy_count : nat) (w : host)
    (hist : list event) :
  session step_drivers (d = cxx11) (idle, idle)
    (fun st => left_detached st = false) w hist
    (main_with d copy_count w hist).
Proof.
  unfold main_with. apply session_main_try_block; [stable_event|].
  clear w hist. unfold main_scope.
  apply scoped_neutral;
    [ exact I | reflexivity | apply emits_usb_open; stable_event
    | intros _; apply emits_emit; stable_event
    | intros g w hist e; discriminate | intros _ ].
  apply scoped_neutral;
    [ exact I | reflexivity | apply emits_usb_device_get; stable_event
    | intros dh; apply emits_emit; stable_event
    | intros g w hist e; discriminate | intros dh ].
  unfold main_guards.
  apply (drivers_usb_attach_interface_0 d (d = cxx11) (fun H => H)).
  intros was0.
  apply (drivers_usb_attach_interface_1 d (d = cxx11) (fun H => H)).
  intros was1.
  apply (drivers_claimed_scope d (d = cxx11) (fun H => H));
    try apply out_of_the_way_known.
  apply device_main_body; [|stable_event].
  intros ev. apply drivers_transfer; apply out_of_the_way_known.
Qed.

(** X17. The kernel drivers of the two interfaces over a whole session, on
    any host and in every revision.  The driver of an interface is asked
    for at most once; it is detached only after the query has found it
    bound, and reattached only after this session has detached it; an
    interface is claimed, and a control transfer issued, only when each
    driver concerned has been found absent or has been detached; no
    interface other than 0 and 1 is touched.  When [main] returns
    EXIT_SUCCESS no driver is left detached.  In temper.cpp and the tr1
    revision the same holds in C++11 whenever [main] returns; not so in the
    first revision, whose guard throws with the driver detached when the
    claim fails. *)
Theorem kernel_drivers_are_detached_and_reattached_in_step :
  forall (d : dialect) (copy_count : nat) (w : host) (hist : list event),
    session step_drivers (d = cxx11) (idle, idle)
      (fun st => left_detached st = false) w hist
      (main_with d copy_count w hist)
    /\ session step_drivers False (idle, idle)
         (fun st => left_detached st = false) w hist
         (first_revision.main d w hist).
Proof.
  intros d copy_count w hist. split.
  - apply session_drivers_main_with.
  - apply session_drivers_first_revision.
Qed.

(** What the two monitors say at a control transfer, and two sessions run
    through them. *)
Lemma claims_at_a_transfer (w : host) (pre post : list event) (ev : event)
    (hist : list event) (s st : claims) :
  run step_claims w hist (pre ++ ev :: post) s = Some st ->
  is_transfer ev = true ->
  run step_claims w hist pre s = Some (true, true).
Proof.
  rewrite run_app. intros Hrun Hev.
  destruct (run step_claims w hist pre s) as [[c0 c1]|]; [|discriminate Hrun].
  cbn [run] in Hrun.
  destruct ev; try discriminate Hev. cbn [step_claims fst snd] in Hrun.
  destruct c0, c1; try discriminate Hrun. reflexivity.
Qed.

Lemma drivers_at_a_transfer (w : host) (pre post : list event) (ev : event)
    (hist : list event) (s st : drivers) :
  run step_drivers w hist (pre ++ ev :: post) s = Some st ->
  is_transfer ev = true ->
  exists x y,
    run step_drivers w hist pre s = Some (x, y)
    /\ out_of_the_way x = true /\ out_of_the_way y = true.
Proof.
  rewrite run_app. intros Hrun Hev.
  destruct (run step_drivers w hist pre s) as [[x y]|]; [|discriminate Hrun].
  cbn [run] in Hrun.
  destruct ev; try discriminate Hev. cbn [step_drivers fst snd] in Hrun.
  exists x, y. split; [reflexivity|].
  destruct (out_of_the_way x), (out_of_the_way y); try discriminate Hrun.
  split; reflexivity.
Qed.

Lemma main_tr1_on_temper1_typestates (d : dialect) :
  run step_claims (plugged_host 0x57 0x58) []
    (events_of (main_tr1 d) (plugged_host 0x57 0x58) []) (false, false)
  = Some (false, false)
  /\ run step_drivers (plugged_host 0x57 0x58) []
       (events_of (main_tr1 d) (plugged_host 0x57 0x58) []) (idle, idle)
     = Some (bound, bound).
Proof. destruct d; split; vm_compute; reflexivity. Qed.

(** On [claimed_host] the first revision returns EXIT_FAILURE in C++11 with
    the driver of interface 1 detached. *)
Lemma first_revision_main_leaves_a_driver_detached :
  outcome_of (first_revision.main cxx11) claimed_host []
  = Normal EXIT_FAILURE
  /\ run step_drivers claimed_host []
       (events_of (first_revision.main cxx11) claimed_host []) (idle, idle)
     = Some (bound, detached).
Proof. split; vm_compute; reflexivity. Qed.
